(** * PicoClaw: a shallow embedding of the gateway's pure cores

    The development follows the Go packages of the repository:
    - [strings]: the functions of Go's [strings] package the code calls,
      over byte strings;
    - [mcp] and [tools]: the MCP server registry, its allow/deny lists, the
      prefixed tool catalog and the routing of a prefixed name;
    - [mailbox]: the in-memory mailbox store;
    - [safety]: the keyword filter for content and responses;
    - [providers]: the schedule provider's rule matching;
    - [md5], [uuid], [sha256], [hmac]: the digests the code names points
      and authenticates webhooks with;
    - [memory]: chunking and archival of a session into the vector store;
    - [gateway]: the webhook handler;
    - [qdrant]: the address of the vector store.

    Go strings are byte sequences; they are [string] here (a list of [ascii]
    bytes).  Go maps are [gmap]s; ranging over a map visits the entries in an
    unspecified order, which is [map_to_list] here, and every statement below
    about a range loop is independent of that order.  What the code reads
    from its environment (the clock, a fresh id, a library's Unicode tables,
    the embedder) is an argument of the function that reads it. *)

From Stdlib Require Import ZArith Lia Ascii String List DecimalString.
From stdpp Require Import base option list gmap strings sorting.

(* stdpp keeps [String.append] folded; the strings of this development are
   built from literals, so let it compute on constructors. *)
#[global] Arguments String.append !_ _ / : simpl nomatch.

(** ** Go's [strings] package *)
Module strings.

(** [strings.CutPrefix(s, prefix)]: the rest of [s] after [prefix]. *)
Fixpoint CutPrefix (s prefix : string) {struct prefix} : option string :=
  match prefix with
  | EmptyString => Some s
  | String p prefix' =>
      match s with
      | EmptyString => None
      | String c s' => if Ascii.eqb c p then CutPrefix s' prefix' else None
      end
  end.

Definition HasPrefix (s prefix : string) : bool :=
  match CutPrefix s prefix with Some _ => true | None => false end.

(** [strings.Cut(s, sep)]: the text before and after the first instance of
    [sep], or [None] when [sep] does not occur. *)
Fixpoint Cut (s sep : string) : option (string * string) :=
  match CutPrefix s sep with
  | Some after => Some (EmptyString, after)
  | None =>
      match s with
      | EmptyString => None
      | String c s' =>
          match Cut s' sep with
          | Some (before, after) => Some (String c before, after)
          | None => None
          end
      end
  end.

(** [strings.Contains(s, substr)]. *)
Definition Contains (s substr : string) : bool :=
  match Cut s substr with Some _ => true | None => false end.

(** [strings.SplitN(s, sep, 2)] for a non-empty [sep] (every call site passes
    a literal separator): split at the first instance of [sep]. *)
Definition SplitN2 (s sep : string) : list string :=
  match Cut s sep with
  | Some (before, after) => [before; after]
  | None => [s]
  end.

(** [strings.Split(s, sep)] for a one-byte separator [sep]: all the fields
    between the instances of the separator; never empty. *)
Fixpoint Split (s : string) (sep : ascii) : list string :=
  match s with
  | EmptyString => [EmptyString]
  | String c s' =>
      if Ascii.eqb c sep then EmptyString :: Split s' sep
      else match Split s' sep with
           | field :: fields => String c field :: fields
           | [] => [String c EmptyString]
           end
  end.

(** [strings.TrimLeft(s, cutset)] and [strings.TrimRight] for a one-byte
    cutset, and [strings.Trim] from them. *)
Fixpoint TrimLeft (s : string) (cut : ascii) : string :=
  match s with
  | EmptyString => EmptyString
  | String c s' => if Ascii.eqb c cut then TrimLeft s' cut else s
  end.

Fixpoint TrimRight (s : string) (cut : ascii) : string :=
  match s with
  | EmptyString => EmptyString
  | String c s' =>
      match TrimRight s' cut with
      | EmptyString => if Ascii.eqb c cut then EmptyString else String c EmptyString
      | rest => String c rest
      end
  end.

Definition Trim (s : string) (cut : ascii) : string :=
  TrimRight (TrimLeft s cut) cut.

(** [strings.ToLower] on a string of ASCII bytes. *)
Definition lowerByte (c : ascii) : ascii :=
  let n := N_of_ascii c in
  if (65 <=? n)%N && (n <=? 90)%N then ascii_of_N (n + 32) else c.

Fixpoint asciiLower (s : string) : string :=
  match s with
  | EmptyString => EmptyString
  | String c s' => String (lowerByte c) (asciiLower s')
  end.

Fixpoint isASCII (s : string) : bool :=
  match s with
  | EmptyString => true
  | String c s' => (N_of_ascii c <? 128)%N && isASCII s'
  end.

(** [strings.ToLower(s)]: the ASCII fast path of the library, and its
    fallback [mapToLower = strings.Map(unicode.ToLower, .)] for a string
    with a byte outside ASCII. *)
Definition ToLower (mapToLower : string -> string) (s : string) : string :=
  if isASCII s then asciiLower s else mapToLower s.

(** A range loop that returns [true] at the first element equal to [x], and
    [false] when it runs out: [for _, t := range l { if t == x { return true } }]. *)
Fixpoint rangeHas (l : list string) (x : string) : bool :=
  match l with
  | [] => false
  | t :: l' => if String.eqb t x then true else rangeHas l' x
  end.

(** [for _, kw := range kws { if strings.Contains(text, kw) { return true } }]. *)
Fixpoint containsAny (text : string) (kws : list string) : bool :=
  match kws with
  | [] => false
  | kw :: kws' => if Contains text kw then true else containsAny text kws'
  end.

Lemma CutPrefix_Some s p r : CutPrefix s p = Some r <-> s = p +:+ r.
Proof.
  revert s; induction p as [|c p IH]; intros s; simpl.
  - split; [intros [= ->]; reflexivity | intros ->; reflexivity].
  - destruct s as [|d s]; [split; discriminate|].
    destruct (Ascii.eqb_spec d c) as [->|Hne].
    + rewrite IH. split; [intros ->; reflexivity | intros [= ->]; reflexivity].
    + split; [discriminate | intros [= ? ?]; contradiction].
Qed.

Lemma CutPrefix_app p r : CutPrefix (p +:+ r) p = Some r.
Proof. apply CutPrefix_Some; reflexivity. Qed.

Lemma app_cons (x : ascii) (a b : string) : String x a +:+ b = String x (a +:+ b).
Proof. reflexivity. Qed.

Lemma app_assoc_s (a b c : string) : (a +:+ b) +:+ c = a +:+ (b +:+ c).
Proof. induction a as [|x a IH]; [reflexivity | rewrite !app_cons; f_equal; exact IH]. Qed.

(** What [Cut] returns is a decomposition of its argument. *)
Lemma Cut_Some_eq s sep b a : Cut s sep = Some (b, a) -> s = b +:+ sep +:+ a.
Proof.
  revert b a; induction s as [|c s IH]; intros b a; simpl.
  - destruct (CutPrefix "" sep) as [r|] eqn:E; [|discriminate].
    intros [= <- <-]. apply CutPrefix_Some in E. exact E.
  - destruct (CutPrefix (String c s) sep) as [r|] eqn:E.
    + intros [= <- <-]. apply CutPrefix_Some in E. exact E.
    + destruct (Cut s sep) as [[b' a']|] eqn:E'; [|discriminate].
      intros [= <- <-]. rewrite app_cons. f_equal. now apply IH.
Qed.

Lemma rangeHas_elem l x : rangeHas l x = true <-> x ∈ l.
Proof.
  induction l as [|t l IH]; simpl.
  - split; [discriminate | intros H; inversion H].
  - destruct (String.eqb_spec t x) as [->|Hne].
    + split; [intros _; left | reflexivity].
    + rewrite IH. split; [now right | intros H; inversion H; subst; [contradiction | assumption]].
Qed.

Lemma rangeHas_false l x : rangeHas l x = false <-> x ∉ l.
Proof.
  rewrite <- rangeHas_elem. destruct (rangeHas l x); split; intros; congruence.
Qed.

Lemma containsAny_exists text kws :
  containsAny text kws = true <-> exists kw, kw ∈ kws /\ Contains text kw = true.
Proof.
  induction kws as [|kw kws IH]; simpl.
  - split; [discriminate | intros (kw & H & _); inversion H].
  - destruct (Contains text kw) eqn:E.
    + split; [intros _; exists kw; split; [left | exact E] | reflexivity].
    + rewrite IH. split.
      * intros (k & Hk & Hc). exists k. split; [now right | exact Hc].
      * intros (k & Hk & Hc). inversion Hk; subst; [congruence | eauto].
Qed.

Lemma containsAny_app text k1 k2 :
  containsAny text (k1 ++ k2) = containsAny text k1 || containsAny text k2.
Proof.
  induction k1 as [|k k1 IH]; simpl; [reflexivity|].
  destruct (Contains text k); [reflexivity | exact IH].
Qed.

(** A name [s] is cut back out of [s ++ "__" ++ t] exactly when no ["__"]
    starts inside [s]: [s] holds no ["__"] and does not end in ["_"]. *)
Lemma Cut_sep2_app s t :
  Contains (s +:+ "_") "__" = false -> Cut (s +:+ "__" +:+ t) "__" = Some (s, t).
Proof.
  unfold Contains. induction s as [|c s IH]; intros H.
  - reflexivity.
  - change (String c s +:+ "__" +:+ t) with (String c (s +:+ "__" +:+ t)).
    change (String c s +:+ "_") with (String c (s +:+ "_")) in H.
    cbn [Cut] in H |- *.
    destruct (CutPrefix (String c (s +:+ "_")) "__") as [r|] eqn:E; [discriminate|].
    destruct (Cut (s +:+ "_") "__") as [[b a]|] eqn:E'; [discriminate|].
    rewrite (IH eq_refl).
    destruct (CutPrefix (String c (s +:+ "__" +:+ t)) "__") as [r|] eqn:E2; [|reflexivity].
    exfalso. cbn in E, E2.
    destruct (Ascii.eqb c "_"); [|discriminate].
    destruct s as [|d s]; cbn in E, E2; [discriminate|].
    destruct (Ascii.eqb d "_"); discriminate.
Qed.

End strings.

(** ** Package [mcp]: the server registry and its tool catalog *)
Module mcp.

(** A value of [interface{}] as JSON carries it. *)
#[local] Unset Elimination Schemes.
Inductive JSONValue : Type :=
| JNull
| JBool (b : bool)
| JNumber (n : Z)
| JString (s : string)
| JArray (l : list JSONValue)
| JObject (fields : list (string * JSONValue)).
#[local] Set Elimination Schemes.

Module MCPToolDef.
Record t : Type := mk {
  Name : string;
  Description : string;
  InputSchema : list (string * JSONValue)
}.
End MCPToolDef.

Module MCPServerConfig.
Record t : Type := mk {
  Name : string;
  Command : string;
  Args : list string;
  Env : gmap string string;
  URL : string;
  Headers : gmap string string;
  ToolTimeout : Z;
  WorkspaceAllowList : list string;
  WorkspaceDenyList : list string;
  ToolAllowList : list string;
  ToolDenyList : list string
}.
End MCPServerConfig.

Module MCPServer.
Record t : Type := mk {
  Name : string;
  Command : string;
  Args : list string;
  Env : gmap string string;
  URL : string;
  Headers : gmap string string;
  Connected : bool;
  Tools : list MCPToolDef.t;
  WorkspaceAllowList : list string;
  WorkspaceDenyList : list string;
  ToolAllowList : list string;
  ToolDenyList : list string
}.

Definition setConnected (s : t) (b : bool) : t :=
  mk (Name s) (Command s) (Args s) (Env s) (URL s) (Headers s) b (Tools s)
     (WorkspaceAllowList s) (WorkspaceDenyList s) (ToolAllowList s) (ToolDenyList s).

Definition setTools (s : t) (tools : list MCPToolDef.t) : t :=
  mk (Name s) (Command s) (Args s) (Env s) (URL s) (Headers s) (Connected s) tools
     (WorkspaceAllowList s) (WorkspaceDenyList s) (ToolAllowList s) (ToolDenyList s).
End MCPServer.

(** [MCPManager]: the servers by name ([ToolTimeout] plays no part in the
    catalog and the mutex none in a sequential run). *)
Record MCPManager : Type := { Servers : gmap string MCPServer.t }.

Definition NewManager : MCPManager := {| Servers := ∅ |}.

(** [AddServer] stores the server under [config.Name] and then marks it
    connected through the stored pointer. *)
Definition AddServer (m : MCPManager) (config : MCPServerConfig.t) : MCPManager :=
  let server :=
    MCPServer.mk (MCPServerConfig.Name config) (MCPServerConfig.Command config)
      (MCPServerConfig.Args config) (MCPServerConfig.Env config)
      (MCPServerConfig.URL config) (MCPServerConfig.Headers config)
      false []
      (MCPServerConfig.WorkspaceAllowList config) (MCPServerConfig.WorkspaceDenyList config)
      (MCPServerConfig.ToolAllowList config) (MCPServerConfig.ToolDenyList config) in
  {| Servers := <[MCPServerConfig.Name config := MCPServer.setConnected server true]> (Servers m) |}.

Definition RemoveServer (m : MCPManager) (name : string) : MCPManager :=
  {| Servers := delete name (Servers m) |}.

Definition isWorkspaceAllowed (s : MCPServer.t) (workspace : string) : bool :=
  if (0 <? Z.of_nat (length (MCPServer.WorkspaceAllowList s)))%Z then
    strings.rangeHas (MCPServer.WorkspaceAllowList s) workspace
  else
    negb (strings.rangeHas (MCPServer.WorkspaceDenyList s) workspace).

Definition isToolAllowed (s : MCPServer.t) (toolName : string) : bool :=
  if (0 <? Z.of_nat (length (MCPServer.ToolAllowList s)))%Z then
    strings.rangeHas (MCPServer.ToolAllowList s) toolName
  else
    negb (strings.rangeHas (MCPServer.ToolDenyList s) toolName).

(** The body of the inner loop: append the prefixed copy of an allowed tool. *)
Definition appendTool (server : MCPServer.t) (tools : list MCPToolDef.t)
    (tool : MCPToolDef.t) : list MCPToolDef.t :=
  if isToolAllowed server (MCPToolDef.Name tool) then
    let prefixedName := MCPServer.Name server +:+ "__" +:+ MCPToolDef.Name tool in
    tools ++ [MCPToolDef.mk prefixedName (MCPToolDef.Description tool) (MCPToolDef.InputSchema tool)]
  else tools.

Definition GetAllTools (m : MCPManager) : list MCPToolDef.t :=
  foldl (fun tools entry =>
           let server := entry.2 in
           if negb (MCPServer.Connected server) then tools
           else foldl (appendTool server) tools (MCPServer.Tools server))
        [] (map_to_list (Servers m)).

Definition GetToolsForWorkspace (m : MCPManager) (workspace : string) : list MCPToolDef.t :=
  foldl (fun tools entry =>
           let server := entry.2 in
           if negb (MCPServer.Connected server) then tools
           else if negb (isWorkspaceAllowed server workspace) then tools
           else foldl (appendTool server) tools (MCPServer.Tools server))
        [] (map_to_list (Servers m)).

Definition example_tool : MCPToolDef.t :=
  MCPToolDef.mk "example_tool" "Example MCP tool" [("type", JString "object")].

Definition http_example : MCPToolDef.t :=
  MCPToolDef.mk "http_example" "Example HTTP MCP tool" [("type", JString "object")].

Definition connectStdio (server : MCPServer.t) : MCPServer.t :=
  MCPServer.setTools (MCPServer.setConnected server true) [example_tool].

Definition connectHTTP (server : MCPServer.t) : MCPServer.t :=
  MCPServer.setTools (MCPServer.setConnected server true) [http_example].

(** [ConnectServer]: [inr] is the error text; the server is updated in place. *)
Definition ConnectServer (m : MCPManager) (name : string) : MCPManager + string :=
  match Servers m !! name with
  | None => inr ("server " +:+ name +:+ " not found")
  | Some server =>
      let server' :=
        if negb (String.eqb (MCPServer.URL server) "") then connectHTTP server
        else connectStdio server in
      inl {| Servers := <[name := server']> (Servers m) |}
  end.

Definition DisconnectServer (m : MCPManager) (name : string) : MCPManager + string :=
  match Servers m !! name with
  | None => inr ("server " +:+ name +:+ " not found")
  | Some server =>
      inl {| Servers := <[name := MCPServer.setConnected server false]> (Servers m) |}
  end.

Record ToolContent : Type := {
  Type_ : string;
  Text : string;
  Data : string;
  MimeType : string
}.

Record CallToolResult : Type := {
  Content : list ToolContent;
  IsError : bool
}.

(** [CallTool] finds the server by the routed name; the reply is the fixed
    text content of the stubbed transport. *)
Definition CallTool (m : MCPManager) (serverName toolName : string) : CallToolResult + string :=
  match Servers m !! serverName with
  | None => inr ("server " +:+ serverName +:+ " not found")
  | Some server =>
      if negb (MCPServer.Connected server) then
        inr ("server " +:+ serverName +:+ " not connected")
      else inl {| Content := [ {| Type_ := "text"; Text := "MCP tool result";
                                 Data := ""; MimeType := "" |} ];
                  IsError := false |}
  end.

(** Every server is stored under its own name: what [AddServer] establishes
    and the other operations keep. *)
Definition keyed (m : MCPManager) : Prop :=
  forall k s, Servers m !! k = Some s -> MCPServer.Name s = k.

(** The allow/deny rule in words: a non-empty allow-list decides alone,
    otherwise the deny-list is applied. *)
Definition passes (allow deny : list string) (x : string) : Prop :=
  match allow with
  | [] => x ∉ deny
  | _ :: _ => x ∈ allow
  end.

(** What one connected server contributes to the catalog. *)
Definition prefixed (server : MCPServer.t) (tool : MCPToolDef.t) : MCPToolDef.t :=
  MCPToolDef.mk (MCPServer.Name server +:+ "__" +:+ MCPToolDef.Name tool)
    (MCPToolDef.Description tool) (MCPToolDef.InputSchema tool).

Definition emittedFrom (server : MCPServer.t) (l : list MCPToolDef.t) : list MCPToolDef.t :=
  prefixed server <$> filter (fun tool => isToolAllowed server (MCPToolDef.Name tool) = true) l.

Definition emitted (server : MCPServer.t) : list MCPToolDef.t :=
  emittedFrom server (MCPServer.Tools server).

Definition contribution (entry : string * MCPServer.t) : list MCPToolDef.t :=
  if MCPServer.Connected entry.2 then emitted entry.2 else [].

Definition contributionFor (workspace : string) (entry : string * MCPServer.t) : list MCPToolDef.t :=
  if MCPServer.Connected entry.2 && isWorkspaceAllowed entry.2 workspace
  then emitted entry.2 else [].

Lemma keyed_NewManager : keyed NewManager.
Proof. intros k s H. cbn in H. rewrite lookup_empty in H. discriminate. Qed.

Lemma keyed_AddServer m config : keyed m -> keyed (AddServer m config).
Proof.
  intros Hm k s. cbn. rewrite lookup_insert. case_decide as Hk.
  - intros [= <-]. exact Hk.
  - apply Hm.
Qed.

Lemma keyed_RemoveServer m name : keyed m -> keyed (RemoveServer m name).
Proof.
  intros Hm k s. cbn. rewrite lookup_delete. case_decide; [discriminate | apply Hm].
Qed.

Lemma keyed_ConnectServer m name m' :
  keyed m -> ConnectServer m name = inl m' -> keyed m'.
Proof.
  intros Hm. unfold ConnectServer. destruct (Servers m !! name) as [srv|] eqn:E; [|discriminate].
  intros [= <-] k s. cbn. rewrite lookup_insert. case_decide as Hk; [|apply Hm].
  intros [= <-]. subst k. apply Hm in E.
  destruct (negb _); exact E.
Qed.

Lemma keyed_DisconnectServer m name m' :
  keyed m -> DisconnectServer m name = inl m' -> keyed m'.
Proof.
  intros Hm. unfold DisconnectServer. destruct (Servers m !! name) as [srv|] eqn:E; [|discriminate].
  intros [= <-] k s. cbn. rewrite lookup_insert. case_decide as Hk; [|apply Hm].
  intros [= <-]. subst k. apply Hm in E. exact E.
Qed.

Lemma isToolAllowed_passes s x :
  isToolAllowed s x = true <->
  passes (MCPServer.ToolAllowList s) (MCPServer.ToolDenyList s) x.
Proof.
  unfold isToolAllowed, passes. destruct (MCPServer.ToolAllowList s) as [|a l]; cbn [length].
  - change (0 <? Z.of_nat 0)%Z with false. cbv iota.
    rewrite negb_true_iff. apply strings.rangeHas_false.
  - replace (0 <? Z.of_nat (S (length l)))%Z with true by (symmetry; apply Z.ltb_lt; lia).
    apply strings.rangeHas_elem.
Qed.

Lemma isWorkspaceAllowed_passes s w :
  isWorkspaceAllowed s w = true <->
  passes (MCPServer.WorkspaceAllowList s) (MCPServer.WorkspaceDenyList s) w.
Proof.
  unfold isWorkspaceAllowed, passes. destruct (MCPServer.WorkspaceAllowList s) as [|a l]; cbn [length].
  - change (0 <? Z.of_nat 0)%Z with false. cbv iota.
    rewrite negb_true_iff. apply strings.rangeHas_false.
  - replace (0 <? Z.of_nat (S (length l)))%Z with true by (symmetry; apply Z.ltb_lt; lia).
    apply strings.rangeHas_elem.
Qed.

(** The inner loop appends the allowed tools, prefixed, in their order. *)
Lemma foldl_appendTool server l acc :
  foldl (appendTool server) acc l = acc ++ emittedFrom server l.
Proof.
  revert acc; induction l as [|tool l IH]; intros acc; cbn [foldl].
  - unfold emittedFrom. cbn. now rewrite app_nil_r.
  - rewrite IH. unfold appendTool, emittedFrom. rewrite filter_cons.
    destruct (isToolAllowed server (MCPToolDef.Name tool)) eqn:E.
    + rewrite decide_True by reflexivity. rewrite fmap_cons, <- app_assoc. reflexivity.
    + rewrite decide_False by discriminate. reflexivity.
Qed.

Lemma GetAllTools_bind m :
  GetAllTools m = map_to_list (Servers m) ≫= contribution.
Proof.
  unfold GetAllTools. generalize (map_to_list (Servers m)) as l.
  enough (forall l acc,
    foldl (fun tools entry =>
             let server := entry.2 in
             if negb (MCPServer.Connected server) then tools
             else foldl (appendTool server) tools (MCPServer.Tools server)) acc l
    = acc ++ (l ≫= contribution)) as H by (intros l; apply (H l [])).
  induction l as [|e l IH]; intros acc; cbn [foldl].
  - now rewrite app_nil_r.
  - rewrite IH, bind_cons, app_assoc. f_equal. unfold contribution.
    destruct (MCPServer.Connected e.2); cbn [negb].
    + apply foldl_appendTool.
    + now rewrite app_nil_r.
Qed.

Lemma GetToolsForWorkspace_bind m w :
  GetToolsForWorkspace m w = map_to_list (Servers m) ≫= contributionFor w.
Proof.
  unfold GetToolsForWorkspace. generalize (map_to_list (Servers m)) as l.
  enough (forall l acc,
    foldl (fun tools entry =>
             let server := entry.2 in
             if negb (MCPServer.Connected server) then tools
             else if negb (isWorkspaceAllowed server w) then tools
             else foldl (appendTool server) tools (MCPServer.Tools server)) acc l
    = acc ++ (l ≫= contributionFor w)) as H by (intros l; apply (H l [])).
  induction l as [|e l IH]; intros acc; cbn [foldl].
  - now rewrite app_nil_r.
  - rewrite IH, bind_cons, app_assoc. f_equal. unfold contributionFor.
    destruct (MCPServer.Connected e.2); cbn [negb andb].
    + destruct (isWorkspaceAllowed e.2 w); cbn [negb].
      * apply foldl_appendTool.
      * now rewrite app_nil_r.
    + now rewrite app_nil_r.
Qed.

Lemma elem_of_emitted server td :
  td ∈ emitted server <->
  exists tool, tool ∈ MCPServer.Tools server /\
    isToolAllowed server (MCPToolDef.Name tool) = true /\ td = prefixed server tool.
Proof.
  unfold emitted, emittedFrom. rewrite list_elem_of_fmap. split.
  - intros (tool & -> & [Ha Hin]%list_elem_of_filter). eauto.
  - intros (tool & Hin & Ha & ->). exists tool. split; [reflexivity|].
    apply list_elem_of_filter. split; assumption.
Qed.

(** Exactly which definitions the two catalogs hold. *)
Lemma elem_of_GetAllTools m td :
  td ∈ GetAllTools m <->
  exists k s tool, Servers m !! k = Some s /\ MCPServer.Connected s = true /\
    tool ∈ MCPServer.Tools s /\ isToolAllowed s (MCPToolDef.Name tool) = true /\
    td = prefixed s tool.
Proof.
  rewrite GetAllTools_bind, list_elem_of_bind. split.
  - intros ([k s] & Hin & Hl%elem_of_map_to_list). unfold contribution in Hin. cbn in Hin.
    destruct (MCPServer.Connected s) eqn:Ec; [|inversion Hin].
    apply elem_of_emitted in Hin as (tool & ? & ? & ?). exists k, s, tool. auto.
  - intros (k & s & tool & Hl & Hc & Hin & Ha & ->). exists (k, s). split.
    + unfold contribution. cbn. rewrite Hc. apply elem_of_emitted. eauto.
    + now apply elem_of_map_to_list.
Qed.

Lemma elem_of_GetToolsForWorkspace m w td :
  td ∈ GetToolsForWorkspace m w <->
  exists k s tool, Servers m !! k = Some s /\ MCPServer.Connected s = true /\
    isWorkspaceAllowed s w = true /\
    tool ∈ MCPServer.Tools s /\ isToolAllowed s (MCPToolDef.Name tool) = true /\
    td = prefixed s tool.
Proof.
  rewrite GetToolsForWorkspace_bind, list_elem_of_bind. split.
  - intros ([k s] & Hin & Hl%elem_of_map_to_list). unfold contributionFor in Hin. cbn in Hin.
    destruct (MCPServer.Connected s) eqn:Ec; [|inversion Hin].
    destruct (isWorkspaceAllowed s w) eqn:Ew; [|inversion Hin].
    apply elem_of_emitted in Hin as (tool & ? & ? & ?). exists k, s, tool. auto 10.
  - intros (k & s & tool & Hl & Hc & Hw & Hin & Ha & ->). exists (k, s). split.
    + unfold contributionFor. cbn. rewrite Hc, Hw. apply elem_of_emitted. eauto.
    + now apply elem_of_map_to_list.
Qed.

(** C1. Every definition in [GetAllTools()] comes from a connected server and
    a tool of it whose original name passes the server's tool allow/deny
    lists, and carries the name ["<server>__<tool>"]; every definition in
    [GetToolsForWorkspace(w)] moreover comes from a server whose workspace
    allow/deny lists [w] passes.  A non-empty allow-list decides alone,
    otherwise the deny-list is applied ([passes]). *)
Theorem catalog_tools_allowed (m : MCPManager) (w : string) (td : MCPToolDef.t) :
  (td ∈ GetAllTools m ->
   exists k s tool,
     Servers m !! k = Some s /\ MCPServer.Connected s = true /\
     tool ∈ MCPServer.Tools s /\
     passes (MCPServer.ToolAllowList s) (MCPServer.ToolDenyList s) (MCPToolDef.Name tool) /\
     MCPToolDef.Name td = MCPServer.Name s +:+ "__" +:+ MCPToolDef.Name tool) /\
  (td ∈ GetToolsForWorkspace m w ->
   exists k s tool,
     Servers m !! k = Some s /\ MCPServer.Connected s = true /\
     passes (MCPServer.WorkspaceAllowList s) (MCPServer.WorkspaceDenyList s) w /\
     tool ∈ MCPServer.Tools s /\
     passes (MCPServer.ToolAllowList s) (MCPServer.ToolDenyList s) (MCPToolDef.Name tool) /\
     MCPToolDef.Name td = MCPServer.Name s +:+ "__" +:+ MCPToolDef.Name tool).
Proof.
  split.
  - intros (k & s & tool & Hl & Hc & Hin & Ha & ->)%elem_of_GetAllTools.
    exists k, s, tool. rewrite <- isToolAllowed_passes. auto 10.
  - intros (k & s & tool & Hl & Hc & Hw & Hin & Ha & ->)%elem_of_GetToolsForWorkspace.
    exists k, s, tool. rewrite <- isToolAllowed_passes, <- isWorkspaceAllowed_passes. auto 10.
Qed.

(** *** The registry's operations and the catalog *)

Module ServerSummary.
Record t : Type := mk {
  Name : string;
  Tools : list string;
  Description : string
}.
End ServerSummary.

(** [fmt.Sprintf("%d", n)]. *)
Definition formatInt (n : Z) : string := NilZero.string_of_int (Z.to_int n).

(** [GetServerSummary]: one summary per server of the map, with the names of
    all its tools. *)
Definition GetServerSummary (m : MCPManager) : list ServerSummary.t :=
  foldl (fun summaries entry =>
           let server := entry.2 in
           let toolNames := MCPToolDef.Name <$> MCPServer.Tools server in
           summaries ++
           [ServerSummary.mk (MCPServer.Name server) toolNames
              ("MCP server with " +:+
               formatInt (Z.of_nat (length (MCPServer.Tools server))) +:+ " tools")])
        [] (map_to_list (Servers m)).

(** The tools the catalog of [m] takes from servers other than [name]. *)
Definition fromOthers (m : MCPManager) (name : string) (td : MCPToolDef.t) : Prop :=
  exists k s, k <> name /\ Servers m !! k = Some s /\
              MCPServer.Connected s = true /\ td ∈ emitted s.

Lemma elem_of_GetAllTools_emitted m td :
  td ∈ GetAllTools m <->
  exists k s, Servers m !! k = Some s /\ MCPServer.Connected s = true /\ td ∈ emitted s.
Proof.
  rewrite elem_of_GetAllTools. split.
  - intros (k & s & tool & Hl & Hc & Hin & Ha & ->). exists k, s.
    split; [exact Hl | split; [exact Hc|]]. apply elem_of_emitted. eauto.
  - intros (k & s & Hl & Hc & (tool & Hin & Ha & ->)%elem_of_emitted).
    exists k, s, tool. auto.
Qed.

(** The catalog after the entry [name] is set to [s']. *)
Lemma elem_of_GetAllTools_insert m name s' td :
  td ∈ GetAllTools {| Servers := <[name := s']> (Servers m) |} <->
  (MCPServer.Connected s' = true /\ td ∈ emitted s') \/ fromOthers m name td.
Proof.
  rewrite elem_of_GetAllTools_emitted. unfold fromOthers. cbn [Servers]. split.
  - intros (k & s & Hl & Hc & Hin). rewrite lookup_insert in Hl. case_decide as Hk.
    + injection Hl as <-. left. auto.
    + right. exists k, s. auto.
  - intros [[Hc Hin]|(k & s & Hk & Hl & Hc & Hin)].
    + exists name, s'. rewrite lookup_insert_eq. auto.
    + exists k, s. rewrite lookup_insert_ne by congruence. auto.
Qed.




(** X3. [AddServer] registers the server as connected with no tools, under
    [config.Name], replacing a server of that name: the catalog afterwards
    is what the other servers contributed, so adding a name again drops the
    tools it had in the catalog. *)
Theorem AddServer_catalog (m : MCPManager) (config : MCPServerConfig.t) :
  (exists s, Servers (AddServer m config) !! MCPServerConfig.Name config = Some s /\
             MCPServer.Name s = MCPServerConfig.Name config /\
             MCPServer.Connected s = true /\ MCPServer.Tools s = []) /\
  (forall k, k <> MCPServerConfig.Name config ->
             Servers (AddServer m config) !! k = Servers m !! k) /\
  (forall td, td ∈ GetAllTools (AddServer m config) <->
              fromOthers m (MCPServerConfig.Name config) td).
Proof.
  split; [|split].
  - eexists. cbn [AddServer Servers]. rewrite lookup_insert_eq. split; [reflexivity|].
    cbn. auto.
  - intros k Hk. cbn [AddServer Servers]. now rewrite lookup_insert_ne.
  - intros td. unfold AddServer. rewrite elem_of_GetAllTools_insert. split; [|auto].
    intros [[_ Hin]|H]; [|exact H]. unfold emitted, emittedFrom in Hin. cbn in Hin.
    inversion Hin.
Qed.

(** X4. [ConnectServer] fails on a name that is not registered; when it
    succeeds the server is connected and advertises exactly one tool,
    [http_example] if it has a URL and [example_tool] otherwise, in place of
    any tools it had, so the catalog is what the other servers contributed
    plus that one tool under the server's prefix, if the server's tool lists
    admit it. *)
Theorem ConnectServer_catalog (m : MCPManager) (name : string) :
  (Servers m !! name = None ->
   ConnectServer m name = inr ("server " +:+ name +:+ " not found")) /\
  (forall m' server, Servers m !! name = Some server -> ConnectServer m name = inl m' ->
     let stub := if String.eqb (MCPServer.URL server) "" then example_tool
                 else http_example in
     Servers m' !! name
       = Some (MCPServer.setTools (MCPServer.setConnected server true) [stub]) /\
     (forall k, k <> name -> Servers m' !! k = Servers m !! k) /\
     (forall td, td ∈ GetAllTools m' <->
        (isToolAllowed server (MCPToolDef.Name stub) = true /\ td = prefixed server stub)
        \/ fromOthers m name td)).
Proof.
  unfold ConnectServer. split.
  - now intros ->.
  - intros m' server E. rewrite E. intros [= <-]. cbv zeta.
    assert (Hs : (if negb (String.eqb (MCPServer.URL server) "") then connectHTTP server
                  else connectStdio server)
                 = MCPServer.setTools (MCPServer.setConnected server true)
                     [if String.eqb (MCPServer.URL server) "" then example_tool
                      else http_example])
      by (destruct (String.eqb (MCPServer.URL server) ""); reflexivity).
    rewrite Hs. split; [|split].
    + cbn [Servers]. now rewrite lookup_insert_eq.
    + intros k Hk. cbn [Servers]. now rewrite lookup_insert_ne.
    + intros td. rewrite elem_of_GetAllTools_insert.
      set (stub := if String.eqb (MCPServer.URL server) "" then example_tool else http_example).
      assert (He : td ∈ emitted (MCPServer.setTools (MCPServer.setConnected server true) [stub])
                   <-> isToolAllowed server (MCPToolDef.Name stub) = true /\
                       td = prefixed server stub).
      { rewrite elem_of_emitted. cbn [MCPServer.Tools MCPServer.setTools]. split.
        - intros (tool & ->%list_elem_of_singleton & Ha & ->). split; [exact Ha | reflexivity].
        - intros [Ha ->]. exists stub. split; [apply list_elem_of_singleton; reflexivity|].
          split; [exact Ha | reflexivity]. }
      rewrite He. cbn [MCPServer.Connected MCPServer.setTools MCPServer.setConnected]. tauto.
Qed.

Lemma GetServerSummary_fmap m :
  GetServerSummary m =
  (fun entry : string * MCPServer.t =>
     ServerSummary.mk (MCPServer.Name entry.2) (MCPToolDef.Name <$> MCPServer.Tools entry.2)
       ("MCP server with " +:+
        formatInt (Z.of_nat (length (MCPServer.Tools entry.2))) +:+ " tools"))
  <$> map_to_list (Servers m).
Proof.
  unfold GetServerSummary. generalize (map_to_list (Servers m)) as l. intros l.
  match goal with
  | |- foldl ?F [] l = ?G <$> l =>
      enough (H : forall l acc, foldl F acc l = acc ++ (G <$> l)) by apply (H l [])
  end.
  clear l. induction l as [|e l IH]; intros acc; cbn [foldl].
  - now rewrite app_nil_r.
  - rewrite IH, fmap_cons, <- app_assoc. reflexivity.
Qed.

(** X5. [GetServerSummary] has one summary for every registered server,
    connected or not, and it lists every advertised tool under its original
    name, whatever the allow and deny lists say: each tool of the catalog is
    found, without its prefix, in the summary of its server. *)
Theorem GetServerSummary_covers (m : MCPManager) :
  length (GetServerSummary m) = size (Servers m) /\
  (forall k s tool, Servers m !! k = Some s -> tool ∈ MCPServer.Tools s ->
     exists summary, summary ∈ GetServerSummary m /\
       ServerSummary.Name summary = MCPServer.Name s /\
       MCPToolDef.Name tool ∈ ServerSummary.Tools summary /\
       length (ServerSummary.Tools summary) = length (MCPServer.Tools s)) /\
  (forall td, td ∈ GetAllTools m ->
     exists summary original, summary ∈ GetServerSummary m /\
       original ∈ ServerSummary.Tools summary /\
       MCPToolDef.Name td = ServerSummary.Name summary +:+ "__" +:+ original).
Proof.
  rewrite GetServerSummary_fmap.
  assert (Hall : forall k s tool, Servers m !! k = Some s -> tool ∈ MCPServer.Tools s ->
     exists summary,
       summary ∈ (fun entry : string * MCPServer.t =>
          ServerSummary.mk (MCPServer.Name entry.2)
            (MCPToolDef.Name <$> MCPServer.Tools entry.2)
            ("MCP server with " +:+
             formatInt (Z.of_nat (length (MCPServer.Tools entry.2))) +:+ " tools"))
          <$> map_to_list (Servers m) /\
       ServerSummary.Name summary = MCPServer.Name s /\
       MCPToolDef.Name tool ∈ ServerSummary.Tools summary /\
       length (ServerSummary.Tools summary) = length (MCPServer.Tools s)).
  { intros k s tool Hl Hin. eexists. split.
    - apply list_elem_of_fmap. exists (k, s). split; [reflexivity|].
      now apply elem_of_map_to_list.
    - cbn. split; [reflexivity|]. split; [now apply list_elem_of_fmap_2|].
      now rewrite length_fmap. }
  split; [|split].
  - now rewrite length_fmap, length_map_to_list.
  - exact Hall.
  - intros td (k & s & tool & Hl & _ & Hin & _ & ->)%elem_of_GetAllTools.
    destruct (Hall k s tool Hl Hin) as (summary & Hs & Hn & Ht & _).
    exists summary, (MCPToolDef.Name tool). rewrite Hn. auto.
Qed.

End mcp.

(** ** Package [tools]: the MCP tool wrapper *)
Module tools.
Import mcp.

(** The head of [MCPTool.Execute]: the server and tool names handed to
    [CallTool], or [None] where it answers "invalid MCP tool name format". *)
Definition Execute_route (toolDef : MCPToolDef.t) : option (string * string) :=
  match strings.SplitN2 (MCPToolDef.Name toolDef) "__" with
  | [serverName; origToolName] => Some (serverName, origToolName)
  | _ => None
  end.

(** The call [Execute] makes on the manager. *)
Definition Execute_call (manager : MCPManager) (toolDef : MCPToolDef.t)
    : CallToolResult + string :=
  match Execute_route toolDef with
  | None => inr "invalid MCP tool name format"
  | Some (serverName, origToolName) => CallTool manager serverName origToolName
  end.

(** No ["__"] starts inside the name: it holds none and does not end in ["_"]. *)
Definition routable (name : string) : bool :=
  negb (strings.Contains (name +:+ "_") "__").

(** The test manager of [TestGetAllTools]-style states, by the registry's own
    operations: a server is added, then its advertised tools are set. *)
Definition withTools (m : MCPManager) (name : string) (tl : list MCPToolDef.t) : MCPManager :=
  match Servers m !! name with
  | Some server => {| Servers := <[name := MCPServer.setTools server tl]> (Servers m) |}
  | None => m
  end.

Definition config (name : string) (toolAllow toolDeny : list string) : MCPServerConfig.t :=
  MCPServerConfig.mk name "echo" [] ∅ "" ∅ 0 [] [] toolAllow toolDeny.

Definition tool_ (name : string) : MCPToolDef.t := MCPToolDef.mk name "" [].

(** Two servers whose tool names clash: [fs] and [db] both advertise
    [read_file]; [db] denies [drop]. *)
Definition fs_db : MCPManager :=
  withTools
    (withTools (AddServer (AddServer NewManager (config "fs" [] [])) (config "db" [] ["drop"]))
       "fs" [tool_ "read_file"; tool_ "write_file"])
    "db" [tool_ "read_file"; tool_ "drop"].

(** A server name that holds the separator: [a] advertises [b__c], and
    [a__b] advertises [c]. *)
Definition a_ab : MCPManager :=
  withTools
    (withTools (AddServer (AddServer NewManager (config "a" [] [])) (config "a__b" [] []))
       "a" [tool_ "b__c"])
    "a__b" [tool_ "c"].

(** [NoDup] of a list of string literals. *)
Ltac nodup_strings :=
  repeat (apply NoDup_cons_2;
          [ let HH := fresh in
            intros HH;
            repeat (apply elem_of_cons in HH as [HH|HH]; [discriminate HH|]);
            inversion HH
          | ]);
  apply NoDup_nil_2.

Lemma keyed_withTools m name tl : keyed m -> keyed (withTools m name tl).
Proof.
  intros Hm. unfold withTools. destruct (Servers m !! name) as [srv|] eqn:E; [|exact Hm].
  intros k s. cbn. rewrite lookup_insert. case_decide as Hk; [|apply Hm].
  intros [= <-]. subst k. apply Hm in E. exact E.
Qed.

Lemma prepend_inj (p a b : string) : p +:+ a = p +:+ b -> a = b.
Proof. induction p as [|c p IH]; cbn; [auto | intros [= H]; auto]. Qed.

Lemma NoDup_fmap_filter {A B} (f : A -> B) (P : A -> Prop) `{forall x, Decision (P x)}
    (l : list A) :
  NoDup (f <$> l) -> NoDup (f <$> filter P l).
Proof.
  induction l as [|x l IH]; [intros _; constructor|].
  rewrite fmap_cons, NoDup_cons. intros [Hx Hl]. rewrite filter_cons.
  destruct (decide (P x)); [|auto].
  rewrite fmap_cons, NoDup_cons. split; [|auto].
  intros (y & Hy & [_ Hin]%list_elem_of_filter)%list_elem_of_fmap.
  apply Hx. apply list_elem_of_fmap. eauto.
Qed.

Lemma route_prefixed s tool :
  routable (MCPServer.Name s) = true ->
  Execute_route (prefixed s tool) = Some (MCPServer.Name s, MCPToolDef.Name tool).
Proof.
  unfold routable, Execute_route, strings.SplitN2, prefixed. cbn [MCPToolDef.Name].
  intros H%negb_true_iff. now rewrite strings.Cut_sep2_app.
Qed.

Lemma NoDup_emitted_names s :
  NoDup (MCPToolDef.Name <$> MCPServer.Tools s) ->
  NoDup (MCPToolDef.Name <$> emitted s).
Proof.
  intros Hs. unfold emitted, emittedFrom. rewrite <- list_fmap_compose.
  change (MCPToolDef.Name ∘ prefixed s)
    with ((fun n => MCPServer.Name s +:+ "__" +:+ n) ∘ MCPToolDef.Name).
  rewrite list_fmap_compose. apply NoDup_fmap_2_strong.
  - intros x y _ _ E. apply prepend_inj in E. now apply (prepend_inj "__") in E.
  - now apply NoDup_fmap_filter.
Qed.

Lemma names_bind m :
  MCPToolDef.Name <$> GetAllTools m =
  map_to_list (Servers m) ≫= (fun e => MCPToolDef.Name <$> contribution e).
Proof.
  rewrite GetAllTools_bind. induction (map_to_list (Servers m)) as [|e l IH].
  - reflexivity.
  - rewrite !bind_cons, fmap_app, IH. reflexivity.
Qed.

Lemma contribution_name e y :
  y ∈ MCPToolDef.Name <$> contribution e ->
  MCPServer.Connected e.2 = true /\
  exists tool, tool ∈ MCPServer.Tools e.2 /\ y = MCPServer.Name e.2 +:+ "__" +:+ MCPToolDef.Name tool.
Proof.
  intros (td & -> & Hin)%list_elem_of_fmap. unfold contribution in Hin.
  destruct (MCPServer.Connected e.2); [|inversion Hin]. split; [reflexivity|].
  apply elem_of_emitted in Hin as (tool & Ht & _ & ->). eauto.
Qed.

(** C7, as the code has it.  In a registry that stores every server under its
    own name, where each server's advertised tool names are distinct and no
    connected server's name holds ["__"] or ends in ["_"], the names of
    [GetAllTools()] are pairwise distinct, and the split [Execute] makes at
    the first ["__"] of an emitted name gives back the server and the
    original tool name. *)
Theorem catalog_names_unique (m : MCPManager) :
  keyed m ->
  (forall k s, Servers m !! k = Some s -> NoDup (MCPToolDef.Name <$> MCPServer.Tools s)) ->
  (forall k s, Servers m !! k = Some s -> MCPServer.Connected s = true ->
               routable (MCPServer.Name s) = true) ->
  NoDup (MCPToolDef.Name <$> GetAllTools m) /\
  (forall td, td ∈ GetAllTools m ->
     exists s tool,
       Servers m !! MCPServer.Name s = Some s /\ MCPServer.Connected s = true /\
       tool ∈ MCPServer.Tools s /\
       MCPToolDef.Name td = MCPServer.Name s +:+ "__" +:+ MCPToolDef.Name tool /\
       Execute_route td = Some (MCPServer.Name s, MCPToolDef.Name tool)).
Proof.
  intros Hk Htools Hroute. split.
  - rewrite names_bind. apply NoDup_bind.
    + intros [k1 s1] [k2 s2] y H1 H2 Hy1 Hy2.
      apply elem_of_map_to_list in H1, H2.
      apply contribution_name in Hy1 as (Hc1 & t1 & _ & E1).
      apply contribution_name in Hy2 as (Hc2 & t2 & _ & E2). cbn [snd] in *.
      pose proof (Hroute _ _ H1 Hc1) as R1%negb_true_iff.
      pose proof (Hroute _ _ H2 Hc2) as R2%negb_true_iff.
      pose proof (strings.Cut_sep2_app _ (MCPToolDef.Name t1) R1) as C1.
      pose proof (strings.Cut_sep2_app _ (MCPToolDef.Name t2) R2) as C2.
      rewrite <- E1 in C1. rewrite <- E2, C1 in C2. injection C2 as En _.
      pose proof (Hk _ _ H1) as K1. pose proof (Hk _ _ H2) as K2.
      assert (k1 = k2) as -> by congruence.
      rewrite H1 in H2. congruence.
    + intros [k s] Hin%elem_of_map_to_list. unfold contribution. cbn.
      destruct (MCPServer.Connected s); [|constructor].
      apply NoDup_emitted_names. eauto.
    + apply NoDup_map_to_list.
  - intros td (k & s & tool & Hl & Hc & Hin & _ & ->)%elem_of_GetAllTools.
    exists s, tool. pose proof (Hk _ _ Hl) as Ek. subst k.
    repeat split; try assumption.
    apply route_prefixed. eauto.
Qed.

(** The stored entry of a connected server added from [config]. *)
Definition entry (name : string) (deny : list string) (tl : list MCPToolDef.t)
    : string * MCPServer.t :=
  (name, MCPServer.mk name "echo" [] ∅ "" ∅ true tl [] [] [] deny).

Lemma fs_db_entries :
  map_to_list (Servers fs_db) =
  [entry "fs" [] [tool_ "read_file"; tool_ "write_file"];
   entry "db" ["drop"] [tool_ "read_file"; tool_ "drop"]].
Proof. vm_compute. reflexivity. Qed.

Lemma a_ab_entries :
  map_to_list (Servers a_ab) = [entry "a__b" [] [tool_ "c"]; entry "a" [] [tool_ "b__c"]].
Proof. vm_compute. reflexivity. Qed.

Lemma keyed_fs_db : keyed fs_db.
Proof.
  unfold fs_db. do 2 apply keyed_withTools. do 2 apply keyed_AddServer.
  apply keyed_NewManager.
Qed.

Lemma keyed_a_ab : keyed a_ab.
Proof.
  unfold a_ab. do 2 apply keyed_withTools. do 2 apply keyed_AddServer.
  apply keyed_NewManager.
Qed.

Lemma catalog_names_unique_witness :
  NoDup (MCPToolDef.Name <$> GetAllTools fs_db) /\
  (forall td, td ∈ GetAllTools fs_db ->
     exists s tool,
       Servers fs_db !! MCPServer.Name s = Some s /\ MCPServer.Connected s = true /\
       tool ∈ MCPServer.Tools s /\
       MCPToolDef.Name td = MCPServer.Name s +:+ "__" +:+ MCPToolDef.Name tool /\
       Execute_route td = Some (MCPServer.Name s, MCPToolDef.Name tool)).
Proof.
  apply (catalog_names_unique fs_db).
  - apply keyed_fs_db.
  - intros k s H%elem_of_map_to_list. rewrite fs_db_entries in H.
    repeat (apply elem_of_cons in H as [[= -> ->]|H]; [cbn; nodup_strings|]). inversion H.
  - intros k s H%elem_of_map_to_list _. rewrite fs_db_entries in H.
    repeat (apply elem_of_cons in H as [[= -> ->]|H]; [reflexivity|]). inversion H.
Defined.

Lemma catalog_tools_allowed_witness :
  (exists k s tool,
     Servers fs_db !! k = Some s /\ MCPServer.Connected s = true /\
     tool ∈ MCPServer.Tools s /\
     passes (MCPServer.ToolAllowList s) (MCPServer.ToolDenyList s) (MCPToolDef.Name tool) /\
     MCPToolDef.Name (tool_ "db__read_file") = MCPServer.Name s +:+ "__" +:+ MCPToolDef.Name tool) /\
  (exists k s tool,
     Servers fs_db !! k = Some s /\ MCPServer.Connected s = true /\
     passes (MCPServer.WorkspaceAllowList s) (MCPServer.WorkspaceDenyList s) "home" /\
     tool ∈ MCPServer.Tools s /\
     passes (MCPServer.ToolAllowList s) (MCPServer.ToolDenyList s) (MCPToolDef.Name tool) /\
     MCPToolDef.Name (tool_ "db__read_file") = MCPServer.Name s +:+ "__" +:+ MCPToolDef.Name tool).
Proof.
  split.
  - apply (proj1 (catalog_tools_allowed fs_db "home" (tool_ "db__read_file"))).
    apply list_elem_of_In. vm_compute. right; right; left; reflexivity.
  - apply (proj2 (catalog_tools_allowed fs_db "home" (tool_ "db__read_file"))).
    apply list_elem_of_In. vm_compute. right; right; left; reflexivity.
Defined.

(** C7 as stated fails: every server of [a_ab] is stored under its own name
    and advertises distinct tool names, yet the catalog holds ["a__b__c"]
    twice, and [Execute] routes the tool [c] of server [a__b] to a tool
    [b__c] of server [a]. *)
Lemma catalog_names_clash :
  (keyed a_ab /\
   forall k s, Servers a_ab !! k = Some s -> NoDup (MCPToolDef.Name <$> MCPServer.Tools s)) /\
  MCPToolDef.Name <$> GetAllTools a_ab = ["a__b__c"; "a__b__c"] /\
  ~ NoDup (MCPToolDef.Name <$> GetAllTools a_ab) /\
  Execute_route <$> GetAllTools a_ab = [Some ("a", "b__c"); Some ("a", "b__c")].
Proof.
  split; [split|].
  - apply keyed_a_ab.
  - intros k s H%elem_of_map_to_list. rewrite a_ab_entries in H.
    repeat (apply elem_of_cons in H as [[= -> ->]|H]; [cbn; nodup_strings|]). inversion H.
  - assert (MCPToolDef.Name <$> GetAllTools a_ab = ["a__b__c"; "a__b__c"]) as E
      by (vm_compute; reflexivity).
    split; [exact E|]. split; [|vm_compute; reflexivity].
    rewrite E. intros H. apply NoDup_cons in H as [H _]. apply H. left.
Qed.

(** *** [MCPTool.Execute] *)

(** [ToolResult], as far as [Execute] fills it. *)
Record ToolResult : Type := { ForLLM : string; Err : option string }.

(** The bytes [strings.TrimSpace] takes for space on its ASCII path:
    tab, newline, vertical tab, form feed, carriage return and space. *)
Definition asciiSpace (c : ascii) : bool :=
  let n := N_of_ascii c in
  ((9 <=? n) && (n <=? 13))%N || (n =? 32)%N.

Section Execute.

(** [strings.TrimFunc(s, unicode.IsSpace)] and [strings.TrimRightFunc], which
    [strings.TrimSpace] hands over to at the first byte outside ASCII. *)
Variable trimFunc : string -> string.
Variable trimRightFunc : string -> string.

(** The second loop of [TrimSpace], on the reversed bytes of [s[start:]]. *)
Fixpoint trimSpaceRight (reversed : list ascii) : string :=
  match reversed with
  | [] => EmptyString
  | c :: rest =>
      if (128 <=? N_of_ascii c)%N then trimRightFunc (string_of_list_ascii (rev reversed))
      else if asciiSpace c then trimSpaceRight rest
      else string_of_list_ascii (rev reversed)
  end.

(** [strings.TrimSpace]. *)
Fixpoint TrimSpace (s : string) : string :=
  match s with
  | EmptyString => EmptyString
  | String c s' =>
      if (128 <=? N_of_ascii c)%N then trimFunc s
      else if asciiSpace c then TrimSpace s'
      else trimSpaceRight (rev (list_ascii_of_string s))
  end.

(** The loop that writes every text content and a newline to the builder. *)
Fixpoint joinText (contents : list ToolContent) : string :=
  match contents with
  | [] => EmptyString
  | c :: rest =>
      if String.eqb (Type_ c) "text" then Text c +:+ (String "010"%char EmptyString) +:+ joinText rest
      else joinText rest
  end.

Definition Execute (manager : MCPManager) (toolDef : MCPToolDef.t) : ToolResult :=
  match strings.SplitN2 (MCPToolDef.Name toolDef) "__" with
  | [serverName; origToolName] =>
      match CallTool manager serverName origToolName with
      | inr err => {| ForLLM := ""; Err := Some err |}
      | inl res =>
          let content := TrimSpace (joinText (Content res)) in
          if IsError res then {| ForLLM := ""; Err := Some ("MCP tool error: " +:+ content) |}
          else {| ForLLM := content; Err := None |}
      end
  | _ => {| ForLLM := ""; Err := Some "invalid MCP tool name format" |}
  end.

(** X6. Every tool of the catalog can be executed: in a registry that stores
    each server under its own name and whose connected servers have names
    without ["__"] and not ending in ["_"], [Execute] on a definition of
    [GetAllTools()] reaches its server and answers the tool's text, trimmed,
    with no error; a name without the separator is refused before any call,
    and a name routed to no registered server gives the registry's "not
    found". *)
Theorem Execute_catalog (m : MCPManager) :
  keyed m ->
  (forall k s, Servers m !! k = Some s -> MCPServer.Connected s = true ->
               routable (MCPServer.Name s) = true) ->
  (forall td, td ∈ GetAllTools m ->
     Execute m td = {| ForLLM := "MCP tool result"; Err := None |}) /\
  (forall td, strings.Contains (MCPToolDef.Name td) "__" = false ->
     Execute m td = {| ForLLM := ""; Err := Some "invalid MCP tool name format" |}) /\
  (forall td serverName toolName,
     strings.Cut (MCPToolDef.Name td) "__" = Some (serverName, toolName) ->
     Servers m !! serverName = None ->
     Execute m td = {| ForLLM := ""; Err := Some ("server " +:+ serverName +:+ " not found") |}).
Proof.
  intros Hk Hroute. split; [|split].
  - intros td (k & s & tool & Hl & Hc & Hin & _ & ->)%elem_of_GetAllTools.
    pose proof (Hk _ _ Hl) as Ek. subst k.
    pose proof (route_prefixed s tool (Hroute _ _ Hl Hc)) as R.
    unfold Execute_route in R. unfold Execute.
    destruct (strings.SplitN2 (MCPToolDef.Name (prefixed s tool)) "__")
      as [|a [|b [|? ?]]]; try discriminate.
    injection R as -> ->. unfold CallTool. rewrite Hl, Hc. reflexivity.
  - intros td H. unfold Execute, strings.SplitN2, strings.Contains in *.
    destruct (strings.Cut (MCPToolDef.Name td) "__"); [discriminate | reflexivity].
  - intros td serverName toolName Hc Hl. unfold Execute, strings.SplitN2.
    rewrite Hc. unfold CallTool. now rewrite Hl.
Qed.

End Execute.

Lemma Execute_catalog_witness :
  (forall td, td ∈ GetAllTools fs_db ->
     Execute strings.asciiLower strings.asciiLower fs_db td
     = {| ForLLM := "MCP tool result"; Err := None |}) /\
  Execute strings.asciiLower strings.asciiLower fs_db (tool_ "read_file")
  = {| ForLLM := ""; Err := Some "invalid MCP tool name format" |}.
Proof.
  assert (H : forall k s, Servers fs_db !! k = Some s -> MCPServer.Connected s = true ->
                          routable (MCPServer.Name s) = true).
  { intros k s H%elem_of_map_to_list _. rewrite fs_db_entries in H.
    repeat (apply elem_of_cons in H as [[= -> ->]|H]; [reflexivity|]). inversion H. }
  destruct (Execute_catalog strings.asciiLower strings.asciiLower fs_db keyed_fs_db H)
    as (H1 & H2 & _).
  split; [exact H1 | apply H2; reflexivity].
Defined.

End tools.

(** ** Package [mailbox]: the in-memory mailbox *)
Module mailbox.

Record Message : Type := {
  ID : string;
  From : string;
  To : string;
  Content : string;
  Read : bool;
  Timestamp : Z
}.

Definition markRead (msg : Message) : Message :=
  {| ID := ID msg; From := From msg; To := To msg; Content := Content msg;
     Read := true; Timestamp := Timestamp msg |}.

Record MemoryStore : Type := { messages : gmap string Message }.

Definition NewMemoryStore : MemoryStore := {| messages := ∅ |}.

(** [SendMessage]; the fresh [uuid.New()] and the clock reading are inputs. *)
Definition SendMessage (s : MemoryStore) (id : string) (now : Z) (from to content : string)
    : MemoryStore * string :=
  let msg := {| ID := id; From := from; To := to; Content := content;
                Read := false; Timestamp := now |} in
  ({| messages := <[id := msg]> (messages s) |}, id).

(** [ListMessages]: the range loop with its two nested tests. *)
Definition ListMessages (s : MemoryStore) (user : string) : list Message :=
  foldl (fun result entry =>
           let msg := entry.2 in
           if String.eqb (To msg) user || String.eqb (From msg) user then
             if String.eqb (To msg) user then result ++ [msg] else result
           else result)
        [] (map_to_list (messages s)).

(** [ReadMessage]: [inr] is the error text. *)
Definition ReadMessage (s : MemoryStore) (user msgID : string)
    : (MemoryStore * Message) + string :=
  match messages s !! msgID with
  | None => inr "message not found"
  | Some msg =>
      if negb (String.eqb (To msg) user) then inr "unauthorized"
      else inl ({| messages := <[msgID := markRead msg]> (messages s) |}, markRead msg)
  end.

(** The store of the package's test after its three sends. *)
Definition family : MemoryStore :=
  (SendMessage
     (SendMessage
        (SendMessage NewMemoryStore "id-1" 100 "dad" "kid" "Clean your room").1
        "id-2" 200 "kid" "dad" "Done!").1
     "id-3" 300 "mom" "kid" "Hi").1.

Lemma ListMessages_filter s user :
  ListMessages s user =
  filter (fun msg => To msg = user) ((map_to_list (messages s)).*2).
Proof.
  unfold ListMessages. generalize (map_to_list (messages s)) as l.
  enough (forall l acc,
    foldl (fun result (entry : string * Message) =>
             let msg := entry.2 in
             if String.eqb (To msg) user || String.eqb (From msg) user then
               if String.eqb (To msg) user then result ++ [msg] else result
             else result) acc l
    = acc ++ filter (fun msg => To msg = user) (l.*2)) as H by (intros l; apply (H l [])).
  induction l as [|[k msg] l IH]; intros acc; cbn [foldl].
  - cbn. now rewrite app_nil_r.
  - rewrite IH, fmap_cons, filter_cons. cbn [snd].
    destruct (String.eqb_spec (To msg) user) as [E|E]; cbn [orb].
    + rewrite decide_True by exact E. now rewrite <- app_assoc.
    + rewrite decide_False by exact E. now destruct (String.eqb (From msg) user).
Qed.

(** C9. [ListMessages(user)] holds a message exactly when it is stored and
    addressed to [user]; it is the stored messages filtered by [To == user],
    so a stored message that [user] sent to someone else is not in it. *)
Theorem ListMessages_inbox (s : MemoryStore) (user : string) :
  ListMessages s user = filter (fun msg => To msg = user) ((map_to_list (messages s)).*2) /\
  (forall msg, msg ∈ ListMessages s user <->
               (exists id, messages s !! id = Some msg) /\ To msg = user) /\
  (forall msg, From msg = user /\ To msg <> user -> msg ∉ ListMessages s user).
Proof.
  pose proof (ListMessages_filter s user) as E.
  assert (forall msg, msg ∈ ListMessages s user <->
            (exists id, messages s !! id = Some msg) /\ To msg = user) as M.
  { intros msg. rewrite E, list_elem_of_filter, list_elem_of_fmap. split.
    - intros [Hto ([id m] & -> & Hin%elem_of_map_to_list)]. eauto.
    - intros [[id Hl] Hto]. split; [exact Hto|].
      exists (id, msg). split; [reflexivity | now apply elem_of_map_to_list]. }
  split; [exact E | split; [exact M|]].
  intros msg [_ Hne] [_ Hto]%M. contradiction.
Qed.

(** The inboxes of the test store (in the iteration order of this map). *)
Example ListMessages_family :
  Content <$> ListMessages family "kid" = ["Hi"; "Clean your room"] /\
  Content <$> ListMessages family "dad" = ["Done!"] /\
  ListMessages family "mom" = [].
Proof. vm_compute. auto. Qed.

Lemma ListMessages_inbox_witness :
  {| ID := "id-1"; From := "dad"; To := "kid"; Content := "Clean your room";
     Read := false; Timestamp := 100 |} ∈ ListMessages family "kid".
Proof.
  apply (proj1 (proj2 (ListMessages_inbox family "kid"))). split.
  - exists "id-1". vm_compute. reflexivity.
  - reflexivity.
Defined.

(** *** Sending and reading *)

Lemma ListMessages_perm s user l :
  map_to_list (messages s) ≡ₚ l ->
  ListMessages s user ≡ₚ filter (fun msg => To msg = user) (l.*2).
Proof. intros H. rewrite ListMessages_filter. now rewrite H. Qed.

(** X7. A message sent under a fresh id lands in the recipient's inbox and in
    no other: the inbox of [to] is the old one with the new unread message
    added, every other user's inbox (the sender's too, unless the sender
    wrote to themselves) holds the same messages as before, and the
    recipient can read the message under the id returned. *)
Theorem SendMessage_inbox (s : MemoryStore) (id : string) (now : Z)
    (from to content : string) :
  messages s !! id = None ->
  let sent := {| ID := id; From := from; To := to; Content := content;
                 Read := false; Timestamp := now |} in
  (SendMessage s id now from to content).2 = id /\
  ListMessages (SendMessage s id now from to content).1 to ≡ₚ sent :: ListMessages s to /\
  (forall user, user <> to ->
     ListMessages (SendMessage s id now from to content).1 user ≡ₚ ListMessages s user) /\
  ReadMessage (SendMessage s id now from to content).1 to id
  = inl ({| messages := <[id := markRead sent]> (messages s) |}, markRead sent).
Proof.
  intros Hfresh sent. split; [reflexivity|].
  pose proof (map_to_list_insert (messages s) id sent Hfresh) as Hp.
  assert (Hl : forall user,
    ListMessages (SendMessage s id now from to content).1 user ≡ₚ
    filter (fun msg => To msg = user) (sent :: (map_to_list (messages s)).*2)).
  { intros user. apply (ListMessages_perm _ user ((id, sent) :: map_to_list (messages s))).
    exact Hp. }
  split; [|split].
  - rewrite Hl, filter_cons, decide_True by reflexivity. now rewrite ListMessages_filter.
  - intros user Hne. rewrite Hl, filter_cons, decide_False by (cbn; congruence).
    now rewrite ListMessages_filter.
  - unfold ReadMessage, SendMessage. cbn [fst messages]. rewrite lookup_insert_eq.
    cbn [To]. rewrite String.eqb_refl. cbn [negb]. now rewrite insert_insert_eq.
Qed.

Lemma SendMessage_inbox_witness :
  (SendMessage NewMemoryStore "id-1" 100 "dad" "kid" "Clean your room").2 = "id-1" /\
  ListMessages (SendMessage NewMemoryStore "id-1" 100 "dad" "kid" "Clean your room").1 "kid"
    ≡ₚ {| ID := "id-1"; From := "dad"; To := "kid"; Content := "Clean your room";
          Read := false; Timestamp := 100 |} :: ListMessages NewMemoryStore "kid".
Proof.
  pose proof (SendMessage_inbox NewMemoryStore "id-1" 100 "dad" "kid" "Clean your room"
                (lookup_empty _)) as (H1 & H2 & _).
  split; [exact H1 | exact H2].
Defined.

(** X8. [ReadMessage] answers "message not found" for an id that is not
    stored and "unauthorized" to anyone but the recipient, the sender
    included; for the recipient it returns the message marked read, stores
    it so, leaves every other message as it was, shows the read mark in the
    recipient's inbox, and reading again changes nothing more. *)
Theorem ReadMessage_recipient (s : MemoryStore) (user msgID : string) :
  (messages s !! msgID = None -> ReadMessage s user msgID = inr "message not found") /\
  (forall msg, messages s !! msgID = Some msg -> To msg <> user ->
               ReadMessage s user msgID = inr "unauthorized") /\
  (forall msg, messages s !! msgID = Some msg -> To msg = user ->
     exists s',
       ReadMessage s user msgID = inl (s', markRead msg) /\
       Read (markRead msg) = true /\
       messages s' !! msgID = Some (markRead msg) /\
       (forall k, k <> msgID -> messages s' !! k = messages s !! k) /\
       markRead msg ∈ ListMessages s' user /\
       ReadMessage s' user msgID = inl (s', markRead msg)).
Proof.
  unfold ReadMessage. split; [|split].
  - now intros ->.
  - intros msg -> Hne. destruct (String.eqb_spec (To msg) user); [contradiction | reflexivity].
  - intros msg Hl Hto. rewrite Hl. apply String.eqb_eq in Hto as Hb. rewrite Hb. cbn [negb].
    eexists. split; [reflexivity|]. split; [reflexivity|]. cbn [messages].
    split; [apply lookup_insert_eq|]. split; [intros k Hk; now apply lookup_insert_ne|].
    split.
    + rewrite ListMessages_filter. apply list_elem_of_filter. split; [exact Hto|].
      apply list_elem_of_fmap. exists (msgID, markRead msg). split; [reflexivity|].
      apply elem_of_map_to_list. cbn [messages]. apply lookup_insert_eq.
    + rewrite lookup_insert_eq. cbn [To markRead]. rewrite Hb. cbn [negb].
      rewrite insert_insert_eq. reflexivity.
Qed.

Lemma ReadMessage_recipient_witness :
  ReadMessage family "dad" "id-1" = inr "unauthorized" /\
  ReadMessage family "kid" "id-9" = inr "message not found".
Proof.
  destruct (ReadMessage_recipient family "dad" "id-1") as (_ & H2 & _).
  destruct (ReadMessage_recipient family "kid" "id-9") as (H1 & _).
  split.
  - apply (H2 {| ID := "id-1"; From := "dad"; To := "kid"; Content := "Clean your room";
                 Read := false; Timestamp := 100 |}).
    + vm_compute. reflexivity.
    + discriminate.
  - apply H1. vm_compute. reflexivity.
Defined.

End mailbox.

(** ** Package [safety]: the keyword filter *)
Module safety.

Definition LevelOff : string := "off".
Definition LevelLow : string := "low".
Definition LevelMedium : string := "medium".
Definition LevelHigh : string := "high".

Definition adultKeywords : list string :=
  ["violence"; "weapons"; "drugs"; "alcohol"; "tobacco";
   "gambling"; "hate"; "discrimination"; "self-harm";
   "explicit"; "pornography"; "sexual"].

Definition mediumBlockKeywords : list string :=
  ["suicide"; "murder"; "kill"; "attack"; "bomb";
   "hack"; "steal"; "fraud"; "scam"].

Definition teenOnlyTopics : list string :=
  ["dating"; "romance"; "sex"; "politics"; "religion"].

Definition sensitiveTopics : list string :=
  ["dating"; "romance"; "sex"; "politics"; "religion"; "death"; "grief"].

Definition ambiguousPhrases : list string :=
  ["in my opinion"; "some people believe"; "it depends";
   "you should ask"; "talk to your parents"; "consult an adult"].

Record Filter : Type := { level : string; birthYear : Z }.

Definition NewFilter (level : string) (birthYear : Z) : Filter :=
  {| level := if String.eqb level "" then LevelOff else level; birthYear := birthYear |}.

(** Go's [int] is 64 bits wide here; a difference wraps around. *)
Definition wrap64 (z : Z) : Z := (z + 2 ^ 63) mod 2 ^ 64 - 2 ^ 63.

(** [time.Now().Year() - f.birthYear], the clock's year being [year]. *)
Definition age (year : Z) (f : Filter) : Z := wrap64 (year - birthYear f).

Definition isYoungUser (year : Z) (f : Filter) : bool :=
  if (birthYear f =? 0)%Z then false else (age year f <? 13)%Z.

Definition isTeenUser (year : Z) (f : Filter) : bool :=
  if (birthYear f =? 0)%Z then false
  else (13 <=? age year f)%Z && (age year f <? 18)%Z.

Definition shouldBlock (f : Filter) : bool := negb (String.eqb (level f) LevelOff).

Definition RequiresApproval (year : Z) (f : Filter) : bool :=
  String.eqb (level f) LevelHigh && isYoungUser year f.

Record CheckResult : Type := {
  Safe : bool;
  Blocked : bool;
  Rewrite : bool;
  NeedsApproval : bool;
  Reason : string;
  Original : string;
  Rewritten : string;
  BlockedMessage : string
}.

Section WithUnicode.

(** [strings.Map(unicode.ToLower, s)], which [strings.ToLower] falls back on
    for a string with a byte outside ASCII. *)
Variable mapToLower : string -> string.

#[local] Abbreviation ToLower := (strings.ToLower mapToLower).

Definition CheckContent (year : Z) (f : Filter) (content : string) : bool * string :=
  if negb (shouldBlock f) then (false, "")
  else
    let contentLower := ToLower content in
    if String.eqb (level f) LevelLow && strings.containsAny contentLower adultKeywords
    then (true, "content blocked by safety filter (low)")
    else if (String.eqb (level f) LevelMedium || String.eqb (level f) LevelHigh)
            && (strings.containsAny contentLower adultKeywords
                || strings.containsAny contentLower mediumBlockKeywords)
    then (true, "content blocked by safety filter (medium/high)")
    else if (String.eqb (level f) LevelHigh && isYoungUser year f)
            && strings.containsAny contentLower teenOnlyTopics
    then (true, "content requires parent approval (high safety for young user)")
    else (false, "").

Definition needsLLMCheck (response : string) : bool :=
  strings.containsAny (ToLower response) ambiguousPhrases.

Definition getBlockedMessage (year : Z) (f : Filter) (reason : string) : string :=
  if isYoungUser year f then
    "I can't share that information with you. Ask a parent or guardian if you'd like to know more about this topic."
  else "This content has been filtered for safety. Please try a different topic.".

Definition CheckResponse (year : Z) (f : Filter) (response : string) : CheckResult :=
  let result := {| Safe := true; Blocked := false; Rewrite := false; NeedsApproval := false;
                   Reason := ""; Original := response; Rewritten := "";
                   BlockedMessage := "" |} in
  if String.eqb (level f) LevelOff then result
  else
    let '(blocked, reason) := CheckContent year f response in
    if blocked then
      {| Safe := false; Blocked := true; Rewrite := false; NeedsApproval := false;
         Reason := reason; Original := response; Rewritten := "";
         BlockedMessage := getBlockedMessage year f reason |}
    else if (String.eqb (level f) LevelHigh && isYoungUser year f)
            && strings.containsAny (ToLower response) sensitiveTopics
    then
      {| Safe := true; Blocked := false; Rewrite := false; NeedsApproval := true;
         Reason := "Sensitive topic for young user - parent review recommended";
         Original := response; Rewritten := ""; BlockedMessage := "" |}
    else if (String.eqb (level f) LevelMedium || String.eqb (level f) LevelHigh)
            && needsLLMCheck response
    then
      {| Safe := true; Blocked := false; Rewrite := false; NeedsApproval := true;
         Reason := "Content may need review - using LLM safety check recommended";
         Original := response; Rewritten := ""; BlockedMessage := "" |}
    else result.

(** A keyword of the set occurs in the lower-cased text. *)
Definition hits (text : string) (kws : list string) : Prop :=
  exists kw, kw ∈ kws /\ strings.Contains (ToLower text) kw = true.

Lemma hits_containsAny text kws :
  strings.containsAny (ToLower text) kws = true <-> hits text kws.
Proof. apply strings.containsAny_exists. Qed.

Lemma hits_app text k1 k2 : hits text (k1 ++ k2) <-> hits text k1 \/ hits text k2.
Proof.
  unfold hits. split.
  - intros (kw & [H|H]%elem_of_app & Hc); [left | right]; eauto.
  - intros [(kw & H & Hc)|(kw & H & Hc)]; exists kw; rewrite elem_of_app; auto.
Qed.

(** With a birth year set (or any clock year from 13 on), [isYoungUser] is
    "age under 13". *)
Lemma isYoungUser_age year f :
  birthYear f <> 0%Z \/ (13 <= year < 2 ^ 63)%Z ->
  isYoungUser year f = (age year f <? 13)%Z.
Proof.
  unfold isYoungUser. destruct (Z.eqb_spec (birthYear f) 0) as [E|E]; [|reflexivity].
  intros [H|H]; [contradiction|]. unfold age. rewrite E, Z.sub_0_r.
  symmetry. apply Z.ltb_ge. unfold wrap64. rewrite Z.mod_small by lia. lia.
Qed.

(** The verdict of [CheckContent] as one boolean expression. *)
Lemma CheckContent_blocked year f text :
  (CheckContent year f text).1 =
  negb (String.eqb (level f) LevelOff) &&
  ((String.eqb (level f) LevelLow && strings.containsAny (ToLower text) adultKeywords)
   || ((String.eqb (level f) LevelMedium || String.eqb (level f) LevelHigh)
       && (strings.containsAny (ToLower text) adultKeywords
           || strings.containsAny (ToLower text) mediumBlockKeywords))
   || ((String.eqb (level f) LevelHigh && isYoungUser year f)
       && strings.containsAny (ToLower text) teenOnlyTopics)).
Proof.
  unfold CheckContent, shouldBlock.
  generalize (strings.containsAny (ToLower text) adultKeywords) as a.
  generalize (strings.containsAny (ToLower text) mediumBlockKeywords) as b.
  generalize (strings.containsAny (ToLower text) teenOnlyTopics) as c.
  intros c b a.
  destruct (String.eqb (level f) LevelOff), (String.eqb (level f) LevelLow),
    (String.eqb (level f) LevelMedium), (String.eqb (level f) LevelHigh),
    (isYoungUser year f), a, b, c; reflexivity.
Qed.

(** C4. [CheckContent] never blocks at level "off"; at "low" it blocks exactly
    the texts whose lower-cased form holds an adult keyword; at "medium" and
    "high" exactly those holding an adult or a dangerous keyword, and at
    "high" for a user of age under 13 (the clock's year minus the birth year)
    also those holding a teen-topic keyword. *)
Theorem CheckContent_levels (year : Z) (f : Filter) (text : string) :
  birthYear f <> 0%Z \/ (13 <= year < 2 ^ 63)%Z ->
  (level f = "off" -> (CheckContent year f text).1 = false) /\
  (level f = "low" ->
     ((CheckContent year f text).1 = true <-> hits text adultKeywords)) /\
  (level f = "medium" ->
     ((CheckContent year f text).1 = true <->
      hits text adultKeywords \/ hits text mediumBlockKeywords)) /\
  (level f = "high" ->
     ((CheckContent year f text).1 = true <->
      hits text adultKeywords \/ hits text mediumBlockKeywords \/
      ((age year f < 13)%Z /\ hits text teenOnlyTopics))).
Proof.
  intros Hclock. rewrite CheckContent_blocked, (isYoungUser_age _ _ Hclock).
  rewrite <- !hits_containsAny.
  generalize (strings.containsAny (ToLower text) adultKeywords) as a.
  generalize (strings.containsAny (ToLower text) mediumBlockKeywords) as b.
  generalize (strings.containsAny (ToLower text) teenOnlyTopics) as c.
  intros c b a. unfold LevelOff, LevelLow, LevelMedium, LevelHigh.
  rewrite <- Z.ltb_lt. generalize (age year f <? 13)%Z as y. intros y.
  split; [|split; [|split]]; intros ->; cbn;
    destruct a, b, c, y; cbn; intuition congruence.
Qed.

Lemma hits_sensitive text :
  hits text sensitiveTopics <-> hits text teenOnlyTopics \/ hits text ["death"; "grief"].
Proof. change sensitiveTopics with (teenOnlyTopics ++ ["death"; "grief"]). apply hits_app. Qed.

(** C5, as the code has it.  [CheckResponse] applies [CheckContent] first:
    when that blocks, the result has [Safe = false], [Blocked = true], a
    non-empty [BlockedMessage] and no approval flag.  At level "high" for a
    user of age under 13, a hit of the sensitive-topic set in a response that
    [CheckContent] does not block gives [NeedsApproval = true] with
    [Safe = true]; a hit of dating, romance, sex, politics or religion is
    blocked by [CheckContent] instead. *)
Theorem CheckResponse_flags (year : Z) (f : Filter) (text : string) :
  birthYear f <> 0%Z \/ (13 <= year < 2 ^ 63)%Z ->
  ((CheckContent year f text).1 = true ->
     Safe (CheckResponse year f text) = false /\
     Blocked (CheckResponse year f text) = true /\
     NeedsApproval (CheckResponse year f text) = false /\
     BlockedMessage (CheckResponse year f text) <> "") /\
  (level f = "high" -> (age year f < 13)%Z ->
     (CheckContent year f text).1 = false -> hits text sensitiveTopics ->
     NeedsApproval (CheckResponse year f text) = true /\
     Safe (CheckResponse year f text) = true /\
     Blocked (CheckResponse year f text) = false) /\
  (level f = "high" -> (age year f < 13)%Z -> hits text teenOnlyTopics ->
     (CheckContent year f text).1 = true).
Proof.
  intros Hclock. split; [|split].
  - intros Hb. pose proof Hb as Hb'. rewrite CheckContent_blocked in Hb'.
    apply andb_true_iff in Hb' as [Hoff%negb_true_iff _].
    unfold CheckResponse. rewrite Hoff.
    destruct (CheckContent year f text) as [blocked reason]. cbn in Hb. subst blocked.
    cbn. repeat split. unfold getBlockedMessage. destruct (isYoungUser year f); discriminate.
  - intros Hl Hage Hb Hs. unfold CheckResponse.
    destruct (CheckContent year f text) as [blocked reason]. cbn in Hb. subst blocked.
    rewrite (isYoungUser_age _ _ Hclock). apply Z.ltb_lt in Hage. rewrite Hage.
    apply hits_containsAny in Hs. rewrite Hs, Hl. cbn. auto.
  - intros Hl Hage Ht. rewrite CheckContent_blocked, (isYoungUser_age _ _ Hclock).
    apply Z.ltb_lt in Hage. apply hits_containsAny in Ht. rewrite Hl, Hage, Ht. cbn.
    now rewrite !orb_true_r.
Qed.

End WithUnicode.

Lemma ToLower_ascii mapToLower s :
  strings.isASCII s = true -> strings.ToLower mapToLower s = strings.asciiLower s.
Proof. unfold strings.ToLower. now intros ->. Qed.

(** A six-year-old at level "high" (the clock reads 2026). *)
Definition youngHigh : Filter := {| level := "high"; birthYear := 2020 |}.

Lemma CheckContent_levels_witness :
  (level youngHigh = "off" ->
     (CheckContent strings.asciiLower 2026 youngHigh "Tell me about DATING").1 = false) /\
  (level youngHigh = "low" ->
     ((CheckContent strings.asciiLower 2026 youngHigh "Tell me about DATING").1 = true <->
      hits strings.asciiLower "Tell me about DATING" adultKeywords)) /\
  (level youngHigh = "medium" ->
     ((CheckContent strings.asciiLower 2026 youngHigh "Tell me about DATING").1 = true <->
      hits strings.asciiLower "Tell me about DATING" adultKeywords \/
      hits strings.asciiLower "Tell me about DATING" mediumBlockKeywords)) /\
  (level youngHigh = "high" ->
     ((CheckContent strings.asciiLower 2026 youngHigh "Tell me about DATING").1 = true <->
      hits strings.asciiLower "Tell me about DATING" adultKeywords \/
      hits strings.asciiLower "Tell me about DATING" mediumBlockKeywords \/
      ((age 2026 youngHigh < 13)%Z /\
       hits strings.asciiLower "Tell me about DATING" teenOnlyTopics))).
Proof.
  apply (CheckContent_levels strings.asciiLower 2026 youngHigh "Tell me about DATING").
  left. discriminate.
Defined.

Lemma CheckResponse_flags_witness :
  ((CheckContent strings.asciiLower 2026 youngHigh "My grief").1 = true ->
     Safe (CheckResponse strings.asciiLower 2026 youngHigh "My grief") = false /\
     Blocked (CheckResponse strings.asciiLower 2026 youngHigh "My grief") = true /\
     NeedsApproval (CheckResponse strings.asciiLower 2026 youngHigh "My grief") = false /\
     BlockedMessage (CheckResponse strings.asciiLower 2026 youngHigh "My grief") <> "") /\
  (NeedsApproval (CheckResponse strings.asciiLower 2026 youngHigh "My grief") = true /\
   Safe (CheckResponse strings.asciiLower 2026 youngHigh "My grief") = true /\
   Blocked (CheckResponse strings.asciiLower 2026 youngHigh "My grief") = false).
Proof.
  assert (birthYear youngHigh <> 0%Z \/ (13 <= 2026 < 2 ^ 63)%Z) as Hclock
    by (left; discriminate).
  pose proof (CheckResponse_flags strings.asciiLower 2026 youngHigh "My grief" Hclock)
    as (H1 & H2 & _).
  split; [exact H1|]. apply H2.
  - reflexivity.
  - vm_compute. reflexivity.
  - vm_compute. reflexivity.
  - apply hits_containsAny. vm_compute. reflexivity.
Defined.

(** C5 as stated fails: for the six-year-old at level "high" the response
    "dating" hits the sensitive-topic set, yet the result is blocked, not
    safe, and carries no approval flag. *)
Lemma CheckResponse_dating_blocked :
  (level youngHigh = "high" /\ (age 2026 youngHigh < 13)%Z /\
   strings.containsAny (strings.ToLower strings.asciiLower "dating") sensitiveTopics = true) /\
  Safe (CheckResponse strings.asciiLower 2026 youngHigh "dating") = false /\
  Blocked (CheckResponse strings.asciiLower 2026 youngHigh "dating") = true /\
  NeedsApproval (CheckResponse strings.asciiLower 2026 youngHigh "dating") = false.
Proof. vm_compute. repeat split; reflexivity. Qed.

(** *** Levels, results and prompts *)

(** [strings.Join(parts, sep)]. *)
Fixpoint Join (parts : list string) (sep : string) : string :=
  match parts with
  | [] => EmptyString
  | [part] => part
  | part :: rest => part +:+ sep +:+ Join rest sep
  end.

Definition newline : string := String "010"%char EmptyString.

(** [fmt.Sprintf("%d", n)]. *)
Definition formatInt (n : Z) : string := NilZero.string_of_int (Z.to_int n).

Definition bornLine (year : Z) (f : Filter) : string :=
  "The user was born in " +:+ formatInt (birthYear f) +:+ " (approximately " +:+
  formatInt (age year f) +:+ " years old).".

(** [GetSystemPrompt]; the clock's year is [year]. *)
Definition GetSystemPrompt (year : Z) (f : Filter) : string :=
  let parts :=
    (if (0 <? birthYear f)%Z then
       bornLine year f ::
       (if isYoungUser year f then
          ["IMPORTANT: This is a young child. Use simple vocabulary, short sentences, and age-appropriate examples."]
        else if isTeenUser year f then
          ["IMPORTANT: This is a teenager. Be helpful but mindful of age-appropriate content."]
        else [])
     else [])
    ++ (if negb (String.eqb (level f) LevelOff)
        then ["Safety filter level: " +:+ level f] else []) in
  if (0 <? Z.of_nat (length parts))%Z then "## Safety Context" +:+ newline +:+ Join parts newline
  else "".

(** [GenerateContextPrompt]. *)
Definition GenerateContextPrompt (year : Z) (f : Filter) : string :=
  let parts :=
    (if (0 <? birthYear f)%Z then
       bornLine year f ::
       (if isYoungUser year f then
          ["Use simple vocabulary and age-appropriate examples. Avoid mature topics."]
        else if isTeenUser year f then
          ["Adjust communication style for a teenager. Be helpful but appropriate."]
        else [])
     else [])
    ++ (if negb (String.eqb (level f) LevelOff) then
          ("Safety level: " +:+ level f) ::
          (if String.eqb (level f) LevelLow then
             ["Apply light content filtering. Block obviously harmful content."]
           else if String.eqb (level f) LevelMedium then
             ["Apply moderate content filtering. Redirect inappropriate topics appropriately."]
           else if String.eqb (level f) LevelHigh then
             (if isYoungUser year f then
                ["Apply strict filtering. For sensitive topics, suggest involving a parent or guardian."]
              else ["Apply strict content filtering."])
           else [])
        else []) in
  if (Z.of_nat (length parts) =? 0)%Z then ""
  else newline +:+ "# User Context" +:+ newline +:+ Join parts newline.

Lemma Contains_middle a x c : strings.Contains (a +:+ x +:+ c) x = true.
Proof.
  unfold strings.Contains. induction a as [|ch a IH].
  - change ("" +:+ x +:+ c) with (x +:+ c).
    destruct (x +:+ c) as [|d rest] eqn:E; cbn [strings.Cut];
      rewrite <- E, strings.CutPrefix_app; reflexivity.
  - rewrite strings.app_cons. cbn [strings.Cut].
    destruct (strings.CutPrefix (String ch (a +:+ x +:+ c)) x); [reflexivity|].
    destruct (strings.Cut (a +:+ x +:+ c) x) as [[? ?]|]; [reflexivity | discriminate].
Qed.

Lemma Contains_body h n a x c :
  strings.Contains (h +:+ n +:+ (a +:+ x +:+ c)) x = true.
Proof.
  replace (h +:+ n +:+ (a +:+ x +:+ c)) with (((h +:+ n) +:+ a) +:+ x +:+ c)
    by (now rewrite !strings.app_assoc_s).
  apply Contains_middle.
Qed.

Lemma app_empty_r (a : string) : a +:+ "" = a.
Proof. induction a as [|c a IH]; [reflexivity | rewrite strings.app_cons; now f_equal]. Qed.

Lemma Join_contains parts sep x :
  x ∈ parts -> exists a c, Join parts sep = a +:+ x +:+ c.
Proof.
  induction parts as [|p [|q rest] IH].
  - intros H. inversion H.
  - intros ->%list_elem_of_singleton. exists "", "". cbn [Join].
    now rewrite app_empty_r.
  - intros [->|H]%elem_of_cons.
    + exists "", (sep +:+ Join (q :: rest) sep). reflexivity.
    + destruct (IH H) as (a & c & E). exists (p +:+ sep +:+ a), c.
      change (Join (p :: q :: rest) sep) with (p +:+ sep +:+ Join (q :: rest) sep).
      rewrite E, !strings.app_assoc_s. reflexivity.
Qed.

Section WithUnicodeMore.

Variable mapToLower : string -> string.

(** X9. The levels are ordered: what [CheckContent] blocks at "low" it
    blocks at "medium", and what it blocks at "medium" it blocks at "high",
    for the same text, birth year and clock. *)
Theorem CheckContent_monotone (year birth : Z) (text : string) :
  ((CheckContent mapToLower year {| level := "low"; birthYear := birth |} text).1 = true ->
   (CheckContent mapToLower year {| level := "medium"; birthYear := birth |} text).1 = true) /\
  ((CheckContent mapToLower year {| level := "medium"; birthYear := birth |} text).1 = true ->
   (CheckContent mapToLower year {| level := "high"; birthYear := birth |} text).1 = true).
Proof.
  rewrite !CheckContent_blocked. unfold isYoungUser, age. cbn [level birthYear].
  generalize (strings.containsAny (strings.ToLower mapToLower text) adultKeywords) as a.
  generalize (strings.containsAny (strings.ToLower mapToLower text) mediumBlockKeywords) as b.
  generalize (strings.containsAny (strings.ToLower mapToLower text) teenOnlyTopics) as c.
  generalize (if (birth =? 0)%Z then false else (wrap64 (year - birth) <? 13)%Z) as y.
  intros y c b a. unfold LevelOff, LevelLow, LevelMedium, LevelHigh. cbn.
  destruct a, b, c, y; cbn; auto.
Qed.

(** X10. A level that is none of "off", "low", "medium", "high" (a
    misspelling, another case) filters nothing: [CheckContent] never blocks
    and [CheckResponse] passes every response as safe, with no flag and no
    message, whatever the text and the age. *)
Theorem unknown_level_passes (year : Z) (f : Filter) (text : string) :
  level f <> "off" -> level f <> "low" -> level f <> "medium" -> level f <> "high" ->
  CheckContent mapToLower year f text = (false, "") /\
  CheckResponse mapToLower year f text =
    {| Safe := true; Blocked := false; Rewrite := false; NeedsApproval := false;
       Reason := ""; Original := text; Rewritten := ""; BlockedMessage := "" |}.
Proof.
  intros Ho Hl Hm Hh.
  apply String.eqb_neq in Ho, Hl, Hm, Hh.
  assert (Hc : CheckContent mapToLower year f text = (false, "")).
  { unfold CheckContent, shouldBlock, LevelOff, LevelLow, LevelMedium, LevelHigh.
    rewrite Ho, Hl, Hm, Hh. reflexivity. }
  split; [exact Hc|].
  unfold CheckResponse. rewrite Hc.
  unfold LevelOff, LevelLow, LevelMedium, LevelHigh. rewrite Ho, Hm, Hh. reflexivity.
Qed.

(** X11. What every result of [CheckResponse] keeps: the original text, no
    rewriting, [Safe] exactly when not [Blocked], [Blocked] exactly when
    [CheckContent] blocks, a message exactly for a blocked response, never
    both blocked and flagged for approval, and a flag for approval only at
    level "medium" or "high". *)
Theorem CheckResponse_invariants (year : Z) (f : Filter) (text : string) :
  Original (CheckResponse mapToLower year f text) = text /\
  Rewrite (CheckResponse mapToLower year f text) = false /\
  Rewritten (CheckResponse mapToLower year f text) = "" /\
  Safe (CheckResponse mapToLower year f text)
    = negb (Blocked (CheckResponse mapToLower year f text)) /\
  Blocked (CheckResponse mapToLower year f text) = (CheckContent mapToLower year f text).1 /\
  (BlockedMessage (CheckResponse mapToLower year f text) = "" <->
   Blocked (CheckResponse mapToLower year f text) = false) /\
  (Blocked (CheckResponse mapToLower year f text) = true ->
   NeedsApproval (CheckResponse mapToLower year f text) = false) /\
  (NeedsApproval (CheckResponse mapToLower year f text) = true ->
   level f = "medium" \/ level f = "high").
Proof.
  pose proof (CheckContent_blocked mapToLower year f text) as Hb.
  unfold CheckResponse, getBlockedMessage.
  destruct (CheckContent mapToLower year f text) as [blocked reason]. cbn [fst] in Hb.
  unfold LevelOff, LevelMedium, LevelHigh in *.
  destruct (String.eqb_spec (level f) "off") as [Eo|Eo].
  - cbn [negb andb] in Hb. subst blocked. cbn. repeat split; auto; discriminate.
  - destruct blocked.
    + cbn. destruct (isYoungUser year f); repeat split; auto; discriminate.
    + destruct (String.eqb_spec (level f) "medium") as [Em|Em],
               (String.eqb_spec (level f) "high") as [Eh|Eh];
        cbn [orb andb];
        destruct (isYoungUser year f);
        destruct (strings.containsAny (strings.ToLower mapToLower text) sensitiveTopics);
        destruct (needsLLMCheck mapToLower text);
        cbn; repeat split; auto; discriminate.
Qed.

End WithUnicodeMore.

(** X12. The two prompts are empty exactly when no positive birth year is
    set and the level is "off"; otherwise they open with their heading, and
    whenever the level is not "off" [GetSystemPrompt] states it. *)
Theorem prompts_empty (year : Z) (f : Filter) :
  (GetSystemPrompt year f = "" <-> (birthYear f <= 0)%Z /\ level f = "off") /\
  (GenerateContextPrompt year f = "" <-> (birthYear f <= 0)%Z /\ level f = "off") /\
  (level f <> "off" ->
   strings.Contains (GetSystemPrompt year f) ("Safety filter level: " +:+ level f) = true) /\
  ((0 < birthYear f)%Z -> strings.Contains (GetSystemPrompt year f) (bornLine year f) = true).
Proof.
  unfold GetSystemPrompt, GenerateContextPrompt, LevelOff. cbv zeta.
  destruct (Z.ltb_spec 0 (birthYear f)) as [Hb|Hb];
    destruct (String.eqb_spec (level f) "off") as [Eo|Eo]; cbn [negb].
  - split; [|split; [|split]].
    + rewrite app_nil_r. cbn [length]. split; [|intros [? _]; lia].
      replace (0 <? Z.of_nat _)%Z with true by (symmetry; apply Z.ltb_lt; lia). discriminate.
    + rewrite app_nil_r. cbn [length]. split; [|intros [? _]; lia].
      replace (Z.of_nat _ =? 0)%Z with false by (symmetry; apply Z.eqb_neq; lia). discriminate.
    + contradiction.
    + intros _. rewrite app_nil_r. cbn [length].
      replace (0 <? Z.of_nat _)%Z with true by (symmetry; apply Z.ltb_lt; lia).
      destruct (Join_contains
                  (bornLine year f ::
                   (if isYoungUser year f
                    then ["IMPORTANT: This is a young child. Use simple vocabulary, short sentences, and age-appropriate examples."]
                    else if isTeenUser year f
                         then ["IMPORTANT: This is a teenager. Be helpful but mindful of age-appropriate content."]
                         else [])) newline (bornLine year f)) as (a & c & E); [left|].
      rewrite E. apply Contains_body.
  - split; [|split; [|split]].
    + split; [|intros [? _]; lia]. rewrite length_app. cbn [length].
      replace (0 <? Z.of_nat _)%Z with true by (symmetry; apply Z.ltb_lt; lia). discriminate.
    + split; [|intros [? _]; lia]. rewrite length_app. cbn [length].
      replace (Z.of_nat _ =? 0)%Z with false by (symmetry; apply Z.eqb_neq; lia). discriminate.
    + intros _. rewrite length_app. cbn [length].
      replace (0 <? Z.of_nat _)%Z with true by (symmetry; apply Z.ltb_lt; lia).
      match goal with |- context [Join ?l newline] =>
        destruct (Join_contains l newline ("Safety filter level: " +:+ level f))
          as (a & c & E); [apply elem_of_app; right; left|] end.
      rewrite E. apply Contains_body.
    + intros _. rewrite length_app. cbn [length].
      replace (0 <? Z.of_nat _)%Z with true by (symmetry; apply Z.ltb_lt; lia).
      match goal with |- context [Join ?l newline] =>
        destruct (Join_contains l newline (bornLine year f))
          as (a & c & E); [apply elem_of_app; left; left|] end.
      rewrite E. apply Contains_body.
  - cbn. split; [|split; [|split]]; [tauto | tauto | contradiction | intros; lia].
  - split; [|split; [|split]].
    + cbn. split; [discriminate | intros [_ ?]; contradiction].
    + cbn [app length]. split; [|intros [_ ?]; contradiction].
      replace (Z.of_nat _ =? 0)%Z with false by (symmetry; apply Z.eqb_neq; lia). discriminate.
    + intros _. cbn [app length Join].
      change (0 <? Z.of_nat 1)%Z with true. cbv iota.
      pose proof (Contains_body "## Safety Context" newline ""
                    ("Safety filter level: " +:+ level f) "") as H.
      rewrite app_empty_r in H. exact H.
    + intros; lia.
Qed.

Lemma unknown_level_passes_witness :
  CheckContent strings.asciiLower 2026 {| level := "High"; birthYear := 2020 |}
    "how to make a bomb" = (false, "") /\
  CheckResponse strings.asciiLower 2026 {| level := "High"; birthYear := 2020 |}
    "how to make a bomb" =
    {| Safe := true; Blocked := false; Rewrite := false; NeedsApproval := false;
       Reason := ""; Original := "how to make a bomb"; Rewritten := "";
       BlockedMessage := "" |}.
Proof.
  apply (unknown_level_passes strings.asciiLower 2026
           {| level := "High"; birthYear := 2020 |} "how to make a bomb");
    discriminate.
Defined.

End safety.

(** ** Package [providers]: the schedule provider *)
Module providers.

#[local] Open Scope Z_scope.

(** [config.ScheduleHours], [config.ScheduleRule] and [config.ScheduleConfig],
    with the fields [matchRule] and [resolveProvider] read. *)
Record ScheduleHours : Type := { Start : string; End_ : string }.

Record ScheduleRule : Type := {
  Days : list string;
  Hours : option ScheduleHours;
  Provider : string;
  Model : string
}.

Record ScheduleDefault : Type := { DefaultProvider : string; DefaultModel : string }.

Record ScheduleConfig : Type := { Default : ScheduleDefault; Rules : list ScheduleRule }.

(** [time.Weekday]. *)
Inductive Weekday : Type :=
| Sunday | Monday | Tuesday | Wednesday | Thursday | Friday | Saturday.

(** [strings.ToLower(t.Weekday().String()[:3])]. *)
Definition weekdayName (d : Weekday) : string :=
  match d with
  | Sunday => "sun" | Monday => "mon" | Tuesday => "tue" | Wednesday => "wed"
  | Thursday => "thu" | Friday => "fri" | Saturday => "sat"
  end.

(** What [matchRule] reads of [t.In(p.location)]. *)
Record Time : Type := { Weekday_ : Weekday; Hour : Z; Minute : Z }.

(** [time.Parse("15:04", value)] as package [time] runs it: [getnum] reads
    one or two digits of the hour and exactly two of the minute, the hour
    is below 24, the minute below 60, and no text is left over. *)
Definition isDigit (s : string) (i : nat) : bool :=
  match String.get i s with
  | Some c => (48 <=? Z.of_N (N_of_ascii c)) && (Z.of_N (N_of_ascii c) <=? 57)
  | None => false
  end.

Definition digit (c : ascii) : Z := Z.of_N (N_of_ascii c) - 48.

Definition getnum (s : string) (fixed : bool) : option (Z * string) :=
  if negb (isDigit s 0) then None
  else if negb (isDigit s 1) then
    if fixed then None
    else match s with
         | String c0 rest => Some (digit c0, rest)
         | EmptyString => None
         end
  else match s with
       | String c0 (String c1 rest) => Some (digit c0 * 10 + digit c1, rest)
       | _ => None
       end.

Definition Parse_15_04 (value : string) : option (Z * Z) :=
  match getnum value false with
  | None => None
  | Some (hour, value) =>
      if (hour <? 0) || (24 <=? hour) then None
      else match value with
           | String ":" value =>
               match getnum value true with
               | None => None
               | Some (min, value) =>
                   if (min <? 0) || (60 <=? min) then None
                   else match value with
                        | EmptyString => Some (hour, min)
                        | String _ _ => None
                        end
               end
           | _ => None
           end
  end.

Section WithUnicode.

Variable mapToLower : string -> string.

(** The loop over [rule.Days] that sets [dayMatch]. *)
Fixpoint dayMatch (days : list string) (weekday : string) : bool :=
  match days with
  | [] => false
  | d :: days' =>
      let d := strings.ToLower mapToLower d in
      if String.eqb d weekday then true
      else if String.eqb d "weekday" && negb (String.eqb weekday "sat")
              && negb (String.eqb weekday "sun") then true
      else if String.eqb d "weekend"
              && (String.eqb weekday "sat" || String.eqb weekday "sun") then true
      else dayMatch days' weekday
  end.

(** The hours test of one rule: [false] is the loop's [continue]. *)
Definition hoursMatch (hours : ScheduleHours) (t : Time) : bool :=
  let nowMins := Hour t * 60 + Minute t in
  match Parse_15_04 (Start hours) with
  | None => false
  | Some (startHour, startMinute) =>
      match Parse_15_04 (End_ hours) with
      | None => false
      | Some (endHour, endMinute) =>
          let startMins := startHour * 60 + startMinute in
          let endMins := endHour * 60 + endMinute in
          if startMins <=? endMins then
            if (nowMins <? startMins) || (endMins <=? nowMins) then false else true
          else
            if (nowMins <? startMins) && (endMins <=? nowMins) then false else true
      end
  end.

(** The body of the loop for one rule: does it reach [return &rule, true]? *)
Definition ruleBody (rule : ScheduleRule) (t : Time) : bool :=
  let weekday := weekdayName (Weekday_ t) in
  if (0 <? Z.of_nat (length (Days rule))) && negb (dayMatch (Days rule) weekday) then false
  else match Hours rule with
       | Some hours => hoursMatch hours t
       | None => true
       end.

Fixpoint matchRules (rules : list ScheduleRule) (t : Time) : option ScheduleRule :=
  match rules with
  | [] => None
  | rule :: rules' => if ruleBody rule t then Some rule else matchRules rules' t
  end.

Definition matchRule (schedule : ScheduleConfig) (t : Time) : option ScheduleRule :=
  matchRules (Rules schedule) t.

(** The head of [resolveProvider]: the provider type and model it goes on
    to resolve. *)
Definition resolveTarget (schedule : ScheduleConfig) (t : Time) : string * string :=
  match matchRule schedule t with
  | Some rule => (Provider rule, Model rule)
  | None => (DefaultProvider (Default schedule), DefaultModel (Default schedule))
  end.

(** The rule in words.  A day entry covers a weekday when it is its name,
    or the alias "weekday" on Monday to Friday, or "weekend" on Saturday and
    Sunday (entries are compared lower-cased). *)
Definition isWeekend (d : Weekday) : Prop := d = Saturday \/ d = Sunday.

Definition dayCovers (entry : string) (d : Weekday) : Prop :=
  let e := strings.ToLower mapToLower entry in
  e = weekdayName d \/ (e = "weekday" /\ ~ isWeekend d) \/ (e = "weekend" /\ isWeekend d).

Definition daysOK (rule : ScheduleRule) (t : Time) : Prop :=
  Days rule = [] \/ exists entry, entry ∈ Days rule /\ dayCovers entry (Weekday_ t).

(** Minutes of the day [now] inside the span from [start] to [end_]. *)
Definition inSpan (start end_ now : Z) : Prop :=
  (start <= end_ -> start <= now < end_) /\
  (start > end_ -> now >= start \/ now < end_).

Definition hoursOK (rule : ScheduleRule) (t : Time) : Prop :=
  Hours rule = None \/
  exists hours sh sm eh em,
    Hours rule = Some hours /\
    Parse_15_04 (Start hours) = Some (sh, sm) /\
    Parse_15_04 (End_ hours) = Some (eh, em) /\
    inSpan (sh * 60 + sm) (eh * 60 + em) (Hour t * 60 + Minute t).

Definition ruleOK (rule : ScheduleRule) (t : Time) : Prop := daysOK rule t /\ hoursOK rule t.

Lemma weekdayName_sat d : String.eqb (weekdayName d) "sat" = true <-> d = Saturday.
Proof. destruct d; cbn; split; congruence. Qed.

Lemma weekdayName_sun d : String.eqb (weekdayName d) "sun" = true <-> d = Sunday.
Proof. destruct d; cbn; split; congruence. Qed.

Lemma weekend_eqb d :
  String.eqb (weekdayName d) "sat" || String.eqb (weekdayName d) "sun" = true <-> isWeekend d.
Proof. rewrite orb_true_iff, weekdayName_sat, weekdayName_sun. reflexivity. Qed.

Lemma dayMatch_spec days d :
  dayMatch days (weekdayName d) = true <->
  exists entry, entry ∈ days /\ dayCovers entry d.
Proof.
  induction days as [|e days IH]; cbn [dayMatch].
  - split; [discriminate | intros (x & H & _); inversion H].
  - assert (dayCovers e d <->
            (String.eqb (strings.ToLower mapToLower e) (weekdayName d) = true \/
             (String.eqb (strings.ToLower mapToLower e) "weekday"
              && negb (String.eqb (weekdayName d) "sat")
              && negb (String.eqb (weekdayName d) "sun") = true) \/
             (String.eqb (strings.ToLower mapToLower e) "weekend"
              && (String.eqb (weekdayName d) "sat" || String.eqb (weekdayName d) "sun")
              = true))) as Hc.
    { unfold dayCovers. cbv zeta.
      rewrite !andb_true_iff, !negb_true_iff, !String.eqb_eq, weekend_eqb.
      rewrite <- !not_true_iff_false, weekdayName_sat, weekdayName_sun.
      unfold isWeekend. tauto. }
    destruct (String.eqb (strings.ToLower mapToLower e) (weekdayName d)) eqn:E1.
    { split; [intros _; exists e; split; [left | apply Hc; auto] | reflexivity]. }
    destruct (String.eqb (strings.ToLower mapToLower e) "weekday"
              && negb (String.eqb (weekdayName d) "sat")
              && negb (String.eqb (weekdayName d) "sun")) eqn:E2.
    { split; [intros _; exists e; split; [left | apply Hc; auto] | reflexivity]. }
    destruct (String.eqb (strings.ToLower mapToLower e) "weekend"
              && (String.eqb (weekdayName d) "sat" || String.eqb (weekdayName d) "sun")) eqn:E3.
    { split; [intros _; exists e; split; [left | apply Hc; auto] | reflexivity]. }
    rewrite IH. split.
    + intros (x & Hx & Hcov). exists x. split; [now right | exact Hcov].
    + intros (x & Hx & Hcov). apply elem_of_cons in Hx as [->|Hx]; [|eauto].
      apply Hc in Hcov. intuition congruence.
Qed.

Lemma inSpan_test start end_ now :
  (if start <=? end_
   then if (now <? start) || (end_ <=? now) then false else true
   else if (now <? start) && (end_ <=? now) then false else true) = true
  <-> inSpan start end_ now.
Proof.
  unfold inSpan.
  destruct (Z.leb_spec start end_), (Z.ltb_spec now start), (Z.leb_spec end_ now);
    cbn; split; try discriminate; try reflexivity; intros; lia.
Qed.

Lemma hoursMatch_spec hours t :
  hoursMatch hours t = true <->
  exists sh sm eh em,
    Parse_15_04 (Start hours) = Some (sh, sm) /\
    Parse_15_04 (End_ hours) = Some (eh, em) /\
    inSpan (sh * 60 + sm) (eh * 60 + em) (Hour t * 60 + Minute t).
Proof.
  unfold hoursMatch.
  destruct (Parse_15_04 (Start hours)) as [[sh sm]|];
    [|split; [discriminate | intros (? & ? & ? & ? & ? & _); discriminate]].
  destruct (Parse_15_04 (End_ hours)) as [[eh em]|];
    [|split; [discriminate | intros (? & ? & ? & ? & _ & ? & _); discriminate]].
  cbv zeta. rewrite inSpan_test. split.
  - intros H. exists sh, sm, eh, em. auto.
  - intros (? & ? & ? & ? & [= <- <-] & [= <- <-] & H). exact H.
Qed.

Lemma ruleBody_spec rule t : ruleBody rule t = true <-> ruleOK rule t.
Proof.
  unfold ruleBody, ruleOK, daysOK, hoursOK. cbv zeta.
  assert (Hd : (0 <? Z.of_nat (length (Days rule))) && negb (dayMatch (Days rule) (weekdayName (Weekday_ t))) = false
               <-> (Days rule = [] \/ exists entry, entry ∈ Days rule /\ dayCovers entry (Weekday_ t))).
  { rewrite <- dayMatch_spec. destruct (Days rule) as [|e l].
    - cbn. split; auto.
    - replace (0 <? Z.of_nat (length (e :: l))) with true
        by (symmetry; apply Z.ltb_lt; cbn [length]; lia).
      cbn [andb]. rewrite negb_false_iff. split; [auto | intros [?|?]; [discriminate | assumption]]. }
  destruct ((0 <? Z.of_nat (length (Days rule))) && negb (dayMatch (Days rule) (weekdayName (Weekday_ t)))) eqn:E.
  - split; [discriminate|]. intros [H _]. apply Hd in H. discriminate.
  - destruct (Hours rule) as [hours|].
    + rewrite hoursMatch_spec. split.
      * intros (sh & sm & eh & em & H). split; [now apply Hd|]. right.
        exists hours, sh, sm, eh, em. tauto.
      * intros [_ [?|(h & sh & sm & eh & em & [= <-] & H)]]; [discriminate|].
        exists sh, sm, eh, em. exact H.
    + split; [intros _; split; [now apply Hd | now left] | reflexivity].
Qed.

Lemma matchRules_Some rules t rule :
  matchRules rules t = Some rule <->
  exists pre post, rules = pre ++ rule :: post /\ ruleOK rule t /\
                   forall r, r ∈ pre -> ~ ruleOK r t.
Proof.
  induction rules as [|r0 rules IH]; cbn [matchRules].
  - split; [discriminate | intros ([|? ?] & ? & ? & _); discriminate].
  - destruct (ruleBody r0 t) eqn:E.
    + split.
      * intros [= <-]. exists [], rules. apply ruleBody_spec in E.
        split; [reflexivity | split; [exact E | intros r Hr; inversion Hr]].
      * intros ([|p pre] & post & Heq & Hok & Hpre).
        -- now injection Heq as <- _.
        -- injection Heq as <- _. exfalso. apply (Hpre r0); [left | now apply ruleBody_spec].
    + rewrite IH. split.
      * intros (pre & post & -> & Hok & Hpre). exists (r0 :: pre), post.
        split; [reflexivity | split; [exact Hok|]].
        intros r [->|Hr]%elem_of_cons; [|auto].
        rewrite <- ruleBody_spec. congruence.
      * intros ([|p pre] & post & Heq & Hok & Hpre).
        -- injection Heq as <- _. apply ruleBody_spec in Hok. congruence.
        -- injection Heq as <- ->. exists pre, post.
           split; [reflexivity | split; [exact Hok|]].
           intros r Hr. apply Hpre. now right.
Qed.

Lemma matchRules_None rules t :
  matchRules rules t = None <-> forall r, r ∈ rules -> ~ ruleOK r t.
Proof.
  induction rules as [|r0 rules IH]; cbn [matchRules].
  - split; [intros _ r Hr; inversion Hr | reflexivity].
  - destruct (ruleBody r0 t) eqn:E.
    + split; [discriminate|]. intros H. exfalso. apply (H r0); [left | now apply ruleBody_spec].
    + rewrite IH. split.
      * intros H r [->|Hr]%elem_of_cons; [|auto]. rewrite <- ruleBody_spec. congruence.
      * intros H r Hr. apply H. now right.
Qed.

(** C3. [matchRule(t)] is the first rule, in configured order, whose day
    list is empty or covers the weekday of [t] (with the aliases "weekday"
    and "weekend") and whose hours are absent or span [t]'s minute of the
    day ([start <= t < end], or overnight [t >= start] or [t < end]); with
    no such rule it reports no match and the schedule's default provider and
    model are taken. *)
Theorem matchRule_first (schedule : ScheduleConfig) (t : Time) :
  (forall rule,
     matchRule schedule t = Some rule <->
     exists pre post,
       Rules schedule = pre ++ rule :: post /\ ruleOK rule t /\
       forall r, r ∈ pre -> ~ ruleOK r t) /\
  (matchRule schedule t = None <-> forall r, r ∈ Rules schedule -> ~ ruleOK r t) /\
  (forall rule, matchRule schedule t = Some rule ->
                resolveTarget schedule t = (Provider rule, Model rule)) /\
  (matchRule schedule t = None ->
   resolveTarget schedule t =
   (DefaultProvider (Default schedule), DefaultModel (Default schedule))).
Proof.
  split; [|split; [|split]].
  - intros rule. apply matchRules_Some.
  - apply matchRules_None.
  - intros rule H. unfold resolveTarget. now rewrite H.
  - intros H. unfold resolveTarget. now rewrite H.
Qed.

End WithUnicode.

(** The rows of [TestScheduleProvider_MatchRule] and of the spec's scenarios. *)
Definition rule (days : list string) (hours : option ScheduleHours) (p m : string)
    : ScheduleRule :=
  {| Days := days; Hours := hours; Provider := p; Model := m |}.

Definition office : ScheduleConfig :=
  {| Default := {| DefaultProvider := "p1"; DefaultModel := "m1" |};
     Rules := [rule ["weekday"] (Some {| Start := "09:00"; End_ := "17:00" |}) "p2" "m2";
               rule [] (Some {| Start := "22:00"; End_ := "06:00" |}) "p3" "m3"] |}.

Example office_hours :
  resolveTarget strings.asciiLower office {| Weekday_ := Monday; Hour := 10; Minute := 0 |}
    = ("p2", "m2") /\
  resolveTarget strings.asciiLower office {| Weekday_ := Saturday; Hour := 10; Minute := 0 |}
    = ("p1", "m1") /\
  resolveTarget strings.asciiLower office {| Weekday_ := Tuesday; Hour := 5; Minute := 0 |}
    = ("p3", "m3") /\
  resolveTarget strings.asciiLower office {| Weekday_ := Monday; Hour := 17; Minute := 0 |}
    = ("p1", "m1") /\
  resolveTarget strings.asciiLower office {| Weekday_ := Sunday; Hour := 23; Minute := 30 |}
    = ("p3", "m3").
Proof. vm_compute. repeat split. Qed.

Example Parse_15_04_rows :
  Parse_15_04 "09:00" = Some (9, 0) /\ Parse_15_04 "9:05" = Some (9, 5) /\
  Parse_15_04 "24:00" = None /\ Parse_15_04 "9:5" = None /\
  Parse_15_04 "12:60" = None /\ Parse_15_04 "12:30pm" = None /\ Parse_15_04 "" = None.
Proof. vm_compute. repeat split. Qed.

Lemma matchRule_first_witness :
  resolveTarget strings.asciiLower office {| Weekday_ := Monday; Hour := 10; Minute := 0 |}
  = ("p2", "m2").
Proof.
  apply (proj1 (proj2 (proj2 (matchRule_first strings.asciiLower office
                                {| Weekday_ := Monday; Hour := 10; Minute := 0 |})))
           (rule ["weekday"] (Some {| Start := "09:00"; End_ := "17:00" |}) "p2" "m2")).
  vm_compute. reflexivity.
Defined.

(** *** Rules that always, never, or alternately match *)

Section Rules.

Variable mapToLower : string -> string.

(** X13. A rule with no days and no hours matches at every time: from such a
    rule on the schedule is never consulted further, so [matchRule] always
    finds a rule, one at or before it, and the default is never used. *)
Theorem catch_all_rule (schedule : ScheduleConfig) (pre post : list ScheduleRule)
    (r : ScheduleRule) (t : Time) :
  Rules schedule = pre ++ r :: post ->
  Days r = [] -> Hours r = None ->
  exists chosen,
    matchRule mapToLower schedule t = Some chosen /\
    chosen ∈ pre ++ [r] /\
    resolveTarget mapToLower schedule t = (Provider chosen, Model chosen).
Proof.
  intros HR Hd Hh. unfold resolveTarget, matchRule. rewrite HR.
  assert (Hr : ruleBody mapToLower r t = true) by (unfold ruleBody; now rewrite Hd, Hh).
  clear HR. induction pre as [|p pre IH]; cbn [app matchRules].
  - rewrite Hr. exists r. split; [reflexivity | split; [left | reflexivity]].
  - destruct (ruleBody mapToLower p t).
    + exists p. split; [reflexivity | split; [left | reflexivity]].
    + destruct IH as (chosen & Hm & Hin & Ht). exists chosen.
      split; [exact Hm | split; [now right | exact Ht]].
Qed.

(** X14. A rule whose hours do not parse as "15:04" (an hour of 24, a
    one-digit minute, text after the minute), or whose start and end are the
    same minute, is never chosen, at any time and in any schedule. *)
Theorem dead_hours_rule (rule : ScheduleRule) (hours : ScheduleHours)
    (schedule : ScheduleConfig) (t : Time) :
  Hours rule = Some hours ->
  Parse_15_04 (Start hours) = None \/ Parse_15_04 (End_ hours) = None \/
  (exists sh sm eh em, Parse_15_04 (Start hours) = Some (sh, sm) /\
                       Parse_15_04 (End_ hours) = Some (eh, em) /\
                       sh * 60 + sm = eh * 60 + em) ->
  matchRule mapToLower schedule t <> Some rule.
Proof.
  intros Hh Hdead Hm. unfold matchRule in Hm.
  apply matchRules_Some in Hm as (pre & post & _ & [_ Hok] & _).
  destruct Hok as [Hn|(h & sh & sm & eh & em & Hh' & Hs & He & Hspan)]; [congruence|].
  rewrite Hh in Hh'. injection Hh' as <-.
  destruct Hdead as [Hd|[Hd|(sh' & sm' & eh' & em' & Hs' & He' & Heq)]]; try congruence.
  rewrite Hs in Hs'. rewrite He in He'. injection Hs' as <- <-. injection He' as <- <-.
  destruct Hspan as [Hspan _]. lia.
Qed.

(** X15. Two spans with the bounds swapped split the day between them: when
    both bounds parse and differ, the hours "a to b" match a time exactly
    when the hours "b to a" do not. *)
Theorem swapped_hours_complement (a b : string) (t : Time) (ah am bh bm : Z) :
  Parse_15_04 a = Some (ah, am) -> Parse_15_04 b = Some (bh, bm) ->
  ah * 60 + am <> bh * 60 + bm ->
  hoursMatch {| Start := a; End_ := b |} t
  = negb (hoursMatch {| Start := b; End_ := a |} t).
Proof.
  intros Ha Hb Hne. unfold hoursMatch. cbn [Start End_]. rewrite Ha, Hb. cbv zeta.
  destruct (Z.leb_spec (ah * 60 + am) (bh * 60 + bm)),
           (Z.leb_spec (bh * 60 + bm) (ah * 60 + am)),
           (Z.ltb_spec (Hour t * 60 + Minute t) (ah * 60 + am)),
           (Z.ltb_spec (Hour t * 60 + Minute t) (bh * 60 + bm)),
           (Z.leb_spec (ah * 60 + am) (Hour t * 60 + Minute t)),
           (Z.leb_spec (bh * 60 + bm) (Hour t * 60 + Minute t));
    cbn; try reflexivity; lia.
Qed.

End Rules.

Lemma catch_all_rule_witness :
  exists chosen,
    matchRule strings.asciiLower
      {| Default := {| DefaultProvider := "p1"; DefaultModel := "m1" |};
         Rules := [rule ["weekend"] None "p2" "m2"; rule [] None "p3" "m3";
                   rule ["mon"] None "p4" "m4"] |}
      {| Weekday_ := Monday; Hour := 10; Minute := 0 |} = Some chosen /\
    chosen ∈ [rule ["weekend"] None "p2" "m2"] ++ [rule [] None "p3" "m3"] /\
    resolveTarget strings.asciiLower
      {| Default := {| DefaultProvider := "p1"; DefaultModel := "m1" |};
         Rules := [rule ["weekend"] None "p2" "m2"; rule [] None "p3" "m3";
                   rule ["mon"] None "p4" "m4"] |}
      {| Weekday_ := Monday; Hour := 10; Minute := 0 |} = (Provider chosen, Model chosen).
Proof.
  apply (catch_all_rule strings.asciiLower _ [rule ["weekend"] None "p2" "m2"]
           [rule ["mon"] None "p4" "m4"] (rule [] None "p3" "m3"));
    reflexivity.
Defined.

Lemma dead_hours_rule_witness :
  matchRule strings.asciiLower
    {| Default := {| DefaultProvider := "p1"; DefaultModel := "m1" |};
       Rules := [rule [] (Some {| Start := "00:00"; End_ := "24:00" |}) "p2" "m2"] |}
    {| Weekday_ := Monday; Hour := 10; Minute := 0 |}
  <> Some (rule [] (Some {| Start := "00:00"; End_ := "24:00" |}) "p2" "m2") /\
  Parse_15_04 "24:00" = None.
Proof.
  split; [|reflexivity].
  apply (dead_hours_rule strings.asciiLower _ {| Start := "00:00"; End_ := "24:00" |}).
  - reflexivity.
  - right. left. reflexivity.
Defined.

Lemma swapped_hours_complement_witness :
  hoursMatch {| Start := "09:00"; End_ := "17:00" |}
             {| Weekday_ := Monday; Hour := 20; Minute := 15 |}
  = negb (hoursMatch {| Start := "17:00"; End_ := "09:00" |}
                     {| Weekday_ := Monday; Hour := 20; Minute := 15 |}).
Proof.
  apply (swapped_hours_complement "09:00" "17:00" _ 9 0 17 0);
    [reflexivity | reflexivity | discriminate].
Defined.

(** *** [resolveProvider] and the methods on it *)

(** What the schedule provider uses of an [LLMProvider]: its default model
    and, when it has the method, its id. *)
Record LLMProvider : Type := { defaultModel : string; providerID : option string }.

Section Resolve.

Variable mapToLower : string -> string.

(** [CreateProvider(cfgClone)], for the clone of the configuration whose
    default model name and provider are set to the two arguments: the
    provider (possibly nil) and the resolved model id, or an error. *)
Variable CreateProvider : string -> string -> (option LLMProvider * string) + string.

Definition resolveProvider (schedule : ScheduleConfig) (t : Time)
    : (option LLMProvider * string) + string :=
  let '(providerType, model) := resolveTarget mapToLower schedule t in
  if strings.HasPrefix providerType "schedule"
  then inr "recursive schedule provider not allowed"
  else
    let targetModelName := if String.eqb model "" then providerType else model in
    CreateProvider targetModelName providerType.

(** [Chat] up to the call it makes: the provider and the model it passes on,
    the error of [resolveProvider], or the panic of a method call on a nil
    provider, which [Chat] does not test for. *)
Inductive ChatOutcome : Type :=
| ChatCalls (provider : LLMProvider) (model : string)
| ChatError (err : string)
| ChatPanics.

Definition Chat_target (schedule : ScheduleConfig) (now : Time) (model : string)
    : ChatOutcome :=
  match resolveProvider schedule now with
  | inr err => ChatError err
  | inl (None, _) => ChatPanics
  | inl (Some provider, ruleModel) =>
      let targetModel := if negb (String.eqb ruleModel "") then ruleModel else model in
      let targetModel :=
        if String.eqb targetModel "" then defaultModel provider else targetModel in
      ChatCalls provider targetModel
  end.

Definition GetID (schedule : ScheduleConfig) (now : Time) : string :=
  match resolveProvider schedule now with
  | inl (Some provider, _) =>
      match providerID provider with
      | Some id => id
      | None => "schedule"
      end
  | _ => "schedule:" +:+ DefaultProvider (Default schedule)
  end.

Definition GetDefaultModel (schedule : ScheduleConfig) (now : Time) : string :=
  match resolveProvider schedule now with
  | inl (Some provider, model) =>
      if negb (String.eqb model "") then model else defaultModel provider
  | _ => "schedule-error"
  end.

(** X16. A schedule that resolves to a provider type beginning with
    "schedule" at the current time is refused as recursive without
    [CreateProvider] being asked: [Chat] fails with that error, while
    [GetDefaultModel] answers "schedule-error" and [GetID] the default's
    "schedule:<provider>"; at any other time [CreateProvider] is asked for
    the rule's model, or for the provider type when the model is empty. *)
Theorem resolveProvider_recursive (schedule : ScheduleConfig) (now : Time) (model : string) :
  (strings.HasPrefix (resolveTarget mapToLower schedule now).1 "schedule" = true ->
   resolveProvider schedule now = inr "recursive schedule provider not allowed" /\
   Chat_target schedule now model = ChatError "recursive schedule provider not allowed" /\
   GetDefaultModel schedule now = "schedule-error" /\
   GetID schedule now = "schedule:" +:+ DefaultProvider (Default schedule)) /\
  (strings.HasPrefix (resolveTarget mapToLower schedule now).1 "schedule" = false ->
   resolveProvider schedule now =
   CreateProvider
     (if String.eqb (resolveTarget mapToLower schedule now).2 ""
      then (resolveTarget mapToLower schedule now).1
      else (resolveTarget mapToLower schedule now).2)
     (resolveTarget mapToLower schedule now).1).
Proof.
  unfold Chat_target, GetDefaultModel, GetID, resolveProvider.
  destruct (resolveTarget mapToLower schedule now) as [providerType ruleModel]. cbn [fst snd].
  split; intros ->; auto.
Qed.

End Resolve.

End providers.

(** ** [crypto/md5] and [github.com/google/uuid]

    [ArchiveSession] names its points by [uuid.NewMD5]; the digest is RFC
    1321 over bytes, words of 32 bits as [Z] with the wrap-around written
    out. *)
Module md5.

#[local] Open Scope Z_scope.

Definition add32 (a b : Z) : Z := (a + b) mod 2 ^ 32.

Definition not32 (a : Z) : Z := Z.lxor a 4294967295.

Definition rotl32 (x c : Z) : Z :=
  Z.lor (Z.shiftl x c mod 2 ^ 32) (Z.shiftr x (32 - c)).

(** [floor(2^32 * abs(sin(i + 1)))] for [i] from 0 to 63. *)
Definition K : list Z :=
  [
   3614090360; 3905402710; 606105819; 3250441966;
   4118548399; 1200080426; 2821735955; 4249261313;
   1770035416; 2336552879; 4294925233; 2304563134;
   1804603682; 4254626195; 2792965006; 1236535329;
   4129170786; 3225465664; 643717713; 3921069994;
   3593408605; 38016083; 3634488961; 3889429448;
   568446438; 3275163606; 4107603335; 1163531501;
   2850285829; 4243563512; 1735328473; 2368359562;
   4294588738; 2272392833; 1839030562; 4259657740;
   2763975236; 1272893353; 4139469664; 3200236656;
   681279174; 3936430074; 3572445317; 76029189;
   3654602809; 3873151461; 530742520; 3299628645;
   4096336452; 1126891415; 2878612391; 4237533241;
   1700485571; 2399980690; 4293915773; 2240044497;
   1873313359; 4264355552; 2734768916; 1309151649;
   4149444226; 3174756917; 718787259; 3951481745].

Definition shifts : list Z :=
  [7; 12; 17; 22; 7; 12; 17; 22; 7; 12; 17; 22; 7; 12; 17; 22;
   5; 9; 14; 20; 5; 9; 14; 20; 5; 9; 14; 20; 5; 9; 14; 20;
   4; 11; 16; 23; 4; 11; 16; 23; 4; 11; 16; 23; 4; 11; 16; 23;
   6; 10; 15; 21; 6; 10; 15; 21; 6; 10; 15; 21; 6; 10; 15; 21].

Definition state : Type := Z * Z * Z * Z.

(** Operation [i] of a block's 64, on the block's 16 words [M]. *)
Definition step (M : list Z) (st : state) (i : nat) : state :=
  let '(A, B, C, D) := st in
  let '(F, g) :=
    if (i <? 16)%nat then (Z.lor (Z.land B C) (Z.land (not32 B) D), i)
    else if (i <? 32)%nat then (Z.lor (Z.land D B) (Z.land (not32 D) C), (5 * i + 1) mod 16)%nat
    else if (i <? 48)%nat then (Z.lxor (Z.lxor B C) D, (3 * i + 5) mod 16)%nat
    else (Z.lxor C (Z.lor B (not32 D)), (7 * i) mod 16)%nat in
  let F := add32 (add32 (add32 F A) (nth i K 0)) (nth g M 0) in
  (D, add32 B (rotl32 F (nth i shifts 0)), B, C).

Definition block (st : state) (M : list Z) : state :=
  let '(a0, b0, c0, d0) := st in
  let '(A, B, C, D) := fold_left (step M) (seq 0 64) st in
  (add32 a0 A, add32 b0 B, add32 c0 C, add32 d0 D).

(** Little-endian bytes of a word, and words of bytes. *)
Definition bytesLE (n : nat) (w : Z) : list Z :=
  (fun k => Z.shiftr w (8 * Z.of_nat k) mod 256) <$> seq 0 n.

Fixpoint words (bytes : list Z) : list Z :=
  match bytes with
  | b0 :: b1 :: b2 :: b3 :: rest =>
      (b0 + 256 * b1 + 65536 * b2 + 16777216 * b3) :: words rest
  | _ => []
  end.

Fixpoint blocks (n : nat) (ws : list Z) : list (list Z) :=
  match n with
  | O => []
  | S n' => take 16 ws :: blocks n' (drop 16 ws)
  end.

Definition pad (msg : list Z) : list Z :=
  let n := Z.of_nat (length msg) in
  msg ++ [128] ++ repeat 0 (Z.to_nat ((55 - n) mod 64)) ++ bytesLE 8 ((8 * n) mod 2 ^ 64).

(** [md5.Sum(msg)]: the 16 bytes of the digest. *)
Definition Sum (msg : list Z) : list Z :=
  let padded := pad msg in
  let '(a, b, c, d) :=
    fold_left block (blocks (length padded / 64) (words padded))
              (1732584193, 4023233417, 2562383102, 271733878) in
  bytesLE 4 a ++ bytesLE 4 b ++ bytesLE 4 c ++ bytesLE 4 d.

Definition bytesOf (s : string) : list Z :=
  (fun c => Z.of_N (N_of_ascii c)) <$> list_ascii_of_string s.

(** [hex.EncodeToString]. *)
Definition hexDigit (n : Z) : ascii :=
  nth (Z.to_nat n) (list_ascii_of_string "0123456789abcdef") "0"%char.

Fixpoint hex (bytes : list Z) : string :=
  match bytes with
  | [] => EmptyString
  | b :: rest => String (hexDigit (b / 16)) (String (hexDigit (b mod 16)) (hex rest))
  end.

(** The test suite of RFC 1321. *)
Example Sum_rfc1321 :
  hex (Sum (bytesOf "")) = "d41d8cd98f00b204e9800998ecf8427e" /\
  hex (Sum (bytesOf "abc")) = "900150983cd24fb0d6963f7d28e17f72" /\
  hex (Sum (bytesOf "message digest")) = "f96b697d7cb7938d525a2f31aaf161d0" /\
  hex (Sum (bytesOf "12345678901234567890123456789012345678901234567890123456789012345678901234567890"))
    = "57edf4a22be3c955ac49da2e2107b67a".
Proof. vm_compute. repeat split. Qed.

End md5.

Module uuid.

#[local] Open Scope Z_scope.

(** [uuid.NameSpaceURL], 6ba7b811-9dad-11d1-80b4-00c04fd430c8. *)
Definition NameSpaceURL : list Z :=
  [107; 167; 184; 17; 157; 173; 17; 209; 128; 180; 0; 192; 79; 212; 48; 200].

(** [uuid.NewMD5(space, data)]: the digest of [space ++ data] with the
    version set to 3 and the variant to RFC 4122. *)
Definition NewMD5 (space data : list Z) : list Z :=
  let s := md5.Sum (space ++ data) in
  let s := <[6%nat := Z.lor (Z.land (nth 6 s 0) 15) 48]> s in
  <[8%nat := Z.lor (Z.land (nth 8 s 0) 63) 128]> s.

(** [UUID.String()]: xxxxxxxx-xxxx-xxxx-xxxx-xxxxxxxxxxxx. *)
Definition String_ (u : list Z) : string :=
  md5.hex (take 4 u) +:+ "-" +:+ md5.hex (take 2 (drop 4 u)) +:+ "-" +:+
  md5.hex (take 2 (drop 6 u)) +:+ "-" +:+ md5.hex (take 2 (drop 8 u)) +:+ "-" +:+
  md5.hex (drop 10 u).

Example NewMD5_rows :
  String_ NameSpaceURL = "6ba7b811-9dad-11d1-80b4-00c04fd430c8" /\
  String_ (NewMD5 NameSpaceURL (md5.bytesOf "ws_s1_1_0"))
    = "31f0598e-b853-3cb5-9636-4edcaf9a9c50" /\
  String_ (NewMD5 NameSpaceURL (md5.bytesOf "ws_s1_2_0"))
    = "6a380119-159b-3ddd-98fb-787edc23cf41".
Proof. vm_compute. repeat split. Qed.

End uuid.

(** ** Package [memory]: session archival *)
Module memory.

#[local] Open Scope Z_scope.

(** [len(s)] of a slice, as the Go [int] it is. *)
Definition len {A : Type} (l : list A) : Z := Z.of_nat (length l).

(** [runes[i:end]] for [0 <= i <= end <= len(runes)]. *)
Definition slice {A : Type} (l : list A) (i end_ : Z) : list A :=
  firstn (Z.to_nat (end_ - i)) (skipn (Z.to_nat i) l).

(** [chunkSize := m.config.Embedding.ChunkSize; if chunkSize <= 0 { chunkSize = 4096 }]. *)
Definition effectiveChunkSize (configured : Z) : Z :=
  if configured <=? 0 then 4096 else configured.

Section Chunking.

(** A code point is a [rune]; [runesOf] is the conversion [[]rune(text)] and
    [stringOf] the conversion [string(runes[i:end])]. *)
Variable runesOf : string -> list Z.
Variable stringOf : list Z -> string.

(** The sliding-window loop
    [for i := 0; i < len(runes); i += chunkSize - overlap { ... }]
    from [i], with the chunks appended so far.  Every turn takes one unit of
    [fuel]; [None] is a loop that has not finished within it. *)
Fixpoint windowLoop (fuel : nat) (runes : list Z) (chunkSize overlap i : Z)
    (chunks : list string) : option (list string) :=
  match fuel with
  | O => None
  | S fuel' =>
      if i <? len runes then
        let end_ := i + chunkSize in
        let end_ := if end_ >? len runes then len runes else end_ in
        let chunks := chunks ++ [stringOf (slice runes i end_)] in
        if end_ =? len runes then Some chunks
        else windowLoop fuel' runes chunkSize overlap (i + (chunkSize - overlap)) chunks
      else Some chunks
  end.

(** Step 2 of [ArchiveSession]: the chunks of a non-empty [text].  The loop
    is given one turn per code point, which is enough ([chunkText_total]). *)
Definition chunkText (configured : Z) (text : string) : option (list string) :=
  let chunkSize := effectiveChunkSize configured in
  let overlap := chunkSize / 10 in
  let runes := runesOf text in
  if len runes <=? chunkSize then Some [text]
  else windowLoop (length runes) runes chunkSize overlap 0 [].

(** The stride of the window and the number of windows over [n] code points. *)
Definition stride (chunkSize : Z) : Z := chunkSize - chunkSize / 10.

Definition windowCount (chunkSize n : Z) : Z :=
  (n - chunkSize + stride chunkSize - 1) / stride chunkSize + 1.

(** Window [k]: [chunkSize] code points from [k * stride], cut at the end. *)
Definition window (runes : list Z) (chunkSize : Z) (k : nat) : list Z :=
  slice runes (Z.of_nat k * stride chunkSize)
        (Z.min (len runes) (Z.of_nat k * stride chunkSize + chunkSize)).

Lemma stride_bounds cs : 0 < cs -> 0 < stride cs <= cs.
Proof.
  intros H. unfold stride.
  pose proof (Z.div_pos cs 10 ltac:(lia) ltac:(lia)).
  pose proof (Z.mul_div_le cs 10 ltac:(lia)). lia.
Qed.

(** The count is the least [K] with [(K-1) * stride + chunkSize >= n]. *)
Lemma windowCount_spec cs n :
  0 < cs -> cs < n ->
  2 <= windowCount cs n /\
  n <= (windowCount cs n - 1) * stride cs + cs /\
  (windowCount cs n - 2) * stride cs + cs < n.
Proof.
  intros Hcs Hn. pose proof (stride_bounds cs Hcs) as Hs. unfold windowCount.
  set (s := stride cs) in *. set (a := n - cs + s - 1).
  pose proof (Z.mul_div_le a s ltac:(lia)) as Hle.
  pose proof (Z.mul_succ_div_gt a s ltac:(lia)) as Hgt.
  assert (1 <= a / s) by (apply Z.div_le_lower_bound; subst a; lia).
  subst a. nia.
Qed.

Lemma len_slice {A} (l : list A) i e :
  0 <= i <= e -> e <= len l -> len (slice l i e) = e - i.
Proof.
  unfold len, slice. intros Hi He. rewrite length_take, length_drop. lia.
Qed.

Lemma window_take runes cs k :
  0 < cs -> Z.of_nat k * stride cs <= len runes ->
  window runes cs k = take (Z.to_nat cs) (drop (Z.to_nat (Z.of_nat k * stride cs)) runes).
Proof.
  intros Hcs Hk. unfold window, slice, len in *.
  set (i := Z.of_nat k * stride cs) in *.
  pose proof (stride_bounds cs Hcs). assert (0 <= i) by (subst i; nia).
  destruct (Z.min_spec (Z.of_nat (length runes)) (i + cs)) as [[Hlt ->]|[Hge ->]].
  - rewrite !take_ge; [reflexivity | rewrite length_drop; lia | rewrite length_drop; lia].
  - f_equal. lia.
Qed.

Lemma windowLoop_run fuel runes cs m k acc :
  0 < cs -> cs < len runes ->
  Z.of_nat k + Z.of_nat m + 1 = windowCount cs (len runes) ->
  (m < fuel)%nat ->
  windowLoop fuel runes cs (cs / 10) (Z.of_nat k * stride cs) acc =
  Some (acc ++ ((fun j => stringOf (window runes cs j)) <$> seq k (S m))).
Proof.
  intros Hcs Hn. pose proof (stride_bounds cs Hcs) as Hs.
  pose proof (windowCount_spec cs (len runes) Hcs Hn) as (HK2 & Hlast & Hprev).
  revert fuel k acc. induction m as [|m IH]; intros fuel k acc HK Hfuel;
    (destruct fuel as [|fuel]; [lia|]); cbn [windowLoop].
  - assert (Hi : Z.of_nat k * stride cs < len runes) by nia.
    apply Z.ltb_lt in Hi. rewrite Hi.
    assert (He : len runes <= Z.of_nat k * stride cs + cs) by nia.
    replace (if Z.of_nat k * stride cs + cs >? len runes then len runes
             else Z.of_nat k * stride cs + cs)
      with (Z.min (len runes) (Z.of_nat k * stride cs + cs))
      by (destruct (Z.gtb_spec (Z.of_nat k * stride cs + cs) (len runes)); lia).
    replace (Z.min (len runes) (Z.of_nat k * stride cs + cs) =? len runes) with true
      by (symmetry; apply Z.eqb_eq; lia).
    reflexivity.
  - assert (He : Z.of_nat k * stride cs + cs < len runes) by nia.
    assert (Hi : Z.of_nat k * stride cs < len runes) by lia.
    apply Z.ltb_lt in Hi. rewrite Hi.
    replace (if Z.of_nat k * stride cs + cs >? len runes then len runes
             else Z.of_nat k * stride cs + cs)
      with (Z.min (len runes) (Z.of_nat k * stride cs + cs))
      by (destruct (Z.gtb_spec (Z.of_nat k * stride cs + cs) (len runes)); lia).
    replace (Z.min (len runes) (Z.of_nat k * stride cs + cs) =? len runes) with false
      by (symmetry; apply Z.eqb_neq; lia).
    replace (Z.of_nat k * stride cs + (cs - cs / 10)) with (Z.of_nat (S k) * stride cs)
      by (unfold stride; lia).
    rewrite (IH fuel (S k)) by lia.
    rewrite <- app_assoc. reflexivity.
Qed.

(** The loop ends within its fuel: [chunkText] always returns its chunks. *)
Lemma chunkText_total configured text : is_Some (chunkText configured text).
Proof.
  unfold chunkText. cbv zeta.
  assert (Hcs : 0 < effectiveChunkSize configured)
    by (unfold effectiveChunkSize; destruct (Z.leb_spec configured 0); lia).
  destruct (Z.leb_spec (len (runesOf text)) (effectiveChunkSize configured)) as [H|H]; [eauto|].
  pose proof (windowCount_spec _ _ Hcs H) as (HK2 & Hlast & Hprev).
  pose proof (stride_bounds _ Hcs) as Hs.
  pose proof (windowLoop_run (length (runesOf text)) (runesOf text) (effectiveChunkSize configured)
                (Z.to_nat (windowCount (effectiveChunkSize configured) (len (runesOf text)) - 1))
                0 [] Hcs H) as R.
  change (Z.of_nat 0 * stride (effectiveChunkSize configured)) with 0 in R.
  rewrite R; [eauto | lia | unfold len in *; nia].
Qed.

(** C8. The chunk size is the configured one, or 4096 when that is not
    positive; a text of at most that many code points is one chunk, the text
    itself; a longer text is cut into [windowCount] windows, where window [k]
    is the [chunkSize] code points from code point [k * (chunkSize -
    chunkSize/10)] on (fewer only where the text ends), every window but the
    last is full and the last one ends the text; a text of 9000 code points
    at chunk size 4096 gives exactly 3 chunks. *)
Theorem chunkText_windows (configured : Z) (text : string) :
  (effectiveChunkSize configured = if configured <=? 0 then 4096 else configured) /\
  (len (runesOf text) <= effectiveChunkSize configured ->
   chunkText configured text = Some [text]) /\
  (effectiveChunkSize configured < len (runesOf text) ->
   let cs := effectiveChunkSize configured in
   let K := Z.to_nat (windowCount cs (len (runesOf text))) in
   chunkText configured text =
     Some ((fun k => stringOf (window (runesOf text) cs k)) <$> seq 0 K) /\
   forall k, (k < K)%nat ->
     window (runesOf text) cs k =
       take (Z.to_nat cs) (drop (Z.to_nat (Z.of_nat k * (cs - cs / 10))) (runesOf text)) /\
     0 < len (window (runesOf text) cs k) <= cs /\
     ((S k < K)%nat -> len (window (runesOf text) cs k) = cs) /\
     (S k = K -> Z.of_nat k * (cs - cs / 10) + len (window (runesOf text) cs k)
                 = len (runesOf text))) /\
  (len (runesOf text) = 9000 -> configured = 4096 ->
   exists c0 c1 c2, chunkText configured text = Some [c0; c1; c2]).
Proof.
  assert (Hcs : 0 < effectiveChunkSize configured)
    by (unfold effectiveChunkSize; destruct (Z.leb_spec configured 0); lia).
  assert (Hmulti : effectiveChunkSize configured < len (runesOf text) ->
    chunkText configured text =
    Some ((fun k => stringOf (window (runesOf text) (effectiveChunkSize configured) k)) <$>
          seq 0 (Z.to_nat (windowCount (effectiveChunkSize configured) (len (runesOf text)))))).
  { intros H. unfold chunkText. cbv zeta.
    replace (len (runesOf text) <=? effectiveChunkSize configured) with false
      by (symmetry; apply Z.leb_gt; exact H).
    pose proof (windowCount_spec _ _ Hcs H) as (HK2 & Hlast & Hprev).
    pose proof (stride_bounds _ Hcs) as Hs.
    pose proof (windowLoop_run (length (runesOf text)) (runesOf text) (effectiveChunkSize configured)
                  (Z.to_nat (windowCount (effectiveChunkSize configured) (len (runesOf text)) - 1))
                  0 [] Hcs H) as R.
    change (Z.of_nat 0 * stride (effectiveChunkSize configured)) with 0 in R.
    rewrite R; [| lia | unfold len in *; nia].
    cbn [app]. do 3 f_equal. lia. }
  split; [reflexivity|]. split; [|split].
  - intros H. unfold chunkText. cbv zeta. apply Z.leb_le in H. now rewrite H.
  - intros H. cbv zeta. split; [exact (Hmulti H)|].
    pose proof (windowCount_spec _ _ Hcs H) as (HK2 & Hlast & Hprev).
    pose proof (stride_bounds _ Hcs) as Hs.
    set (cs := effectiveChunkSize configured) in *.
    set (n := len (runesOf text)) in *.
    intros k Hk. fold (stride cs).
    assert (Hstart : Z.of_nat k * stride cs + cs < n \/
                     (Z.of_nat k + 1 = windowCount cs n /\ Z.of_nat k * stride cs < n)) by nia.
    assert (Hlen : len (window (runesOf text) cs k) =
                   Z.min n (Z.of_nat k * stride cs + cs) - Z.of_nat k * stride cs).
    { unfold window. fold n. apply len_slice; fold n; nia. }
    split; [apply window_take; [exact Hcs | fold n; nia]|].
    rewrite Hlen. repeat split; try nia.
  - intros Hn ->. change (effectiveChunkSize 4096) with 4096 in *.
    rewrite Hmulti by lia. rewrite Hn.
    change (Z.to_nat (windowCount 4096 9000)) with 3%nat. cbn [seq fmap list_fmap]. eauto.
Qed.

End Chunking.

(** A text of ASCII bytes: its code points are its bytes. *)
Definition asciiRunes (s : string) : list Z :=
  (fun c => Z.of_N (N_of_ascii c)) <$> list_ascii_of_string s.

Definition asciiString (runes : list Z) : string :=
  string_of_list_ascii ((fun r => ascii_of_N (Z.to_N r)) <$> runes).

Fixpoint repeatString (n : nat) (s : string) : string :=
  match n with
  | O => EmptyString
  | S n' => s +:+ repeatString n' s
  end.

(** 9000 characters at chunk size 4096: windows at 0, 3687 and 7374. *)
Example chunkText_9000 :
  option_map (map String.length)
    (chunkText asciiRunes asciiString 4096 (repeatString 900 "0123456789"))
  = Some [4096; 4096; 1626]%nat.
Proof. vm_compute. reflexivity. Qed.

Lemma chunkText_windows_witness :
  exists c0 c1 c2,
    chunkText asciiRunes asciiString 4096 (repeatString 900 "0123456789") = Some [c0; c1; c2].
Proof.
  apply (proj2 (proj2 (proj2 (chunkText_windows asciiRunes asciiString 4096
                                (repeatString 900 "0123456789"))))).
  - vm_compute. reflexivity.
  - reflexivity.
Defined.

(** *** [ArchiveSession] *)

(** [providers.Message], as far as archival reads it. *)
Record Message : Type := { Role : string; Content : string }.

Record EmbeddingConfig : Type := { ChunkSize : Z }.
Record QdrantConfig : Type := { CollectionName : string }.
Record MemoryConfig : Type := {
  Enabled : bool;
  Qdrant : QdrantConfig;
  Embedding : EmbeddingConfig
}.

(** The payload map of a point, by its six keys. *)
Record Payload : Type := {
  workspace_id : string;
  session_id : string;
  content : string;
  timestamp : Z;
  chunk_index : Z;
  total_chunks : Z
}.

Definition newline : string := String "010"%char EmptyString.

(** [fmt.Sprintf("%d", n)]. *)
Definition itoa (n : Z) : string := NilZero.string_of_int (Z.to_int n).

(** [fmt.Sprintf("%s_%s_%d_%d", workspaceID, sessionID, timestamp, i)] and
    the point id [uuid.NewMD5(uuid.NameSpaceURL, []byte(rawID)).String()]. *)
Definition rawID (workspaceID sessionID : string) (timestamp i : Z) : string :=
  workspaceID +:+ "_" +:+ sessionID +:+ "_" +:+ itoa timestamp +:+ "_" +:+ itoa i.

Definition pointID (workspaceID sessionID : string) (timestamp i : Z) : string :=
  uuid.String_ (uuid.NewMD5 uuid.NameSpaceURL
                  (md5.bytesOf (rawID workspaceID sessionID timestamp i))).

(** Step 1: the text of the messages that are not of role "system". *)
Fixpoint sessionText (messages : list Message) : string :=
  match messages with
  | [] => EmptyString
  | msg :: rest =>
      if String.eqb (Role msg) "system" then sessionText rest
      else (Role msg +:+ ": " +:+ Content msg +:+ newline) +:+ sessionText rest
  end.

Section Archive.

(** The embedder: [Embed] gives a vector of [dimension] floats or an error
    text; the same text embeds to the same vector. *)
Variable Vector : Type.
Variable dimension : Vector -> Z.
Variable Embed : string -> Vector + string.
Variable runesOf : string -> list Z.
Variable stringOf : list Z -> string.

Record VectorRecord : Type := { ID : string; Vector_ : Vector; Payload_ : Payload }.

(** The vector store behind the [VectorDB] interface, as [Client] drives
    Qdrant: [EnsureCollection] creates a collection only when it is missing,
    [Store] upserts one point under its id. *)
Record Collection : Type := { Dimension : Z; Points : gmap string VectorRecord }.

Definition EnsureCollection (db : gmap string Collection) (name : string) (dim : Z)
    : gmap string Collection :=
  match db !! name with
  | Some _ => db
  | None => <[name := {| Dimension := dim; Points := ∅ |}]> db
  end.

Definition Store (db : gmap string Collection) (collection : string) (record : VectorRecord)
    : option (gmap string Collection) :=
  match db !! collection with
  | Some c =>
      Some (<[collection := {| Dimension := Dimension c;
                               Points := <[ID record := record]> (Points c) |}]> db)
  | None => None
  end.

Inductive ArchiveError : Type :=
| EmbedFirstFailed (err : string)
| EmbedFailed (i : Z) (err : string)
| StoreFailed (i : Z) (pointID : string).

Definition chunkRecord (workspaceID sessionID : string) (timestamp total i : Z)
    (chunk : string) (vector : Vector) : VectorRecord :=
  {| ID := pointID workspaceID sessionID timestamp i;
     Vector_ := vector;
     Payload_ := {| workspace_id := workspaceID; session_id := sessionID;
                    content := chunk;
                    timestamp := Z.quot timestamp 1000000000;
                    chunk_index := i; total_chunks := total |} |}.

(** [for i := 1; i < len(chunks); i++ { embed; store }] from chunk [i] on;
    the first failure returns with the store as it is by then. *)
Fixpoint storeRest (db : gmap string Collection) (collection workspaceID sessionID : string)
    (timestamp total i : Z) (chunks : list string)
    : gmap string Collection * option ArchiveError :=
  match chunks with
  | [] => (db, None)
  | chunk :: rest =>
      match Embed chunk with
      | inr err => (db, Some (EmbedFailed i err))
      | inl vector =>
          let record := chunkRecord workspaceID sessionID timestamp total i chunk vector in
          match Store db collection record with
          | None => (db, Some (StoreFailed i (ID record)))
          | Some db' =>
              storeRest db' collection workspaceID sessionID timestamp total (i + 1) rest
          end
      end
  end.

(** [ArchiveSession]; [now] is what [time.Now().UnixNano()] reads during the
    call.  The result is the store afterwards and the error, if any. *)
Definition ArchiveSession (config : MemoryConfig) (db : gmap string Collection) (now : Z)
    (workspaceID sessionID : string) (messages : list Message)
    : gmap string Collection * option ArchiveError :=
  if negb (Enabled config) then (db, None)
  else
    let text := sessionText messages in
    if String.eqb text "" then (db, None)
    else
      match chunkText runesOf stringOf (ChunkSize (Embedding config)) text with
      | None => (db, None)
      | Some chunks =>
          let collection :=
            if String.eqb (CollectionName (Qdrant config)) "" then "picoclaw"
            else CollectionName (Qdrant config) in
          match chunks with
          | [] => (db, None)
          | chunk0 :: rest =>
              match Embed chunk0 with
              | inr err => (db, Some (EmbedFirstFailed err))
              | inl vector =>
                  let db := EnsureCollection db collection (dimension vector) in
                  let timestamp := now in
                  let total := len chunks in
                  let record :=
                    chunkRecord workspaceID sessionID timestamp total 0 chunk0 vector in
                  match Store db collection record with
                  | None => (db, Some (StoreFailed 0 (ID record)))
                  | Some db' =>
                      storeRest db' collection workspaceID sessionID timestamp total 1 rest
                  end
              end
          end
      end.

(** The ids of the points of a collection. *)
Definition pointIDs (db : gmap string Collection) (collection : string) : gset string :=
  match db !! collection with
  | Some c => dom (Points c)
  | None => ∅
  end.

(** The records [storeRest] gets to store before its first failure, and
    that failure. *)
Fixpoint planRest (workspaceID sessionID : string) (timestamp total i : Z)
    (chunks : list string) : list VectorRecord * option ArchiveError :=
  match chunks with
  | [] => ([], None)
  | chunk :: rest =>
      match Embed chunk with
      | inr err => ([], Some (EmbedFailed i err))
      | inl vector =>
          let p := planRest workspaceID sessionID timestamp total (i + 1) rest in
          (chunkRecord workspaceID sessionID timestamp total i chunk vector :: p.1, p.2)
      end
  end.

Definition upsert (points : gmap string VectorRecord) (r : VectorRecord)
    : gmap string VectorRecord := <[ID r := r]> points.

Definition upsertAll (c : Collection) (rs : list VectorRecord) : Collection :=
  {| Dimension := Dimension c; Points := foldl upsert (Points c) rs |}.

Lemma upsert_absorb r l Y :
  upsert (foldl upsert (upsert Y r) l) r = upsert (foldl upsert Y l) r.
Proof.
  revert Y; induction l as [|a l IH]; intros Y; cbn [foldl].
  - unfold upsert. apply insert_insert_eq.
  - destruct (decide (ID a = ID r)) as [E|E].
    + replace (upsert (upsert Y r) a) with (upsert Y a)
        by (unfold upsert; rewrite <- E; now rewrite insert_insert_eq).
      reflexivity.
    + replace (upsert (upsert Y r) a) with (upsert (upsert Y a) r)
        by (unfold upsert; now apply insert_insert_ne).
      apply IH.
Qed.

(** Upserting the same records again changes nothing. *)
Lemma foldl_upsert_twice rs P :
  foldl upsert (foldl upsert P rs) rs = foldl upsert P rs.
Proof.
  revert P; induction rs as [|r rs IH] using rev_ind; intros P; [reflexivity|].
  rewrite !foldl_app. cbn [foldl]. rewrite upsert_absorb. now rewrite IH.
Qed.

Lemma upsertAll_twice c rs : upsertAll (upsertAll c rs) rs = upsertAll c rs.
Proof. unfold upsertAll. cbn. now rewrite foldl_upsert_twice. Qed.

Lemma dom_foldl_upsert rs P k :
  k ∈ dom (foldl upsert P rs) -> k ∈ dom P \/ exists r, r ∈ rs /\ ID r = k.
Proof.
  revert P; induction rs as [|r rs IH]; intros P; cbn [foldl]; [auto|].
  intros [H|(r' & Hr & E)]%IH.
  - unfold upsert in H. rewrite dom_insert_L in H. apply elem_of_union in H as [H|H]; [|auto].
    apply elem_of_singleton in H. right. exists r. split; [left | now symmetry].
  - right. exists r'. split; [now right | exact E].
Qed.

Lemma planRest_ids ws ss ts total i chunks r :
  r ∈ (planRest ws ss ts total i chunks).1 ->
  exists j, i <= j /\ ID r = pointID ws ss ts j.
Proof.
  revert i; induction chunks as [|chunk rest IH]; intros i; cbn [planRest].
  - intros H. inversion H.
  - destruct (Embed chunk) as [v|err]; cbn [fst]; [|intros H; inversion H].
    intros [->|H]%elem_of_cons.
    + exists i. split; [lia | reflexivity].
    + apply IH in H as (j & Hj & E). exists j. split; [lia | exact E].
Qed.

Lemma storeRest_plan db collection c ws ss ts total i chunks :
  db !! collection = Some c ->
  storeRest db collection ws ss ts total i chunks =
  (<[collection := upsertAll c (planRest ws ss ts total i chunks).1]> db,
   (planRest ws ss ts total i chunks).2).
Proof.
  revert db c i; induction chunks as [|chunk rest IH]; intros db c i Hc;
    cbn [storeRest planRest].
  - cbn. unfold upsertAll. cbn. destruct c. now rewrite insert_id.
  - destruct (Embed chunk) as [v|err]; cbn [fst snd].
    + unfold Store. rewrite Hc.
      erewrite IH by apply lookup_insert_eq.
      rewrite insert_insert_eq. reflexivity.
    + unfold upsertAll. cbn. destruct c. now rewrite insert_id.
Qed.

Lemma EnsureCollection_lookup db name dim :
  exists c, EnsureCollection db name dim !! name = Some c /\
            (db !! name = Some c \/ (db !! name = None /\ Points c = ∅)).
Proof.
  unfold EnsureCollection. destruct (db !! name) as [c|] eqn:E.
  - exists c. auto.
  - eexists. rewrite lookup_insert_eq. split; [reflexivity | right; auto].
Qed.

Lemma EnsureCollection_present db name dim c :
  db !! name = Some c -> EnsureCollection db name dim = db.
Proof. unfold EnsureCollection. now intros ->. Qed.

(** What a call does to any store: nothing, or, in the collection it makes
    sure of, the upsert of a list of records that the store does not
    influence. *)
Lemma ArchiveSession_run config now ws ss messages :
  (exists e, forall db, ArchiveSession config db now ws ss messages = (db, e)) \/
  (exists collection dim recs e,
     (forall r, r ∈ recs -> exists j, 0 <= j /\ ID r = pointID ws ss now j) /\
     forall db c,
       EnsureCollection db collection dim !! collection = Some c ->
       ArchiveSession config db now ws ss messages =
       (<[collection := upsertAll c recs]> (EnsureCollection db collection dim), e)).
Proof.
  unfold ArchiveSession.
  destruct (negb (Enabled config)); [left; eauto|].
  destruct (String.eqb (sessionText messages) ""); [left; eauto|].
  destruct (chunkText runesOf stringOf (ChunkSize (Embedding config)) (sessionText messages))
    as [[|chunk0 rest]|]; [left; eauto| |left; eauto].
  destruct (Embed chunk0) as [vector|err]; [|left; eauto].
  right. cbv zeta.
  set (collection := if String.eqb (CollectionName (Qdrant config)) "" then "picoclaw"
                     else CollectionName (Qdrant config)).
  set (total := len (chunk0 :: rest)).
  set (r0 := chunkRecord ws ss now total 0 chunk0 vector).
  exists collection, (dimension vector), (r0 :: (planRest ws ss now total 1 rest).1),
         (planRest ws ss now total 1 rest).2.
  split.
  - intros r [->|H]%elem_of_cons.
    + exists 0. split; [lia | reflexivity].
    + apply planRest_ids in H as (j & Hj & E). exists j. split; [lia | exact E].
  - intros db c Hc. unfold Store. rewrite Hc.
    erewrite storeRest_plan by apply lookup_insert_eq.
    rewrite insert_insert_eq. reflexivity.
Qed.

(** C2, as the code has it.  The id of chunk [i] is the UUIDv3 of
    ["<ws>_<session>_<ts>_<i>"] in the URL namespace, [ts] being the clock
    reading of the call: every point a call adds carries such an id, and a
    second call with the same arguments at the same clock reading upserts
    the same points and leaves the store, and the result, as they were. *)
Theorem ArchiveSession_same_clock (config : MemoryConfig) (db : gmap string Collection)
    (now : Z) (workspaceID sessionID : string) (messages : list Message) :
  ArchiveSession config (ArchiveSession config db now workspaceID sessionID messages).1
                 now workspaceID sessionID messages
  = ArchiveSession config db now workspaceID sessionID messages /\
  forall collection id,
    id ∈ pointIDs (ArchiveSession config db now workspaceID sessionID messages).1 collection ->
    id ∈ pointIDs db collection \/
    exists i, 0 <= i /\ id = pointID workspaceID sessionID now i.
Proof.
  destruct (ArchiveSession_run config now workspaceID sessionID messages)
    as [(e & H)|(coll & dim & recs & e & Hids & H)].
  - rewrite !H. cbn [fst]. rewrite ?H. split; [reflexivity | auto].
  - destruct (EnsureCollection_lookup db coll dim) as (c & Hc & Hor).
    rewrite (H db c Hc). cbn [fst]. split.
    + set (db0 := EnsureCollection db coll dim).
      assert (Hl : <[coll := upsertAll c recs]> db0 !! coll = Some (upsertAll c recs))
        by apply lookup_insert_eq.
      rewrite (H _ (upsertAll c recs)); rewrite (EnsureCollection_present _ _ _ _ Hl);
        [|exact Hl].
      rewrite upsertAll_twice, insert_insert_eq. reflexivity.
    + intros collection id. unfold pointIDs.
      rewrite lookup_insert. case_decide as Hk.
      * subst collection. cbn [upsertAll Points].
        intros [Hin|(r & Hr & <-)]%dom_foldl_upsert.
        -- destruct Hor as [-> | [_ Hempty]]; [now left|].
           rewrite Hempty, dom_empty_L in Hin. now apply not_elem_of_empty in Hin.
        -- right. apply Hids in Hr as (j & Hj & E). eauto.
      * unfold EnsureCollection. destruct (db !! coll) eqn:E; [now left|].
        rewrite lookup_insert_ne by exact Hk. now left.
Qed.


(** *** What a call leaves in the store *)

(** The collection a call writes to: the configured name, or "picoclaw". *)
Definition targetCollection (config : MemoryConfig) : string :=
  if String.eqb (CollectionName (Qdrant config)) "" then "picoclaw"
  else CollectionName (Qdrant config).

Lemma sessionText_system messages :
  Forall (fun msg => Role msg = "system") messages -> sessionText messages = "".
Proof.
  induction 1 as [|msg rest Hm _ IH]; [reflexivity|].
  cbn [sessionText]. now rewrite Hm, IH.
Qed.






(** X18. Archival with nothing to archive: when memory is disabled, or every
    message of the session has the role "system" (an empty session
    included), the call returns no error and leaves the store as it was,
    whatever the embedder would answer. *)
Theorem ArchiveSession_nothing (config : MemoryConfig) (db : gmap string Collection)
    (now : Z) (workspaceID sessionID : string) (messages : list Message) :
  Enabled config = false \/ Forall (fun msg => Role msg = "system") messages ->
  ArchiveSession config db now workspaceID sessionID messages = (db, None).
Proof.
  intros [H|H]; unfold ArchiveSession.
  - now rewrite H.
  - rewrite (sessionText_system _ H). now destruct (negb (Enabled config)).
Qed.





End Archive.
(** A run on ASCII text with an embedder that always answers the same
    three-dimensional vector: one short session, archived into an empty
    store when the clock reads 1, and once more when it reads 2. *)
Definition constEmbed (text : string) : list Z + string := inl [1; 0; 0].

Definition defaults : MemoryConfig :=
  {| Enabled := true; Qdrant := {| CollectionName := "" |};
     Embedding := {| ChunkSize := 0 |} |}.

Definition archiveAt (db : gmap string (Collection (list Z))) (now : Z)
    : gmap string (Collection (list Z)) * option ArchiveError :=
  ArchiveSession (list Z) len constEmbed asciiRunes asciiString defaults db now
    "ws" "s1" [ {| Role := "system"; Content := "be kind" |};
                {| Role := "user"; Content := "hi" |} ].

Definition firstRun : gmap string (Collection (list Z)) := (archiveAt ∅ 1).1.
Definition secondRun : gmap string (Collection (list Z)) := (archiveAt firstRun 2).1.

(** C2 as stated fails: the second archival of the same session, a
    nanosecond later, writes a point under a new id beside the first one. *)
Lemma ArchiveSession_new_ids :
  elements (pointIDs (list Z) firstRun "picoclaw")
    = ["31f0598e-b853-3cb5-9636-4edcaf9a9c50"] /\
  length (elements (pointIDs (list Z) secondRun "picoclaw")) = 2%nat /\
  "6a380119-159b-3ddd-98fb-787edc23cf41" ∈ pointIDs (list Z) secondRun "picoclaw" /\
  pointID "ws" "s1" 2 0 = "6a380119-159b-3ddd-98fb-787edc23cf41" /\
  secondRun <> firstRun.
Proof.
  assert (E1 : elements (pointIDs (list Z) firstRun "picoclaw")
               = ["31f0598e-b853-3cb5-9636-4edcaf9a9c50"]) by (vm_compute; reflexivity).
  assert (E2 : length (elements (pointIDs (list Z) secondRun "picoclaw")) = 2%nat)
    by (vm_compute; reflexivity).
  split; [exact E1|]. split; [exact E2|]. split; [|split].
  - apply elem_of_elements, list_elem_of_In. vm_compute. tauto.
  - vm_compute. reflexivity.
  - intros H. rewrite H, E1 in E2. discriminate E2.
Qed.

(** *** What the windows cover *)



(** *** Runs of the archival properties *)

Definition hello : list Message :=
  [ {| Role := "system"; Content := "be kind" |}; {| Role := "user"; Content := "hi" |} ].

Definition otherStore : gmap string (Collection (list Z)) :=
  {[ "notes" := {| Dimension := 7; Points := ∅ |} ]}.

(** An embedder that is down for the text that is one newline. *)
Definition failEmbed (text : string) : list Z + string :=
  if String.eqb text newline then inr "down" else inl [1; 0; 0].

Definition small : MemoryConfig :=
  {| Enabled := true; Qdrant := {| CollectionName := "" |};
     Embedding := {| ChunkSize := 4 |} |}.

Lemma ArchiveSession_nothing_witness :
  ArchiveSession (list Z) len constEmbed asciiRunes asciiString defaults otherStore 1
    "ws" "s1" [ {| Role := "system"; Content := "be kind" |} ] = (otherStore, None).
Proof.
  apply (ArchiveSession_nothing (list Z) len constEmbed asciiRunes asciiString).
  right. repeat constructor.
Defined.



(** With chunks of four code points, "user: hi" and its newline make three
    chunks; the embedder fails on the third, and the first two stay stored. *)
Example ArchiveSession_failure_run :
  chunkText asciiRunes asciiString 4 (sessionText hello)
    = Some ["user"; ": hi"; newline] /\
  (ArchiveSession (list Z) len failEmbed asciiRunes asciiString small ∅ 1
     "ws" "s1" hello).2 = Some (EmbedFailed 2 "down") /\
  length (elements (pointIDs (list Z)
     (ArchiveSession (list Z) len failEmbed asciiRunes asciiString small ∅ 1
        "ws" "s1" hello).1 "picoclaw")) = 2%nat.
Proof. repeat split; vm_compute; reflexivity. Qed.

End memory.

(** * Package memory: searching by date (the manager's [Search],
      [SearchByDate] and [sortResultsByDate]) *)
Module memorysearch.

Import memory.
#[local] Open Scope Z_scope.

(** A call returns, or panics (an index or slice bound out of range). *)
Inductive Outcome (A : Type) : Type :=
| Returns (a : A)
| Panics.
Arguments Returns {A} a.
Arguments Panics {A}.

(** Go's [int], 64 bits wide: the value of an arithmetic result. *)
Definition wrap64 (x : Z) : Z := (x + 2 ^ 63) mod 2 ^ 64 - 2 ^ 63.

Section Search.

(** A float64 and Go's conversion [int64(v)] of it. *)
Variable Float64 : Type.
Variable int64_of : Float64 -> Z.

(** The values of a payload map ([map[string]interface{}]). *)
Inductive Value : Type :=
| Int64 (v : Z)
| Float64_ (v : Float64)
| Int (v : Z)
| String_ (s : string)
| Bool (b : bool)
| Nil.

Record SearchResult : Type := {
  ID : string;
  Score : Float64;
  Payload : gmap string Value
}.

(** The closure [getTS] of [sortResultsByDate]. *)
Definition getTS (r : SearchResult) : Z :=
  match Payload r !! "timestamp" with
  | Some (Int64 v) => v
  | Some (Float64_ v) => int64_of v
  | Some (Int v) => v
  | _ => 0
  end.

(** The inner loop [for j := i; j > 0; j-- { ... }] from [j] down: swap
    [results[j-1]] and [results[j]] while they are in the wrong order, stop at
    the first pair that is not. *)
Fixpoint sink (order : string) (j : nat) (results : list SearchResult)
    : option (list SearchResult) :=
  match j with
  | O => Some results
  | S j' =>
      match results !! j', results !! S j' with
      | Some x, Some y =>
          let a := getTS x in
          let b := getTS y in
          if String.eqb order "asc" && (a >? b) then
            sink order j' (<[j' := y]> (<[S j' := x]> results))
          else if negb (String.eqb order "asc") && (a <? b) then
            sink order j' (<[j' := y]> (<[S j' := x]> results))
          else Some results
      | _, _ => None
      end
  end.

(** [sortResultsByDate]: [for i := 1; i < len(results); i++], the slice
    sorted in place; [None] is an index out of range. *)
Definition sortResultsByDate (results : list SearchResult) (order : string)
    : option (list SearchResult) :=
  foldl (fun acc i => acc ≫= sink order i) (Some results) (seq 1 (length results - 1)).

Inductive SearchError : Type :=
| EmbedError (err : string)
| DBError (err : string).

(** The embedder and the vector store's [Search], called with collection,
    vector, limit, offset and the workspace of the filter. *)
Variable Vector : Type.
Variable Embed : string -> Vector + string.
Variable dbSearch : string -> Vector -> Z -> Z -> string -> list SearchResult + string.

Definition Search (config : MemoryConfig) (workspaceID query : string) (limit offset : Z)
    : list SearchResult * option SearchError :=
  if negb (Enabled config) then ([], None)
  else
    match Embed query with
    | inr err => ([], Some (EmbedError err))
    | inl vector =>
        match dbSearch (targetCollection config) vector limit offset workspaceID with
        | inr err => ([], Some (DBError err))
        | inl results => (results, None)
        end
    end.

Definition candidateMultiplier : Z := 10.

Definition candidatesFor (limit : Z) : Z :=
  let candidates := wrap64 (limit * candidateMultiplier) in
  if candidates <? 50 then 50 else candidates.

Definition SearchByDate (config : MemoryConfig) (workspaceID query : string) (limit : Z)
    (order : string) : Outcome (list SearchResult * option SearchError) :=
  if negb (Enabled config) then Returns ([], None)
  else
    let candidates := candidatesFor limit in
    match Embed query with
    | inr err => Returns ([], Some (EmbedError err))
    | inl vector =>
        match dbSearch (targetCollection config) vector candidates 0 workspaceID with
        | inr err => Returns ([], Some (DBError err))
        | inl results =>
            match sortResultsByDate results order with
            | None => Panics
            | Some results =>
                if len results >? limit then
                  if limit <? 0 then Panics
                  else Returns (take (Z.to_nat limit) results, None)
                else Returns (results, None)
            end
        end
    end.

(** Two results are in the wrong order: the test under which the loop swaps. *)
Definition wrong (order : string) (x y : SearchResult) : bool :=
  if String.eqb order "asc" then getTS x >? getTS y else getTS x <? getTS y.

(** The order the sort aims at: oldest first for "asc", newest first for any
    other [order]. *)
Definition before (order : string) (x y : SearchResult) : Prop :=
  if String.eqb order "asc" then getTS x <= getTS y else getTS y <= getTS x.

Lemma swap_adjacent (P : list SearchResult) x y T :
  <[length P := y]> (<[S (length P) := x]> (P ++ x :: y :: T)) = P ++ y :: x :: T.
Proof.
  rewrite (insert_app_r_alt P _ (S (length P))) by lia.
  replace (S (length P) - length P)%nat with 1%nat by lia. cbn [insert list_insert].
  rewrite insert_app_r_alt by lia.
  replace (length P - length P)%nat with 0%nat by lia. reflexivity.
Qed.

(** Where the inner loop leaves the element it sinks: behind a prefix whose
    last element it need not pass, before the elements it passed. *)
Lemma sink_split order P y T :
  exists P1 P2,
    P = P1 ++ P2 /\
    sink order (length P) (P ++ y :: T) = Some (P1 ++ y :: P2 ++ T) /\
    Forall (fun x => wrong order x y = true) P2 /\
    (forall P0 x, P1 = P0 ++ [x] -> wrong order x y = false).
Proof.
  revert T; induction P as [|x P IH] using rev_ind; intros T.
  - exists [], []. repeat split; [constructor|].
    intros [|? ?] x E; discriminate E.
  - rewrite length_app, Nat.add_1_r. cbn [sink].
    rewrite <- app_assoc. cbn [app].
    rewrite (lookup_app_r P) by lia.
    replace (length P - length P)%nat with 0%nat by lia. cbn [lookup list_lookup].
    rewrite (lookup_app_r P _ (S (length P))) by lia.
    replace (S (length P) - length P)%nat with 1%nat by lia. cbn [lookup list_lookup].
    cbv zeta. rewrite swap_adjacent.
    destruct (wrong order x y) eqn:W.
    + destruct (IH (x :: T)) as (P1 & P2 & -> & Hs & HP2 & Hlast).
      assert (Hgo : sink order (length (P1 ++ P2)) ((P1 ++ P2) ++ y :: x :: T)
                    = Some (P1 ++ y :: (P2 ++ [x]) ++ T)).
      { rewrite Hs. now rewrite <- (app_assoc P2). }
      exists P1, (P2 ++ [x]). split; [now rewrite app_assoc|]. split.
      * unfold wrong in W. destruct (String.eqb order "asc"); cbn [andb negb];
          rewrite W; exact Hgo.
      * split; [|exact Hlast]. apply Forall_app. split; [exact HP2|].
        constructor; [exact W | constructor].
    + exists (P ++ [x]), []. rewrite app_nil_r. split; [reflexivity|]. split.
      * unfold wrong in W. destruct (String.eqb order "asc"); cbn [andb negb];
          rewrite W; cbn [app]; now rewrite <- app_assoc.
      * split; [constructor|].
        intros P0 x0 E. apply app_inj_tail in E as [_ <-]. exact W.
Qed.

(** What the outer loop keeps of the part it has been through. *)
Definition sortedFrom (order : string) (original current : list SearchResult) : Prop :=
  current ≡ₚ original /\
  StronglySorted (before order) current /\
  forall t, filter (fun r => getTS r = t) current = filter (fun r => getTS r = t) original.

Lemma before_trans order x y z : before order x y -> before order y z -> before order x z.
Proof. unfold before. destruct (String.eqb order "asc"); lia. Qed.

Lemma wrong_before order x y : wrong order x y = true -> before order y x.
Proof. unfold wrong, before. destruct (String.eqb order "asc"); lia. Qed.

Lemma not_wrong_before order x y : wrong order x y = false -> before order x y.
Proof. unfold wrong, before. destruct (String.eqb order "asc"); lia. Qed.

Lemma wrong_differ order x y : wrong order x y = true -> getTS x <> getTS y.
Proof. unfold wrong. destruct (String.eqb order "asc"); lia. Qed.

Lemma filter_none (t : Z) (l : list SearchResult) :
  Forall (fun r => getTS r <> t) l -> filter (fun r => getTS r = t) l = [].
Proof.
  induction 1 as [|r l Hr _ IH]; [reflexivity|].
  now rewrite filter_cons_False.
Qed.

Lemma sortedFrom_step order original P1 P2 y :
  sortedFrom order original (P1 ++ P2) ->
  Forall (fun x => wrong order x y = true) P2 ->
  (forall P0 x, P1 = P0 ++ [x] -> wrong order x y = false) ->
  sortedFrom order (original ++ [y]) (P1 ++ y :: P2).
Proof.
  intros (Hperm & Hsorted & Hstable) HP2 Hlast.
  apply StronglySorted_app in Hsorted as (Hcross & HS1 & HS2).
  assert (H1 : forall a, a ∈ P1 -> before order a y).
  { destruct P1 as [|x P0 _] using rev_ind; [intros a Ha; inversion Ha|].
    pose proof (not_wrong_before _ _ _ (Hlast P0 x eq_refl)) as Hx.
    apply StronglySorted_app in HS1 as (Hc & _ & _).
    intros a [Ha|Ha]%elem_of_app.
    - apply (before_trans _ _ x); [|exact Hx]. apply Hc; [exact Ha | left].
    - apply list_elem_of_singleton in Ha as ->. exact Hx. }
  assert (H2 : forall b, b ∈ P2 -> wrong order b y = true)
    by (now apply Forall_forall).
  split; [|split].
  - rewrite <- Permutation_middle, <- Permutation_cons_append.
    now apply Permutation_cons.
  - apply StronglySorted_app. split; [|split; [exact HS1|]].
    + intros a b Ha [->|Hb]%elem_of_cons; [now apply H1 | now apply Hcross].
    + constructor; [exact HS2|]. apply Forall_forall. intros b Hb.
      now apply wrong_before, H2.
  - intros t. rewrite !filter_app, <- Hstable, filter_app, <- app_assoc. f_equal.
    rewrite filter_cons. case_decide as Ey.
    + cbn [filter]. rewrite (filter_cons _ y []), decide_True by exact Ey.
      replace (filter (fun r => getTS r = t) P2) with (@nil SearchResult); [reflexivity|].
      symmetry. apply filter_none, Forall_forall. intros b Hb E.
      apply (wrong_differ _ _ _ (H2 b Hb)). congruence.
    + rewrite (filter_cons _ y []), decide_False by exact Ey.
      rewrite filter_nil. now rewrite app_nil_r.
Qed.

Lemma outer_loop order T :
  forall original P,
    sortedFrom order original P ->
    exists sorted,
      foldl (fun acc i => acc ≫= sink order i) (Some (P ++ T)) (seq (length P) (length T))
        = Some sorted /\
      sortedFrom order (original ++ T) sorted.
Proof.
  induction T as [|y T IH]; intros original P HP.
  - exists P. rewrite !app_nil_r. split; [reflexivity | exact HP].
  - cbn [length seq foldl mbind option_bind].
    destruct (sink_split order P y T) as (P1 & P2 & -> & Hs & HP2 & Hlast).
    rewrite Hs.
    pose proof (sortedFrom_step _ _ _ _ _ HP HP2 Hlast) as Hstep.
    destruct (IH (original ++ [y]) (P1 ++ y :: P2) Hstep) as (sorted & Hrun & Hinv).
    exists sorted. split.
    + rewrite <- Hrun. rewrite <- (app_assoc P1 (y :: P2) T). cbn [app].
      f_equal. f_equal. rewrite !length_app. cbn [length]. lia.
    + now rewrite <- app_assoc in Hinv.
Qed.

(** X22. [sortResultsByDate] never indexes out of range and sorts: the
    outcome is a rearrangement of the results, in ascending order of
    timestamp when [order] is "asc" and in descending order for every other
    [order], and results of equal timestamp keep their relative order. *)
Theorem sortResultsByDate_sorts (results : list SearchResult) (order : string) :
  exists sorted,
    sortResultsByDate results order = Some sorted /\
    sorted ≡ₚ results /\
    StronglySorted (before order) sorted /\
    forall t, filter (fun r => getTS r = t) sorted = filter (fun r => getTS r = t) results.
Proof.
  unfold sortResultsByDate. destruct results as [|r T].
  - exists []. repeat split; [reflexivity | constructor].
  - cbn [length]. rewrite Nat.sub_1_r. cbn [Nat.pred].
    assert (H0 : sortedFrom order [r] [r]).
    { split; [reflexivity|]. split; [|reflexivity].
      constructor; [constructor | constructor]. }
    destruct (outer_loop order T [r] [r] H0) as (sorted & Hrun & Hinv).
    exists sorted. split; [exact Hrun | exact Hinv].
Qed.

(** X23. With memory enabled, a limit from 0 up, an embedding and an answer
    of the store, [SearchByDate] asks the store for [max 50 (10 * limit)]
    candidates at offset 0 under the workspace's filter and returns the
    first [limit] of them in date order: never more than [limit] results,
    none for limit 0. *)
Theorem SearchByDate_limit (config : MemoryConfig) (workspaceID query : string) (limit : Z)
    (order : string) (vector : Vector) (results : list SearchResult) :
  Enabled config = true ->
  0 <= limit -> limit * 10 < 2 ^ 63 ->
  Embed query = inl vector ->
  dbSearch (targetCollection config) vector (Z.max 50 (limit * 10)) 0 workspaceID
    = inl results ->
  exists sorted,
    sortResultsByDate results order = Some sorted /\
    SearchByDate config workspaceID query limit order
      = Returns (take (Z.to_nat limit) sorted, None) /\
    len (take (Z.to_nat limit) sorted) = Z.min limit (len results).
Proof.
  intros Hen H0 Hmax He Hdb.
  destruct (sortResultsByDate_sorts results order) as (sorted & Hs & Hperm & _).
  exists sorted. split; [exact Hs|].
  assert (Hlen : len sorted = len results)
    by (unfold len; now rewrite (Permutation_length Hperm)).
  assert (Hc : candidatesFor limit = Z.max 50 (limit * 10)).
  { unfold candidatesFor, candidateMultiplier, wrap64. cbv zeta.
    replace ((limit * 10 + 2 ^ 63) mod 2 ^ 64 - 2 ^ 63) with (limit * 10)
      by (rewrite Z.mod_small; lia).
    destruct (Z.ltb_spec (limit * 10) 50); lia. }
  unfold SearchByDate. rewrite Hen. cbn [negb]. cbv zeta. rewrite He, Hc, Hdb, Hs.
  split.
  - destruct (Z.gtb_spec (len sorted) limit) as [Hgt|Hle].
    + destruct (Z.ltb_spec limit 0); [lia | reflexivity].
    + unfold len in Hle. rewrite take_ge by lia. reflexivity.
  - unfold len in *. rewrite length_take. lia.
Qed.

(** X24. A negative limit is not checked: with memory enabled, an embedding
    and any answer of the store (an empty one too), [SearchByDate] panics on
    slicing the results to the limit. *)
Theorem SearchByDate_negative_limit (config : MemoryConfig) (workspaceID query : string)
    (limit : Z) (order : string) (vector : Vector) (results : list SearchResult) :
  Enabled config = true ->
  limit < 0 ->
  Embed query = inl vector ->
  dbSearch (targetCollection config) vector (candidatesFor limit) 0 workspaceID
    = inl results ->
  SearchByDate config workspaceID query limit order = Panics.
Proof.
  intros Hen H0 He Hdb.
  destruct (sortResultsByDate_sorts results order) as (sorted & Hs & _).
  unfold SearchByDate. rewrite Hen. cbn [negb]. cbv zeta. rewrite He, Hdb, Hs.
  assert (Hgt : (len sorted >? limit) = true) by (apply Z.gtb_lt; unfold len; lia).
  rewrite Hgt.
  assert (Hlt : (limit <? 0) = true) by (apply Z.ltb_lt; lia).
  now rewrite Hlt.
Qed.

End Search.

(** Three results as a store would answer them, with floats that hold whole
    numbers. *)
Definition result (id : string) (ts : Value Z) : SearchResult Z :=
  {| ID := id; Score := 0; Payload := {[ "timestamp" := ts ]} |}.

Definition answers : list (SearchResult Z) :=
  [ result "a" (Int64 Z 2); result "b" (Float64_ Z 3); result "c" (String_ Z "1") ].

Definition oneEmbed (text : string) : list Z + string := inl [1].

Definition answering (collection : string) (vector : list Z) (limit offset : Z)
    (workspaceID : string) : list (SearchResult Z) + string := inl answers.

Example sortResultsByDate_rows :
  option_map (map (ID Z)) (sortResultsByDate Z id answers "asc") = Some ["c"; "a"; "b"] /\
  option_map (map (ID Z)) (sortResultsByDate Z id answers "desc") = Some ["b"; "a"; "c"] /\
  option_map (map (ID Z)) (sortResultsByDate Z id answers "ASC") = Some ["b"; "a"; "c"].
Proof. repeat split; vm_compute; reflexivity. Qed.

Lemma SearchByDate_limit_witness :
  exists sorted,
    sortResultsByDate Z id answers "asc" = Some sorted /\
    SearchByDate Z id (list Z) oneEmbed answering defaults "ws" "q" 2 "asc"
      = Returns (take (Z.to_nat 2) sorted, None) /\
    len (take (Z.to_nat 2) sorted) = Z.min 2 (len answers).
Proof.
  apply (SearchByDate_limit Z id (list Z) oneEmbed answering defaults "ws" "q" 2 "asc" [1]);
    first [reflexivity | lia].
Defined.

Lemma SearchByDate_negative_limit_witness :
  SearchByDate Z id (list Z) oneEmbed answering defaults "ws" "q" (-1) "asc" = Panics.
Proof.
  apply (SearchByDate_negative_limit Z id (list Z) oneEmbed answering defaults "ws" "q" (-1)
           "asc" [1] answers); first [reflexivity | lia].
Defined.

End memorysearch.

(** ** [crypto/sha256], [crypto/hmac] and [crypto/subtle]

    The webhook handler authenticates a GitHub delivery by HMAC-SHA256; the
    digest is FIPS 180-4 over bytes, words of 32 bits as [Z]. *)
Module sha256.

#[local] Open Scope Z_scope.

Definition add32 (a b : Z) : Z := (a + b) mod 2 ^ 32.

Definition not32 (a : Z) : Z := Z.lxor a 4294967295.

Definition rotr32 (x c : Z) : Z :=
  Z.lor (Z.shiftr x c) (Z.shiftl x (32 - c) mod 2 ^ 32).

(** The first 32 bits of the fractional parts of the cube roots of the
    first 64 primes. *)
Definition K : list Z :=
  [
   1116352408; 1899447441; 3049323471; 3921009573;
   961987163; 1508970993; 2453635748; 2870763221;
   3624381080; 310598401; 607225278; 1426881987;
   1925078388; 2162078206; 2614888103; 3248222580;
   3835390401; 4022224774; 264347078; 604807628;
   770255983; 1249150122; 1555081692; 1996064986;
   2554220882; 2821834349; 2952996808; 3210313671;
   3336571891; 3584528711; 113926993; 338241895;
   666307205; 773529912; 1294757372; 1396182291;
   1695183700; 1986661051; 2177026350; 2456956037;
   2730485921; 2820302411; 3259730800; 3345764771;
   3516065817; 3600352804; 4094571909; 275423344;
   430227734; 506948616; 659060556; 883997877;
   958139571; 1322822218; 1537002063; 1747873779;
   1955562222; 2024104815; 2227730452; 2361852424;
   2428436474; 2756734187; 3204031479; 3329325298].

(** The same of the square roots of the first 8 primes. *)
Definition H0 : list Z :=
  [1779033703; 3144134277; 1013904242; 2773480762;
   1359893119; 2600822924; 528734635; 1541459225].

(** Big-endian bytes of a word, and words of bytes. *)
Definition bytesBE (n : nat) (w : Z) : list Z :=
  (fun k => Z.shiftr w (8 * Z.of_nat (n - 1 - k)) mod 256) <$> seq 0 n.

Fixpoint words (bytes : list Z) : list Z :=
  match bytes with
  | b0 :: b1 :: b2 :: b3 :: rest =>
      (16777216 * b0 + 65536 * b1 + 256 * b2 + b3) :: words rest
  | _ => []
  end.

Fixpoint blocks (n : nat) (ws : list Z) : list (list Z) :=
  match n with
  | O => []
  | S n' => take 16 ws :: blocks n' (drop 16 ws)
  end.

Definition pad (msg : list Z) : list Z :=
  let n := Z.of_nat (length msg) in
  msg ++ [128] ++ repeat 0 (Z.to_nat ((55 - n) mod 64)) ++ bytesBE 8 ((8 * n) mod 2 ^ 64).

(** The message schedule: word [i] from words [i-2], [i-7], [i-15], [i-16]. *)
Definition extend (w : list Z) (i : nat) : list Z :=
  let w15 := nth (i - 15) w 0 in
  let w2 := nth (i - 2) w 0 in
  let s0 := Z.lxor (Z.lxor (rotr32 w15 7) (rotr32 w15 18)) (Z.shiftr w15 3) in
  let s1 := Z.lxor (Z.lxor (rotr32 w2 17) (rotr32 w2 19)) (Z.shiftr w2 10) in
  w ++ [add32 (add32 (add32 (nth (i - 16) w 0) s0) (nth (i - 7) w 0)) s1].

Definition schedule (M : list Z) : list Z := fold_left extend (seq 16 48) M.

Definition round (w : list Z) (st : list Z) (i : nat) : list Z :=
  match st with
  | [a; b; c; d; e; f; g; h] =>
      let S1 := Z.lxor (Z.lxor (rotr32 e 6) (rotr32 e 11)) (rotr32 e 25) in
      let ch := Z.lxor (Z.land e f) (Z.land (not32 e) g) in
      let t1 := add32 (add32 (add32 (add32 h S1) ch) (nth i K 0)) (nth i w 0) in
      let S0 := Z.lxor (Z.lxor (rotr32 a 2) (rotr32 a 13)) (rotr32 a 22) in
      let maj := Z.lxor (Z.lxor (Z.land a b) (Z.land a c)) (Z.land b c) in
      let t2 := add32 S0 maj in
      [add32 t1 t2; a; b; c; add32 d t1; e; f; g]
  | _ => st
  end.

Definition block (h : list Z) (M : list Z) : list Z :=
  let w := schedule M in
  zip_with add32 h (fold_left (round w) (seq 0 64) h).

(** [sha256.Sum256(msg)]: the 32 bytes of the digest. *)
Definition Sum256 (msg : list Z) : list Z :=
  let padded := pad msg in
  mjoin (bytesBE 4 <$> fold_left block (blocks (length padded / 64) (words padded)) H0).

Example Sum256_fips180 :
  md5.hex (Sum256 (md5.bytesOf "abc"))
    = "ba7816bf8f01cfea414140de5dae2223b00361a396177a9cb410ff61f20015ad" /\
  md5.hex (Sum256 (md5.bytesOf "abcdbcdecdefdefgefghfghighijhijkijkljklmklmnlmnomnopnopq"))
    = "248d6a61d20638b8e5c026930c3e6039a33ce45964ff2167f6ecedd419db06c1".
Proof. vm_compute. repeat split. Qed.

End sha256.

Module hmac.

#[local] Open Scope Z_scope.

(** [hmac.New(sha256.New, key)], [Write(message)], [Sum(nil)] (RFC 2104,
    block size 64). *)
Definition Sum (key message : list Z) : list Z :=
  let key := if (64 <? Z.of_nat (length key)) then sha256.Sum256 key else key in
  let key := key ++ repeat 0 (64 - length key)%nat in
  let ipad := (fun b => Z.lxor b 54) <$> key in
  let opad := (fun b => Z.lxor b 92) <$> key in
  sha256.Sum256 (opad ++ sha256.Sum256 (ipad ++ message)).

(** [subtle.ConstantTimeCompare(x, y)]: 0 at once for unequal lengths,
    otherwise every pair of bytes is folded into [v], and the result is 1
    exactly when [v] stays 0. *)
Definition ConstantTimeCompare (x y : list Z) : Z :=
  if negb (Z.of_nat (length x) =? Z.of_nat (length y)) then 0
  else
    let v := fold_left (fun v xy => Z.lor v (Z.lxor xy.1 xy.2)) (zip x y) 0 in
    if v =? 0 then 1 else 0.

(** [hmac.Equal(mac1, mac2)]. *)
Definition Equal (mac1 mac2 : list Z) : bool :=
  ConstantTimeCompare mac1 mac2 =? 1.

Example Sum_rows :
  md5.hex (Sum (md5.bytesOf "key") (md5.bytesOf "The quick brown fox jumps over the lazy dog"))
    = "f7bc83f430538424b13298e6aa6fb143ef4d59a14946175997479dbc2d1a3cd8" /\
  md5.hex (Sum (md5.bytesOf "my_secret") (md5.bytesOf "event=push"))
    = "0025d81fd861eaca6a2ef5232b0f623cde21c7de8a62d8f25e180d5a14e0eb90" /\
  md5.hex (Sum (repeat 107 100) (md5.bytesOf "hello"))
    = "3fd578d761a4f6703009e92d2e8a0aea22ab9ab50d4ad250dc95d8c369dec3f5".
Proof. vm_compute. repeat split. Qed.

End hmac.

(** ** The gateway's webhook handler *)
Module gateway.

#[local] Open Scope Z_scope.

(** [config.WebhookConfig]. *)
Record WebhookConfig : Type := { Format : string; Secret : string; Agent : string }.

(** What the handler reads of the [*http.Request]: the method, [r.URL.Path],
    the headers by canonical name, and what [io.ReadAll(r.Body)] gives
    ([None] for a read error). *)
Record Request : Type := {
  Method : string;
  Path : string;
  Header : gmap string string;
  Body : option string
}.

(** [r.Header.Get(key)]: the value, or the empty string when absent. *)
Definition Get (r : Request) (key : string) : string := default EmptyString (Header r !! key).

(** What the handler writes: the status and the body. *)
Record Response : Type := { Status : Z; Text : string }.

(** [http.Error(w, msg, code)]. *)
Definition Error_ (msg : string) (code : Z) : Response :=
  {| Status := code; Text := msg +:+ memory.newline |}.

(** The arguments of [processor.ProcessDirectWithChannel]. *)
Record Call : Type := {
  content : string;
  sessionKey : string;
  channel : string;
  chatID : string
}.

Section Handler.

(** [routing.BuildAgentPeerSessionKey] for the agent and the webhook id (the
    other parameters are constants of the handler), and the processor, which
    answers an error text or none. *)
Variable BuildAgentPeerSessionKey : string -> string -> string.
Variable processor : Call -> option string.

(** The signature check of a "github" webhook: [None] when it passes,
    otherwise the error response. *)
Definition checkSignature (webhook : WebhookConfig) (r : Request) (body : string)
    : option Response :=
  let sigHeader := Get r "X-Hub-Signature-256" in
  if String.eqb sigHeader "" then Some (Error_ "Missing signature" 401)
  else
    match strings.SplitN2 sigHeader "=" with
    | [part0; part1] =>
        if negb (String.eqb part0 "sha256") then Some (Error_ "Invalid signature format" 400)
        else
          let expectedMAC :=
            md5.hex (hmac.Sum (md5.bytesOf (Secret webhook)) (md5.bytesOf body)) in
          if negb (hmac.Equal (md5.bytesOf part1) (md5.bytesOf expectedMAC))
          then Some (Error_ "Invalid signature" 401)
          else None
    | _ => Some (Error_ "Invalid signature format" 400)
    end.

(** [webhookHandler(processor, cfg)] on one request: the response, and the
    call made on the processor, if it got that far. *)
Definition webhookHandler (webhooks : gmap string WebhookConfig) (r : Request)
    : Response * option Call :=
  if negb (String.eqb (Method r) "POST") then (Error_ "Method not allowed" 405, None)
  else
    match strings.Split (strings.Trim (Path r) "/") "/" with
    | [part0; webhookID] =>
        if negb (String.eqb part0 "webhook") then (Error_ "Not found" 404, None)
        else
          match webhooks !! webhookID with
          | None => (Error_ "Webhook not found" 404, None)
          | Some webhook =>
              match Body r with
              | None => (Error_ "Error reading body" 500, None)
              | Some body =>
                  match (if String.eqb (Format webhook) "github"
                         then checkSignature webhook r body else None) with
                  | Some rejected => (rejected, None)
                  | None =>
                      let payloadStr :=
                        if String.eqb (Format webhook) "github" then
                          "GitHub Webhook Event: " +:+ Get r "X-Github-Event" +:+
                          memory.newline +:+ "Payload: " +:+ body
                        else "Webhook Event: " +:+ body in
                      let agentID :=
                        if String.eqb (Agent webhook) "" then "default" else Agent webhook in
                      let call :=
                        {| content := payloadStr;
                           sessionKey := BuildAgentPeerSessionKey agentID webhookID;
                           channel := "webhook"; chatID := webhookID |} in
                      match processor call with
                      | Some _ => (Error_ "Internal server error" 500, Some call)
                      | None => ({| Status := 200; Text := "OK" |}, Some call)
                      end
                  end
              end
          end
    | _ => (Error_ "Not found" 404, None)
    end.

(** The signature GitHub sends for [body] under [secret]. *)
Definition signatureOf (secret body : string) : string :=
  "sha256=" +:+ md5.hex (hmac.Sum (md5.bytesOf secret) (md5.bytesOf body)).

Lemma fold_lor_zero (l : list (Z * Z)) (v : Z) :
  fold_left (fun v xy => Z.lor v (Z.lxor xy.1 xy.2)) l v = 0 <->
  v = 0 /\ Forall (fun xy => xy.1 = xy.2) l.
Proof.
  revert v; induction l as [|[a b] l IH]; intros v; cbn [fold_left].
  - split; [intros ->; split; [reflexivity | constructor] | now intros [-> _]].
  - rewrite IH, Z.lor_eq_0_iff, Z.lxor_eq_0_iff, Forall_cons. cbn. tauto.
Qed.

(** The constant-time comparison decides equality of the byte strings. *)
Lemma Equal_eq (x y : list Z) : hmac.Equal x y = true <-> x = y.
Proof.
  unfold hmac.Equal, hmac.ConstantTimeCompare.
  destruct (Z.eqb_spec (Z.of_nat (length x)) (Z.of_nat (length y))) as [El|El]; cbn [negb].
  - cbv zeta.
    destruct (Z.eqb_spec (fold_left (fun v xy => Z.lor v (Z.lxor xy.1 xy.2)) (zip x y) 0) 0)
      as [E|E].
    + split; [intros _|reflexivity]. apply fold_lor_zero in E as [_ E].
      apply Nat2Z.inj in El. revert y El E.
      induction x as [|a x IH]; intros [|b y] El E; try discriminate; [reflexivity|].
      cbn in E. apply Forall_cons in E as [E1 E2]. cbn in E1. subst b.
      f_equal. apply IH; [now injection El | exact E2].
    + split; [discriminate|]. intros ->. exfalso. apply E. apply fold_lor_zero.
      split; [reflexivity|]. clear. induction y as [|b y IH]; cbn; constructor; auto.
  - split; [discriminate | intros ->; contradiction].
Qed.

Lemma bytesOf_inj s1 s2 : md5.bytesOf s1 = md5.bytesOf s2 -> s1 = s2.
Proof.
  unfold md5.bytesOf. revert s2; induction s1 as [|c s1 IH]; intros [|d s2]; cbn;
    try discriminate; [reflexivity|].
  intros [= E1 E2]. apply N2Z.inj in E1. f_equal; [|now apply IH].
  rewrite <- (ascii_N_embedding c), <- (ascii_N_embedding d). now rewrite E1.
Qed.

Lemma SplitN2_sha256 v : strings.SplitN2 ("sha256=" +:+ v) "=" = ["sha256"; v].
Proof. reflexivity. Qed.

Lemma sha256_not_empty v : String.eqb ("sha256=" +:+ v) "" = false.
Proof. reflexivity. Qed.

Lemma checkSignature_passes webhook r body :
  checkSignature webhook r body = None <->
  Get r "X-Hub-Signature-256" = signatureOf (Secret webhook) body.
Proof.
  unfold checkSignature, signatureOf. cbv zeta.
  set (sig := Get r "X-Hub-Signature-256").
  set (expected := md5.hex (hmac.Sum (md5.bytesOf (Secret webhook)) (md5.bytesOf body))).
  split.
  - destruct (String.eqb sig ""); [discriminate|].
    unfold strings.SplitN2.
    destruct (strings.Cut sig "=") as [[p0 p1]|] eqn:E; [|discriminate].
    destruct (String.eqb_spec p0 "sha256") as [->|]; cbn [negb]; [|discriminate].
    destruct (hmac.Equal (md5.bytesOf p1) (md5.bytesOf expected)) eqn:E2; cbn [negb];
      [|discriminate].
    intros _. apply Equal_eq, bytesOf_inj in E2. subst p1.
    apply strings.Cut_Some_eq in E. exact E.
  - intros ->. rewrite sha256_not_empty, SplitN2_sha256.
    change (String.eqb "sha256" "sha256") with true. cbn [negb].
    replace (hmac.Equal (md5.bytesOf expected) (md5.bytesOf expected)) with true
      by (symmetry; now apply Equal_eq).
    reflexivity.
Qed.

Lemma checkSignature_status webhook r body :
  (Get r "X-Hub-Signature-256" = "" ->
   Status <$> checkSignature webhook r body = Some 401) /\
  (Get r "X-Hub-Signature-256" <> "" ->
   (forall v, Get r "X-Hub-Signature-256" <> "sha256=" +:+ v) ->
   Status <$> checkSignature webhook r body = Some 400) /\
  (forall v, Get r "X-Hub-Signature-256" = "sha256=" +:+ v ->
             Get r "X-Hub-Signature-256" <> signatureOf (Secret webhook) body ->
             Status <$> checkSignature webhook r body = Some 401).
Proof.
  split; [|split].
  - unfold checkSignature. cbv zeta. now intros ->.
  - intros Hne Hform. unfold checkSignature. cbv zeta.
    destruct (String.eqb_spec (Get r "X-Hub-Signature-256") ""); [contradiction|].
    unfold strings.SplitN2.
    destruct (strings.Cut (Get r "X-Hub-Signature-256") "=") as [[p0 p1]|] eqn:E; [|reflexivity].
    destruct (String.eqb_spec p0 "sha256") as [->|]; cbn [negb]; [|reflexivity].
    apply strings.Cut_Some_eq in E. exfalso. apply (Hform p1). exact E.
  - intros v Hv Hne.
    destruct (checkSignature webhook r body) as [resp|] eqn:E;
      [|apply checkSignature_passes in E; contradiction].
    revert E. unfold checkSignature. cbv zeta. rewrite Hv.
    rewrite sha256_not_empty, SplitN2_sha256.
    change (String.eqb "sha256" "sha256") with true. cbn [negb].
    destruct (hmac.Equal _ _); cbn [negb]; [discriminate|]. now intros [= <-].
Qed.

(** C6. For a webhook of format "github", a POST to ["/webhook/<id>"] reaches
    the processor exactly when the [X-Hub-Signature-256] header is "sha256="
    followed by the lower-case hexadecimal HMAC-SHA256 of the raw body under
    the configured secret (compared by [subtle.ConstantTimeCompare], which
    decides equality); a missing header is answered 401, a header not of the
    form "sha256=<value>" 400, and a well-formed one with another value
    401. *)
Theorem webhook_github_signature (webhooks : gmap string WebhookConfig) (r : Request)
    (id : string) (webhook : WebhookConfig) (body : string) :
  Method r = "POST" ->
  strings.Split (strings.Trim (Path r) "/") "/" = ["webhook"; id] ->
  webhooks !! id = Some webhook ->
  Format webhook = "github" ->
  Body r = Some body ->
  (is_Some (webhookHandler webhooks r).2 <->
   Get r "X-Hub-Signature-256" = signatureOf (Secret webhook) body) /\
  (forall call, (webhookHandler webhooks r).2 = Some call ->
     chatID call = id /\ channel call = "webhook" /\
     (Status (webhookHandler webhooks r).1 = 200 <-> processor call = None)) /\
  (Get r "X-Hub-Signature-256" = "" -> Status (webhookHandler webhooks r).1 = 401) /\
  (Get r "X-Hub-Signature-256" <> "" ->
   (forall v, Get r "X-Hub-Signature-256" <> "sha256=" +:+ v) ->
   Status (webhookHandler webhooks r).1 = 400) /\
  (forall v, Get r "X-Hub-Signature-256" = "sha256=" +:+ v ->
             v <> md5.hex (hmac.Sum (md5.bytesOf (Secret webhook)) (md5.bytesOf body)) ->
             Status (webhookHandler webhooks r).1 = 401).
Proof.
  intros Hm Hp Hw Hf Hb.
  pose proof (checkSignature_passes webhook r body) as Hpass.
  pose proof (checkSignature_status webhook r body) as (H401 & H400 & Hbad).
  unfold webhookHandler. rewrite Hm, Hp, Hw, Hb, Hf.
  cbn [String.eqb negb Ascii.eqb Bool.eqb].
  destruct (checkSignature webhook r body) as [resp|] eqn:E.
  - cbn [fst snd]. split; [|split; [|split; [|split]]].
    + split; [intros [? [=]] | intros H; apply Hpass in H; discriminate].
    + intros call [=].
    + intros H. apply H401 in H. now injection H.
    + intros H1 H2. specialize (H400 H1 H2). now injection H400.
    + intros v Hv Hne. assert (Hne' : Get r "X-Hub-Signature-256" <> signatureOf (Secret webhook) body).
      { rewrite Hv. unfold signatureOf. intros H. apply Hne.
        now apply (tools.prepend_inj "sha256=") in H. }
      specialize (Hbad v Hv Hne'). now injection Hbad.
  - pose proof (proj1 Hpass eq_refl) as Hsig. cbv zeta.
    match goal with |- context [processor ?c] => set (call0 := c) end.
    destruct (processor call0) eqn:Ep; cbn [fst snd].
    + split; [|split; [|split; [|split]]].
      * split; [intros _; exact Hsig | eauto].
      * intros call [= <-]. split; [reflexivity | split; [reflexivity|]].
        rewrite Ep. unfold Error_. cbn [Status]. split; discriminate.
      * intros H. rewrite Hsig in H. discriminate.
      * intros _ H. exfalso. apply (H _ Hsig).
      * intros v Hv Hne. exfalso. rewrite Hv in Hsig. apply Hne.
        unfold signatureOf in Hsig. now apply (tools.prepend_inj "sha256=") in Hsig.
    + split; [|split; [|split; [|split]]].
      * split; [intros _; exact Hsig | eauto].
      * intros call [= <-]. split; [reflexivity | split; [reflexivity|]].
        rewrite Ep. cbn [Status]. split; reflexivity.
      * intros H. rewrite Hsig in H. discriminate.
      * intros _ H. exfalso. apply (H _ Hsig).
      * intros v Hv Hne. exfalso. rewrite Hv in Hsig. apply Hne.
        unfold signatureOf in Hsig. now apply (tools.prepend_inj "sha256=") in Hsig.
Qed.


(** *** Which paths and webhooks reach the processor *)

(** The last byte of a string. *)
Fixpoint lastByte (s : string) : option ascii :=
  match s with
  | EmptyString => None
  | String c EmptyString => Some c
  | String _ s' => lastByte s'
  end.

Definition byte (c : ascii) : string := String c EmptyString.

Lemma Contains_byte c s d :
  strings.Contains (String c s) (byte d) = Ascii.eqb c d || strings.Contains s (byte d).
Proof.
  unfold strings.Contains, byte. cbn [strings.Cut strings.CutPrefix].
  destruct (Ascii.eqb c d); [reflexivity|]. cbn [orb].
  now destruct (strings.Cut s (String d "")) as [[? ?]|].
Qed.

Lemma Contains_empty d : strings.Contains "" (byte d) = false.
Proof. reflexivity. Qed.

Lemma lastByte_Contains s c : lastByte s = Some c -> strings.Contains s (byte c) = true.
Proof.
  induction s as [|d s IH]; [discriminate|]. rewrite Contains_byte.
  destruct s as [|e s]; cbn [lastByte].
  - intros [= ->]. now rewrite Ascii.eqb_refl.
  - intros H. rewrite (IH H). apply orb_true_r.
Qed.

(** No field of a split holds the separator. *)
Lemma Split_fields s sep f :
  f ∈ strings.Split s sep -> strings.Contains f (byte sep) = false.
Proof.
  revert f; induction s as [|c s IH]; intros f; cbn [strings.Split].
  - intros ->%list_elem_of_singleton. reflexivity.
  - destruct (Ascii.eqb c sep) eqn:E.
    + intros [->|H]%elem_of_cons; [reflexivity | now apply IH].
    + destruct (strings.Split s sep) as [|field fields].
      * intros ->%list_elem_of_singleton. rewrite Contains_byte, E. reflexivity.
      * intros [->|H]%elem_of_cons.
        -- rewrite Contains_byte, E. apply IH. left.
        -- apply IH. now right.
Qed.

(** A string without the separator is its own single field. *)
Lemma Split_one s sep : strings.Contains s (byte sep) = false -> strings.Split s sep = [s].
Proof.
  induction s as [|c s IH]; [reflexivity|]. rewrite Contains_byte.
  intros [E H]%orb_false_elim. cbn [strings.Split]. rewrite E, (IH H). reflexivity.
Qed.

(** The last field of a split is empty only for a string that is empty or
    ends in the separator. *)
Lemma Split_last s sep :
  last (strings.Split s sep) = Some EmptyString -> s = EmptyString \/ lastByte s = Some sep.
Proof.
  induction s as [|c s IH]; [now left|]. intros H. right. revert IH H.
  cbn [strings.Split].
  destruct (Ascii.eqb_spec c sep) as [->|Hne].
  - destruct s as [|d s]; [reflexivity|]. intros IH H.
    assert (Hl : last (strings.Split (String d s) sep) = Some EmptyString).
    { revert H. destruct (strings.Split (String d s) sep) eqn:E; [|exact id].
      exfalso. revert E. cbn [strings.Split].
      destruct (Ascii.eqb d sep); [discriminate|].
      destruct (strings.Split s sep); discriminate. }
    destruct (IH Hl) as [?|IH']; [discriminate | exact IH'].
  - destruct (strings.Split s sep) as [|field fields] eqn:E; [discriminate|].
    intros IH H. destruct fields as [|f2 fields]; [discriminate|].
    destruct s as [|d s]; [discriminate|].
    destruct (IH H) as [?|IH']; [discriminate | exact IH'].
Qed.

Lemma TrimRight_last s cut : lastByte (strings.TrimRight s cut) <> Some cut.
Proof.
  induction s as [|c s IH]; [discriminate|]. cbn [strings.TrimRight].
  destruct (strings.TrimRight s cut) as [|d t] eqn:E.
  - destruct (Ascii.eqb_spec c cut); [discriminate | cbn; congruence].
  - exact IH.
Qed.

Lemma TrimRight_keeps s cut : lastByte s <> Some cut -> strings.TrimRight s cut = s.
Proof.
  induction s as [|c s IH]; [reflexivity|]. cbn [strings.TrimRight].
  destruct s as [|d s].
  - cbn. destruct (Ascii.eqb_spec c cut); [congruence | reflexivity].
  - intros H. now rewrite (IH H).
Qed.

Lemma lastByte_app p s : s <> EmptyString -> lastByte (p +:+ s) = lastByte s.
Proof.
  intros Hs. induction p as [|c p IH]; [reflexivity|].
  rewrite strings.app_cons. cbn [lastByte]. rewrite <- IH.
  destruct (p +:+ s) eqn:E; [|reflexivity].
  destruct p; [cbn in E; contradiction | discriminate E].
Qed.

(** The path ["/webhook/<id>"] of a non-empty id without a slash splits into
    "webhook" and the id. *)
Lemma path_fields id :
  id <> EmptyString -> strings.Contains id (byte "/") = false ->
  strings.Split (strings.Trim ("/webhook/" +:+ id) "/") "/" = ["webhook"; id].
Proof.
  intros Hid Hs. unfold strings.Trim.
  change (strings.TrimLeft ("/webhook/" +:+ id) "/") with ("webhook/" +:+ id).
  rewrite TrimRight_keeps.
  - cbn. now rewrite (Split_one id "/" Hs).
  - rewrite (lastByte_app "webhook/" id Hid). intros H.
    apply lastByte_Contains in H. congruence.
Qed.

(** The fields of a trimmed path: when there are two, the second is not empty
    and holds no slash. *)
Lemma trimmed_fields path a id :
  strings.Split (strings.Trim path "/") "/" = [a; id] ->
  id <> EmptyString /\ strings.Contains id (byte "/") = false.
Proof.
  intros H. split.
  - intros ->.
    destruct (Split_last (strings.Trim path "/") "/") as [E|E].
    + now rewrite H.
    + rewrite E in H. discriminate H.
    + now apply TrimRight_last in E.
  - apply (Split_fields (strings.Trim path "/") "/"). rewrite H. right. left.
Qed.

Lemma checkSignature_codes webhook r body resp :
  checkSignature webhook r body = Some resp -> Status resp = 400 \/ Status resp = 401.
Proof.
  unfold checkSignature. cbv zeta.
  destruct (String.eqb (Get r "X-Hub-Signature-256") ""); [intros [= <-]; now right|].
  destruct (strings.SplitN2 _ _) as [|p0 [|p1 [|? ?]]]; try (intros [= <-]; now left).
  destruct (negb (String.eqb p0 "sha256")); [intros [= <-]; now left|].
  destruct (negb (hmac.Equal _ _)); [intros [= <-]; now right | discriminate].
Qed.

(** X25. A webhook whose format is not exactly "github" is not
    authenticated: every POST to ["/webhook/<id>"] with a readable body is
    handed to the processor as "Webhook Event: <body>" under the webhook's
    agent ("default" when none is set), whatever the headers, and is
    answered 200 "OK", or 500 when the processor fails. *)
Theorem webhook_plain_forwarded (webhooks : gmap string WebhookConfig) (r : Request)
    (id : string) (webhook : WebhookConfig) (body : string) :
  Method r = "POST" ->
  Path r = "/webhook/" +:+ id ->
  id <> EmptyString -> strings.Contains id "/" = false ->
  webhooks !! id = Some webhook ->
  Format webhook <> "github" ->
  Body r = Some body ->
  let call := {| content := "Webhook Event: " +:+ body;
                 sessionKey := BuildAgentPeerSessionKey
                                 (if String.eqb (Agent webhook) "" then "default"
                                  else Agent webhook) id;
                 channel := "webhook"; chatID := id |} in
  webhookHandler webhooks r =
    (match processor call with
     | None => {| Status := 200; Text := "OK" |}
     | Some _ => Error_ "Internal server error" 500
     end, Some call).
Proof.
  intros Hm Hp Hid Hs Hw Hf Hb call.
  unfold webhookHandler. rewrite Hm, Hp, (path_fields id Hid Hs), Hw, Hb.
  change (String.eqb "POST" "POST") with true.
  change (String.eqb "webhook" "webhook") with true. cbn [negb].
  destruct (String.eqb_spec (Format webhook) "github") as [E|_]; [contradiction|].
  cbv zeta. fold call. now destruct (processor call).
Qed.

(** X26. What every request meets, whatever the configuration: the answer is
    200 exactly when the processor was called and did not fail; the
    processor is only called for a POST with a readable body, on the channel
    "webhook", and for a configured webhook id that is not empty and holds
    no slash (a webhook configured under another key is unreachable); and
    the status is one of 200, 400, 401, 404, 405 and 500. *)
Theorem webhookHandler_gate (webhooks : gmap string WebhookConfig) (r : Request) :
  (Status (webhookHandler webhooks r).1 = 200 <->
   exists call, (webhookHandler webhooks r).2 = Some call /\ processor call = None) /\
  (forall call, (webhookHandler webhooks r).2 = Some call ->
     Method r = "POST" /\ is_Some (Body r) /\ channel call = "webhook" /\
     is_Some (webhooks !! chatID call) /\
     chatID call <> EmptyString /\ strings.Contains (chatID call) "/" = false) /\
  Status (webhookHandler webhooks r).1 ∈ [200; 400; 401; 404; 405; 500].
Proof.
  unfold webhookHandler.
  destruct (String.eqb_spec (Method r) "POST") as [Hm|Hm]; cbn [negb].
  2: { cbn. split; [split; [discriminate | intros (? & [=] & _)]|].
       split; [intros ? [=] | set_solver]. }
  destruct (strings.Split (strings.Trim (Path r) "/") "/") as [|p0 [|id [|? ?]]] eqn:Hp;
    try (cbn; split; [split; [discriminate | intros (? & [=] & _)]|];
         split; [intros ? [=] | set_solver]).
  pose proof (trimmed_fields _ _ _ Hp) as [Hid Hs].
  destruct (negb (String.eqb p0 "webhook")).
  { cbn. split; [split; [discriminate | intros (? & [=] & _)]|].
    split; [intros ? [=] | set_solver]. }
  destruct (webhooks !! id) as [webhook|] eqn:Hw.
  2: { cbn. split; [split; [discriminate | intros (? & [=] & _)]|].
       split; [intros ? [=] | set_solver]. }
  destruct (Body r) as [body|] eqn:Hb.
  2: { cbn. split; [split; [discriminate | intros (? & [=] & _)]|].
       split; [intros ? [=] | set_solver]. }
  destruct (if String.eqb (Format webhook) "github" then checkSignature webhook r body
            else None) as [rejected|] eqn:Hc.
  { assert (Hcodes : Status rejected = 400 \/ Status rejected = 401).
    { destruct (String.eqb (Format webhook) "github"); [|discriminate].
      now apply checkSignature_codes in Hc. }
    cbn [fst snd]. split; [split; [lia | intros (? & [=] & _)]|].
    split; [intros ? [=]|]. destruct Hcodes as [-> | ->]; set_solver. }
  cbv zeta.
  match goal with |- context [processor ?c] => set (call0 := c) end.
  destruct (processor call0) eqn:Ep; cbn [fst snd].
  - split; [split; [discriminate | intros (c & [= <-] & E); congruence]|].
    split; [|cbn; set_solver].
    intros c [= <-]. unfold call0. cbn [chatID channel]. rewrite Hw.
    split; [exact Hm|]. split; [now eexists|]. split; [reflexivity|].
    split; [now eexists|]. split; assumption.
  - split; [split; [eauto | reflexivity]|].
    split; [|cbn; set_solver].
    intros c [= <-]. unfold call0. cbn [chatID channel]. rewrite Hw.
    split; [exact Hm|]. split; [now eexists|]. split; [reflexivity|].
    split; [now eexists|]. split; assumption.
Qed.

End Handler.

(** The configuration and the requests of the handler's test. *)
Definition testHooks : gmap string WebhookConfig :=
  <["github-id" := {| Format := "github"; Secret := "my_secret"; Agent := "" |}]>
    (<["test-id" := {| Format := "json"; Secret := ""; Agent := "" |}]> ∅).

Definition testKey (agentID webhookID : string) : string :=
  "agent:" +:+ agentID +:+ ":webhook:direct:" +:+ webhookID.

Definition accepting (call : Call) : option string := None.

Definition request (method path : string) (headers : list (string * string)) (body : string)
    : Request :=
  {| Method := method; Path := path; Header := list_to_map headers; Body := Some body |}.

Definition signed : Request :=
  request "POST" "/webhook/github-id"
    [("X-Hub-Signature-256",
      "sha256=0025d81fd861eaca6a2ef5232b0f623cde21c7de8a62d8f25e180d5a14e0eb90");
     ("X-Github-Event", "push")]
    "event=push".

Lemma webhook_github_signature_witness :
  is_Some (webhookHandler testKey accepting testHooks signed).2 /\
  Status (webhookHandler testKey accepting testHooks signed).1 = 200.
Proof.
  assert (H1 : Method signed = "POST") by reflexivity.
  assert (H2 : strings.Split (strings.Trim (Path signed) "/") "/" = ["webhook"; "github-id"])
    by (vm_compute; reflexivity).
  assert (H3 : testHooks !! "github-id"
               = Some {| Format := "github"; Secret := "my_secret"; Agent := "" |})
    by (vm_compute; reflexivity).
  assert (H4 : Format {| Format := "github"; Secret := "my_secret"; Agent := "" |} = "github")
    by reflexivity.
  assert (H5 : Body signed = Some "event=push") by reflexivity.
  destruct (webhook_github_signature testKey accepting testHooks signed "github-id" _ _
              H1 H2 H3 H4 H5) as (Hfwd & Hcall & _).
  assert (Hs : is_Some (webhookHandler testKey accepting testHooks signed).2)
    by (apply Hfwd; vm_compute; reflexivity).
  split; [exact Hs|]. destruct Hs as [call Hc].
  apply (Hcall call Hc). reflexivity.
Defined.

(** The status of each row of the handler's test. *)
Example webhookHandler_rows :
  Status (webhookHandler testKey accepting testHooks
            (request "GET" "/webhook/test-id" [] "")).1 = 405 /\
  Status (webhookHandler testKey accepting testHooks
            (request "POST" "/wrong/test-id" [] "")).1 = 404 /\
  Status (webhookHandler testKey accepting testHooks
            (request "POST" "/webhook/unknown-id" [] "")).1 = 404 /\
  Status (webhookHandler testKey accepting testHooks
            (request "POST" "/webhook/test-id" [] "event=push")).1 = 200 /\
  Status (webhookHandler testKey accepting testHooks
            (request "POST" "/webhook/github-id" [] "event=push")).1 = 401 /\
  Status (webhookHandler testKey accepting testHooks
            (request "POST" "/webhook/github-id"
               [("X-Hub-Signature-256", "bad:format")] "event=push")).1 = 400 /\
  Status (webhookHandler testKey accepting testHooks
            (request "POST" "/webhook/github-id"
               [("X-Hub-Signature-256", "sha256=abcdef")] "event=push")).1 = 401 /\
  (webhookHandler testKey accepting testHooks
     (request "POST" "/webhook/github-id"
        [("X-Hub-Signature-256", "sha256=abcdef")] "event=push")).2 = None.
Proof. vm_compute. repeat split. Qed.

Lemma webhook_plain_forwarded_witness :
  webhookHandler testKey accepting testHooks
    (request "POST" "/webhook/test-id" [("X-Hub-Signature-256", "bad:format")] "event=push")
  = ({| Status := 200; Text := "OK" |},
     Some {| content := "Webhook Event: event=push";
             sessionKey := "agent:default:webhook:direct:test-id";
             channel := "webhook"; chatID := "test-id" |}).
Proof.
  apply (webhook_plain_forwarded testKey accepting testHooks
           (request "POST" "/webhook/test-id" [("X-Hub-Signature-256", "bad:format")]
                    "event=push")
           "test-id" {| Format := "json"; Secret := ""; Agent := "" |} "event=push");
    first [discriminate | vm_compute; reflexivity].
Defined.

End gateway.

(** ** Package [qdrant]: the address of the vector store *)
Module qdrant.

#[local] Open Scope Z_scope.

(** What [ParseAddress] reads of a parsed [*url.URL]: [u.Scheme],
    [u.Hostname()] and [u.Port()]. *)
Record URL : Type := { Scheme : string; Hostname : string; Port : string }.

Section ParseAddress.

(** [url.Parse(rawURL)], [None] for an error; and [fmt.Sscanf(s, "%d", &port)],
    which stores the integer it scans, or fails and leaves [port] as it was
    ([None]). *)
Variable url_Parse : string -> option URL.
Variable Sscanf_d : string -> option Z.

(** [if p == "6333" { port = 6334 } else { fmt.Sscanf(p, "%d", &port) }]
    on the default [port]. *)
Definition portOf (port : Z) (p : string) : Z :=
  if String.eqb p "6333" then 6334
  else match Sscanf_d p with
       | Some n => n
       | None => port
       end.

Definition ParseAddress (rawURL : string) : string * Z * bool :=
  let host := rawURL in
  let port := 6334 in
  let useTLS := false in
  if strings.Contains rawURL "://" then
    match url_Parse rawURL with
    | Some u =>
        let host := Hostname u in
        let port := if negb (String.eqb (Port u) "") then portOf port (Port u) else port in
        let useTLS := if String.eqb (Scheme u) "https" then true else useTLS in
        (host, port, useTLS)
    | None => (host, port, useTLS)
    end
  else
    match strings.Split rawURL ":" with
    | [part0; part1] => (part0, portOf port part1, useTLS)
    | _ => (host, port, useTLS)
    end.







End ParseAddress.

(** Stand-ins for the two library functions on the addresses of
    [TestParseQdrantAddress]: "scheme://host" with an optional ":port", and
    a port of decimal digits. *)
Definition testParse (rawURL : string) : option URL :=
  match strings.Cut rawURL "://" with
  | Some (scheme, rest) =>
      match strings.Split rest ":" with
      | [host] => Some {| Scheme := scheme; Hostname := host; Port := "" |}
      | [host; port] => Some {| Scheme := scheme; Hostname := host; Port := port |}
      | _ => None
      end
  | None => None
  end.

Fixpoint digitsValue (acc : Z) (s : string) : option Z :=
  match s with
  | EmptyString => Some acc
  | String c s' =>
      if providers.isDigit (String c EmptyString) 0
      then digitsValue (acc * 10 + providers.digit c) s'
      else None
  end.

Definition testScan (s : string) : option Z :=
  if String.eqb s "" then None else digitsValue 0 s.

Example ParseAddress_rows :
  ParseAddress testParse testScan "http://192.168.0.70:6333" = ("192.168.0.70", 6334, false) /\
  ParseAddress testParse testScan "https://qdrant.example.com"
    = ("qdrant.example.com", 6334, true) /\
  ParseAddress testParse testScan "192.168.0.70:6333" = ("192.168.0.70", 6334, false) /\
  ParseAddress testParse testScan "http://localhost" = ("localhost", 6334, false) /\
  ParseAddress testParse testScan "https://qdrant.example.com:8443"
    = ("qdrant.example.com", 8443, true) /\
  ParseAddress testParse testScan "localhost" = ("localhost", 6334, false) /\
  ParseAddress testParse testScan "localhost:7000" = ("localhost", 7000, false).
Proof. vm_compute. repeat split. Qed.


End qdrant.

(** ** Package [embedding]: the client of the embedding API *)
Module embedding.

#[local] Open Scope Z_scope.

(** [config.EmbeddingConfig]. *)
Record EmbeddingConfig : Type := {
  Provider : string;
  Model : string;
  APIKey : string;
  BaseURL : string;
  Timeout : Z;
  ChunkSize : Z;
  KeepAlive : string;
  NumCtx : Z
}.

(** [Client]; [timeout] is the [Timeout] of its [http.Client], a
    [time.Duration] in nanoseconds. *)
Record Client : Type := {
  provider : string;
  model : string;
  apiKey : string;
  apiBase : string;
  timeout : Z;
  chunkSize : Z;
  keepAlive : string;
  numCtx : Z
}.

Definition Second : Z := 1000000000.

Section NewClient.

(** [strings.EqualFold], equality under Unicode case folding. *)
Variable EqualFold : string -> string -> bool.

Definition NewClient (cfg : EmbeddingConfig) : Client :=
  let timeout := Timeout cfg in
  let timeout := if timeout <=? 0 then 30 else timeout in
  let apiBase := BaseURL cfg in
  let apiBase :=
    if String.eqb apiBase "" then
      if EqualFold (Provider cfg) "openai" then "https://api.openai.com/v1"
      else if EqualFold (Provider cfg) "ollama" then "http://localhost:11434/v1"
      else apiBase
    else apiBase in
  let apiBase := strings.TrimRight apiBase "/" in
  {| provider := Provider cfg; model := Model cfg; apiKey := APIKey cfg;
     apiBase := apiBase;
     timeout := memorysearch.wrap64 (timeout * Second);
     chunkSize := ChunkSize cfg; keepAlive := KeepAlive cfg; numCtx := NumCtx cfg |}.

(** The URL [Embed] posts to. *)
Definition embeddingsURL (c : Client) : string := apiBase c +:+ "/embeddings".

(** X28. The client [NewClient] builds: its base URL never ends in a slash,
    so the URL of a request has exactly the one before "embeddings"; a
    configured base URL is kept up to its trailing slashes, and one without
    a trailing slash as it is; the timeout is the configured number of
    seconds, and 30 seconds for a configured value of zero or less. *)
Theorem NewClient_base (cfg : EmbeddingConfig) :
  gateway.lastByte (apiBase (NewClient cfg)) <> Some "/"%char /\
  (BaseURL cfg <> "" -> apiBase (NewClient cfg) = strings.TrimRight (BaseURL cfg) "/") /\
  (gateway.lastByte (BaseURL cfg) <> Some "/"%char -> BaseURL cfg <> "" ->
   embeddingsURL (NewClient cfg) = BaseURL cfg +:+ "/embeddings") /\
  (Timeout cfg <= 0 -> timeout (NewClient cfg) = 30 * Second) /\
  (0 < Timeout cfg < 2 ^ 63 / Second -> timeout (NewClient cfg) = Timeout cfg * Second).
Proof.
  unfold embeddingsURL, NewClient. cbv zeta. cbn [apiBase timeout].
  split; [apply gateway.TrimRight_last|].
  split; [|split; [|split]].
  - intros H. now destruct (String.eqb_spec (BaseURL cfg) "").
  - intros Hl H. destruct (String.eqb_spec (BaseURL cfg) ""); [contradiction|].
    now rewrite gateway.TrimRight_keeps.
  - intros H. apply Z.leb_le in H. rewrite H. reflexivity.
  - intros [H1 H2]. destruct (Z.leb_spec (Timeout cfg) 0); [lia|].
    unfold memorysearch.wrap64. rewrite Z.mod_small; [lia|].
    unfold Second in *.
    pose proof (Z.mul_div_le (2 ^ 63) 1000000000 ltac:(lia)). lia.
Qed.

End NewClient.

End embedding.

(** ** Package [family]: the chores of a family *)
Module family.

#[local] Open Scope Z_scope.

(** [ChoreStatus], a string type, and its three constants. *)
Definition ChoreStatus : Type := string.
Definition StatusPending : ChoreStatus := "pending".
Definition StatusCompleted : ChoreStatus := "completed".
Definition StatusVerified : ChoreStatus := "verified".

(** [Chore]; times are clock readings, a nil [*time.Time] is [None]. *)
Record Chore : Type := {
  ID : string;
  Assigner : string;
  Assignee : string;
  Title : string;
  Description : string;
  Status : ChoreStatus;
  CreatedAt : Z;
  CompletedAt : option Z;
  VerifiedAt : option Z
}.

(** The [chores] map of a [FamilyStore]; the chores are reached through the
    map only, so a chore changed in place is the map updated at its key. *)
Abbreviation FamilyStore := (gmap string Chore).

Definition NewFamilyStore : FamilyStore := ∅.

(** [AssignChore]; [id] is what [uuid.New().String()] gives and [now] what
    [time.Now()] reads. *)
Definition AssignChore (s : FamilyStore) (id : string) (now : Z)
    (assigner assignee title description : string) : FamilyStore * string :=
  let c := {| ID := id; Assigner := assigner; Assignee := assignee; Title := title;
              Description := description; Status := StatusPending; CreatedAt := now;
              CompletedAt := None; VerifiedAt := None |} in
  (<[id := c]> s, id).

(** [ListChores]: the range over the map, in the map's order. *)
Definition ListChores (s : FamilyStore) (user : string) : list Chore :=
  foldl (fun result kc =>
           if String.eqb (Assignee kc.2) user || String.eqb (Assigner kc.2) user
           then result ++ [kc.2] else result)
        [] (map_to_list s).

Definition setCompleted (c : Chore) (now : Z) : Chore :=
  {| ID := ID c; Assigner := Assigner c; Assignee := Assignee c; Title := Title c;
     Description := Description c; Status := StatusCompleted; CreatedAt := CreatedAt c;
     CompletedAt := Some now; VerifiedAt := VerifiedAt c |}.

Definition setVerified (c : Chore) (now : Z) : Chore :=
  {| ID := ID c; Assigner := Assigner c; Assignee := Assignee c; Title := Title c;
     Description := Description c; Status := StatusVerified; CreatedAt := CreatedAt c;
     CompletedAt := CompletedAt c; VerifiedAt := Some now |}.

Definition setRejected (c : Chore) : Chore :=
  {| ID := ID c; Assigner := Assigner c; Assignee := Assignee c; Title := Title c;
     Description := Description c; Status := StatusPending; CreatedAt := CreatedAt c;
     CompletedAt := None; VerifiedAt := VerifiedAt c |}.

(** [CompleteChore]: the store afterwards and the error text, if any. *)
Definition CompleteChore (s : FamilyStore) (now : Z) (user choreID : string)
    : FamilyStore * option string :=
  match s !! choreID with
  | None => (s, Some "chore not found")
  | Some chore =>
      if negb (String.eqb (Assignee chore) user)
      then (s, Some "unauthorized to complete this chore")
      else if negb (String.eqb (Status chore) StatusPending)
      then (s, Some "chore is not pending")
      else (<[choreID := setCompleted chore now]> s, None)
  end.

(** [VerifyChore]. *)
Definition VerifyChore (s : FamilyStore) (now : Z) (user choreID : string) (approved : bool)
    : FamilyStore * option string :=
  match s !! choreID with
  | None => (s, Some "chore not found")
  | Some chore =>
      if negb (String.eqb (Assigner chore) user)
      then (s, Some "unauthorized to verify this chore")
      else if negb (String.eqb (Status chore) StatusCompleted)
      then (s, Some "chore is not completed yet")
      else if approved then (<[choreID := setVerified chore now]> s, None)
      else (<[choreID := setRejected chore]> s, None)
  end.

(** The stores the four operations make of the empty one. *)
Inductive reachable : FamilyStore -> Prop :=
| reach_new : reachable NewFamilyStore
| reach_assign s id now assigner assignee title description :
    reachable s ->
    reachable (AssignChore s id now assigner assignee title description).1
| reach_complete s now user choreID :
    reachable s -> reachable (CompleteChore s now user choreID).1
| reach_verify s now user choreID approved :
    reachable s -> reachable (VerifyChore s now user choreID approved).1.

(** What holds of every chore of a store. *)
Definition consistent (key : string) (c : Chore) : Prop :=
  ID c = key /\
  (Status c = StatusPending \/ Status c = StatusCompleted \/ Status c = StatusVerified) /\
  (Status c = StatusPending <-> CompletedAt c = None) /\
  (Status c = StatusVerified <-> is_Some (VerifiedAt c)).

Lemma consistent_insert (s : FamilyStore) key c :
  (forall k c', s !! k = Some c' -> consistent k c') ->
  consistent key c ->
  forall k c', <[key := c]> s !! k = Some c' -> consistent k c'.
Proof.
  intros Hs Hc k c'. rewrite lookup_insert. case_decide as E.
  - subst k. now intros [= <-].
  - apply Hs.
Qed.

(** X29. The chores of a store keep their shape through every sequence of
    operations: each chore sits under its own id, its status is one of
    "pending", "completed" and "verified", it has a completion time exactly
    when it is not pending, and a verification time exactly when it is
    verified. *)
Theorem chores_consistent (s : FamilyStore) :
  reachable s -> forall key c, s !! key = Some c -> consistent key c.
Proof.
  induction 1 as [|s id now assigner assignee title description _ IH
                  |s now user choreID _ IH|s now user choreID approved _ IH].
  - intros key c H. unfold NewFamilyStore in H. now rewrite lookup_empty in H.
  - cbn [AssignChore fst]. apply consistent_insert; [exact IH|].
    unfold consistent. cbn.
    split; [reflexivity|]. split; [now left|].
    split; [tauto|]. split; [discriminate | intros [? [=]]].
  - unfold CompleteChore. destruct (s !! choreID) as [chore|] eqn:E; [|exact IH].
    destruct (negb (String.eqb (Assignee chore) user)); [exact IH|].
    destruct (String.eqb_spec (Status chore) StatusPending) as [Hp|_]; [|exact IH].
    cbn [negb fst]. apply consistent_insert; [exact IH|].
    destruct (IH _ _ E) as (Hid & _ & _ & Hv). unfold consistent. cbn.
    split; [exact Hid|]. split; [right; now left|].
    split; [split; discriminate|].
    split; [discriminate|]. intros Hs. apply Hv in Hs. rewrite Hp in Hs. discriminate Hs.
  - unfold VerifyChore. destruct (s !! choreID) as [chore|] eqn:E; [|exact IH].
    destruct (negb (String.eqb (Assigner chore) user)); [exact IH|].
    destruct (String.eqb_spec (Status chore) StatusCompleted) as [Hc|_]; [|exact IH].
    cbn [negb]. destruct (IH _ _ E) as (Hid & _ & Hp & Hv).
    destruct approved; cbn [fst]; (apply consistent_insert; [exact IH|]);
      unfold consistent; cbn; (split; [exact Hid|]).
    + split; [right; now right|]. split; [|split; [eauto | reflexivity]].
      split; [discriminate|]. intros Hn. apply Hp in Hn. rewrite Hc in Hn. discriminate Hn.
    + split; [now left|]. split; [tauto|].
      split; [discriminate|]. intros Hs. apply Hv in Hs. rewrite Hc in Hs. discriminate Hs.
Qed.

Lemma setRejected_setCompleted c now :
  Status c = StatusPending -> CompletedAt c = None -> setRejected (setCompleted c now) = c.
Proof. destruct c. cbn. now intros -> ->. Qed.

(** X30. Completion and review compose: for a pending chore, completion by
    its assignee followed by the assigner's rejection puts the store back
    exactly as it was; followed by the assigner's approval it leaves the
    chore verified, with both times set; and a review by anyone but the
    assigner is refused and changes nothing. *)
Theorem chore_review (s : FamilyStore) (now1 now2 : Z) (id : string) (c : Chore) :
  s !! id = Some c -> Status c = StatusPending -> CompletedAt c = None ->
  let done := (CompleteChore s now1 (Assignee c) id).1 in
  (CompleteChore s now1 (Assignee c) id).2 = None /\
  VerifyChore done now2 (Assigner c) id false = (s, None) /\
  VerifyChore done now2 (Assigner c) id true
    = (<[id := setVerified (setCompleted c now1) now2]> s, None) /\
  (forall user approved, user <> Assigner c ->
     VerifyChore done now2 user id approved
       = (done, Some "unauthorized to verify this chore")).
Proof.
  intros Hc Hp Hn done.
  assert (Hdone : CompleteChore s now1 (Assignee c) id
                  = (<[id := setCompleted c now1]> s, None)).
  { unfold CompleteChore. rewrite Hc, String.eqb_refl, Hp. reflexivity. }
  subst done. rewrite Hdone. cbn [fst snd]. split; [reflexivity|].
  unfold VerifyChore. rewrite lookup_insert_eq.
  cbn [Assigner Status setCompleted]. rewrite String.eqb_refl.
  change (String.eqb StatusCompleted StatusCompleted) with true. cbn [negb].
  rewrite !insert_insert_eq. split; [|split; [reflexivity|]].
  - rewrite setRejected_setCompleted by assumption. now rewrite insert_id.
  - intros user approved Hu.
    destruct (String.eqb_spec (Assigner c) user) as [E|_]; [congruence | reflexivity].
Qed.

Definition dishes : Chore :=
  {| ID := "c1"; Assigner := "mum"; Assignee := "kid"; Title := "dishes";
     Description := ""; Status := StatusPending; CreatedAt := 1;
     CompletedAt := None; VerifiedAt := None |}.

Definition assigned : FamilyStore :=
  (AssignChore NewFamilyStore "c1" 1 "mum" "kid" "dishes" "").1.

Lemma chore_review_witness :
  (CompleteChore assigned 2 "kid" "c1").2 = None /\
  VerifyChore (CompleteChore assigned 2 "kid" "c1").1 3 "mum" "c1" false = (assigned, None) /\
  VerifyChore (CompleteChore assigned 2 "kid" "c1").1 3 "mum" "c1" true
    = (<["c1" := setVerified (setCompleted dishes 2) 3]> assigned, None) /\
  (forall user approved, user <> "mum" ->
     VerifyChore (CompleteChore assigned 2 "kid" "c1").1 3 user "c1" approved
       = ((CompleteChore assigned 2 "kid" "c1").1, Some "unauthorized to verify this chore")).
Proof.
  apply (chore_review assigned 2 3 "c1" dishes);
    [apply lookup_insert_eq | reflexivity | reflexivity].
Defined.

Lemma chores_consistent_witness :
  consistent "c1" (setVerified (setCompleted dishes 2) 3).
Proof.
  apply (chores_consistent
           (VerifyChore (CompleteChore assigned 2 "kid" "c1").1 3 "mum" "c1" true).1).
  - apply reach_verify, reach_complete. unfold assigned. apply reach_assign, reach_new.
  - vm_compute. reflexivity.
Defined.

End family.
